(** * Point-system pipeline of the COMPASS gamification component

    A shallow embedding of the metric calculators
    ([pointSystemCalculations]), the snapshot generator
    ([snapshotGeneration]), the date helpers ([dateUtils]), the citation
    ingestion step of the initialization job and the decay-table seed script,
    together with the properties the specification states about them.

    Numeric model.  PostgreSQL [NUMERIC]/[double precision] values and
    JavaScript numbers that hold scores are modelled as exact rationals [Q];
    the rounding of binary floating point and the rounding to three decimals
    when a value is stored in a [Decimal(10,3)] column are not modelled.
    Timestamps are integers counting milliseconds since the Unix epoch, as
    [Date.prototype.getTime] returns them; the database session is taken to
    run in UTC.  A nullable column is an [option]. *)

From Stdlib Require Import ZArith QArith Qminmax List Bool String Lia Lra Lqa.
From Stdlib Require Import Reals Rpower.
Import ListNotations.

Open Scope Z_scope.

(* ================================================================== *)
(** * JavaScript [Date] arithmetic and [dateUtils.ts] *)
(* ================================================================== *)

Module DateUtils.

(** A [Date] is its time value. *)
Definition Date := Z.

Definition msPerDay : Z := 86400000.

(** ECMAScript [Day(t)] and [TimeWithinDay(t)]. *)
Definition Day (t : Date) : Z := t / msPerDay.
Definition TimeWithinDay (t : Date) : Z := t mod msPerDay.

(** Proleptic Gregorian calendar: day number (days since 1970-01-01) of a
    civil date with month in 1..12, and back. *)
Definition days_from_civil (y m d : Z) : Z :=
  let y' := if m <=? 2 then y - 1 else y in
  let era := y' / 400 in
  let yoe := y' - era * 400 in
  let mp := (m + 9) mod 12 in
  let doy := (153 * mp + 2) / 5 + d - 1 in
  let doe := yoe * 365 + yoe / 4 - yoe / 100 + doy in
  era * 146097 + doe - 719468.

Definition civil_from_days (z : Z) : Z * Z * Z :=
  let z' := z + 719468 in
  let era := z' / 146097 in
  let doe := z' - era * 146097 in
  let yoe := (doe - doe / 1460 + doe / 36524 - doe / 146096) / 365 in
  let doy := doe - (365 * yoe + yoe / 4 - yoe / 100) in
  let mp := (5 * doy + 2) / 153 in
  let d := doy - (153 * mp + 2) / 5 + 1 in
  let m := if mp <? 10 then mp + 3 else mp - 9 in
  let y := yoe + era * 400 in
  ((if m <=? 2 then y + 1 else y), m, d).

Definition getUTCFullYear (t : Date) : Z :=
  let '(y, _, _) := civil_from_days (Day t) in y.
(** Months are numbered from 0, as in JavaScript. *)
Definition getUTCMonth (t : Date) : Z :=
  let '(_, m, _) := civil_from_days (Day t) in m - 1.
Definition getUTCDate (t : Date) : Z :=
  let '(_, _, d) := civil_from_days (Day t) in d.
(** 0 is Sunday; 1970-01-01 was a Thursday. *)
Definition getUTCDay (t : Date) : Z := (Day t + 4) mod 7.

(** ECMAScript [MakeDay(year, month, date)]: the month may lie outside
    0..11 and the date outside the month; both carry over. *)
Definition MakeDay (year month date : Z) : Z :=
  let ym := year + month / 12 in
  let mn := month mod 12 in
  days_from_civil ym (mn + 1) 1 + date - 1.

Definition MakeDate (day time : Z) : Date := day * msPerDay + time.

(** [Date.UTC(year, month, date, 0, 0, 0, 0)]; a year in 0..99 means
    1900 + year. *)
Definition DateUTC (year month date : Z) : Date :=
  let yr := if (0 <=? year) && (year <=? 99) then 1900 + year else year in
  MakeDate (MakeDay yr month date) 0.

Definition setUTCHours0 (t : Date) : Date := MakeDate (Day t) 0.

Definition setUTCDate (t : Date) (dt : Z) : Date :=
  MakeDate (MakeDay (getUTCFullYear t) (getUTCMonth t) dt) (TimeWithinDay t).

Definition setUTCMonth (t : Date) (month : Z) : Date :=
  MakeDate (MakeDay (getUTCFullYear t) month (getUTCDate t)) (TimeWithinDay t).

(** [getConsistentDateForDB]: midnight UTC on the first day of the month
    of [date]. *)
Definition getConsistentDateForDB (date : Date) : Date :=
  DateUTC (getUTCFullYear date) (getUTCMonth date) 1.

(** [normalizeToMidnightUTC]: midnight UTC, the day of the month kept. *)
Definition normalizeToMidnightUTC (date : Date) : Date :=
  DateUTC (getUTCFullYear date) (getUTCMonth date) (getUTCDate date).

(** The three generators share the loop
    [while (currentDate <= endDate) { dates.push(copy); advance }].
    Every [advance] used below moves the date forward by at least one day,
    so the number of days between the two dates, plus one, bounds the
    number of iterations. *)
Fixpoint sequence_loop (advance : Date -> Date) (fuel : nat)
         (currentDate endDate : Date) : list Date :=
  match fuel with
  | O => []
  | S fuel' =>
      if currentDate <=? endDate
      then currentDate :: sequence_loop advance fuel' (advance currentDate) endDate
      else []
  end.

Definition loop_fuel (currentDate endDate : Date) : nat :=
  Z.to_nat ((endDate - currentDate) / msPerDay + 1).

Definition generateMonthlySequence (startDate endDate : Date) : list Date :=
  let currentDate := DateUTC (getUTCFullYear startDate) (getUTCMonth startDate) 1 in
  sequence_loop (fun c => setUTCMonth c (getUTCMonth c + 1))
                (loop_fuel currentDate endDate) currentDate endDate.

Definition generateQuarterlySequence (startDate endDate : Date) : list Date :=
  let quarterMonth := (getUTCMonth startDate / 3) * 3 in
  let currentDate := DateUTC (getUTCFullYear startDate) quarterMonth 1 in
  sequence_loop (fun c => setUTCMonth c (getUTCMonth c + 3))
                (loop_fuel currentDate endDate) currentDate endDate.

Definition generateMondaySequence (startDate endDate : Date) : list Date :=
  let currentDate := setUTCHours0 startDate in
  let day := getUTCDay currentDate in
  let currentDate :=
    if day =? 1 then currentDate
    else setUTCDate currentDate
           (getUTCDate currentDate + (if day =? 0 then 1 else 8 - day)) in
  sequence_loop (fun c => setUTCDate c (getUTCDate c + 7))
                (loop_fuel currentDate endDate) currentDate endDate.

Inductive SnapshotFrequency := weekly | monthly | quarterly.

Definition getDateSequence (snapshotFrequency : SnapshotFrequency)
           (startDate endDate : Date) : list Date :=
  match snapshotFrequency with
  | monthly => generateMonthlySequence startDate endDate
  | quarterly => generateQuarterlySequence startDate endDate
  | weekly => generateMondaySequence startDate endDate
  end.

(** ** Date arithmetic done inside the SQL statements *)

(** [DATE_PART('day', a - b)::INT]: the day field of the interval between
    two timestamps, which is the difference truncated towards zero. *)
Definition days_between (a b : Date) : Z := Z.quot (a - b) msPerDay.

(** [CURRENT_DATE] / [DATE_TRUNC('day', t)]: midnight of the day of [t]. *)
Definition date_trunc_day (t : Date) : Date := Day t * msPerDay.

Definition is_leap (y : Z) : bool :=
  ((y mod 4 =? 0) && negb (y mod 100 =? 0)) || (y mod 400 =? 0).

Definition days_in_month (y m : Z) : Z :=
  if m =? 2 then (if is_leap y then 29 else 28)
  else if (m =? 4) || (m =? 6) || (m =? 9) || (m =? 11) then 30 else 31.

(** [t - INTERVAL 'n years']: same month, day and time of day [n] years
    earlier, the day clamped to the length of the month. *)
Definition minus_years (t : Date) (n : Z) : Date :=
  let '(y, m, d) := civil_from_days (Day t) in
  let d' := Z.min d (days_in_month (y - n) m) in
  MakeDate (days_from_civil (y - n) m d') (TimeWithinDay t).

(** [AGE(a::DATE, b::DATE)] for [b] not after [a], as the whole number of
    months it holds: [EXTRACT(YEAR ...) * 12 + EXTRACT(MONTH ...)]. *)
Definition age_in_months (a b : Date) : Z :=
  let '(y1, m1, d1) := civil_from_days (Day a) in
  let '(y2, m2, d2) := civil_from_days (Day b) in
  (y1 * 12 + m1) - (y2 * 12 + m2) - (if d1 <? d2 then 1 else 0).

End DateUtils.

(* ================================================================== *)
(** * SQL helpers *)
(* ================================================================== *)

Module Sql.

Definition coalesce {A} (x : option A) (d : A) : A :=
  match x with Some v => v | None => d end.

(** [SUM]: NULL inputs are skipped; NULL when no input is left. *)
Definition sum (l : list (option Q)) : option Q :=
  fold_right (fun x acc =>
                match x, acc with
                | Some v, Some s => Some (v + s)%Q
                | Some v, None => Some v
                | None, _ => acc
                end) None l.

(** [AVG] over an integer column. *)
Definition avg (l : list (option Z)) : option Q :=
  let vals := flat_map (fun x => match x with Some v => [v] | None => [] end) l in
  match vals with
  | [] => None
  | _ => Some (inject_Z (fold_right Z.add 0%Z vals) / inject_Z (Z.of_nat (List.length vals)))%Q
  end.

(** [MAX] over an integer column without NULLs. *)
Definition max (l : list Z) : option Z :=
  fold_right (fun r acc =>
                Some (match acc with Some m => Z.max r m | None => r end)) None l.

(** [GREATEST(1, LEAST(x, 5))] and [LEAST(GREATEST(1, x), 100)]. *)
Definition clamp_1_5 (x : Q) : Q := Qmax 1 (Qmin x 5).
Definition clamp_1_100 (x : Q) : Q := Qmin (Qmax 1 x) 100.

(** [GREATEST(a, b)] on timestamps: a NULL argument is ignored. *)
Definition greatest (a : option Z) (b : Z) : Z :=
  match a with Some x => Z.max x b | None => b end.

(** [x <= y] in a [WHERE] clause: NULL counts as false. *)
Definition le_null (x : option Z) (y : Z) : bool :=
  match x with Some v => v <=? y | None => false end.

(** [NULLIF(x, 0)]. *)
Definition nullif0 (x : Q) : option Q :=
  if Qeq_bool x 0 then None else Some x.

(** [ROW_NUMBER()] over an already ordered partition. *)
Definition row_number {A} (l : list A) : list (Z * A) :=
  combine (map Z.of_nat (seq 1 (List.length l))) l.

(** [ORDER BY]: insertion sort by the given "comes before" test. *)
Fixpoint insert_by {A} (before : A -> A -> bool) (x : A) (l : list A) : list A :=
  match l with
  | [] => [x]
  | y :: l' => if before x y then x :: l else y :: insert_by before x l'
  end.

Definition order_by {A} (before : A -> A -> bool) (l : list A) : list A :=
  fold_right (insert_by before) [] l.

(** [ORDER BY c DESC] on a nullable integer column: NULLs come first. *)
Definition desc_before (a b : option Z) : bool :=
  match a, b with
  | None, _ => true
  | Some _, None => false
  | Some x, Some y => y <=? x
  end.

Definition order_by_desc (l : list (option Z)) : list (option Z) :=
  order_by desc_before l.

(** Sum of a column without NULLs. *)
Definition sumQ (l : list Q) : Q := fold_right Qplus 0%Q l.

(** [INSERT ... SELECT ... ON CONFLICT (key) DO UPDATE SET value =
    EXCLUDED.value] into a table of (key, value) rows whose value column
    is [NOT NULL].  The statement fails, and changes nothing, when a
    selected value is NULL or when two selected rows carry the same key
    (PostgreSQL refuses to update a row twice in one command). *)
Section Upsert.
Context {K : Type} (eqb : K -> K -> bool).

Fixpoint upsert (k : K) (v : Q) (t : list (K * Q)) : list (K * Q) :=
  match t with
  | [] => [(k, v)]
  | r :: t' => if eqb k (fst r) then (fst r, v) :: t' else r :: upsert k v t'
  end.

Definition has_key {V} (k : K) (rows : list (K * V)) : bool :=
  existsb (fun r => eqb k (fst r)) rows.

Fixpoint distinct_keys {V} (rows : list (K * V)) : bool :=
  match rows with
  | [] => true
  | r :: rows' => negb (has_key (fst r) rows') && distinct_keys rows'
  end.

Fixpoint upsert_rows (rows : list (K * option Q)) (t : list (K * Q))
  : option (list (K * Q)) :=
  match rows with
  | [] => Some t
  | (k, Some v) :: rows' => upsert_rows rows' (upsert k v t)
  | (_, None) :: _ => None
  end.

Definition insert_on_conflict_update (rows : list (K * option Q))
           (t : list (K * Q)) : option (list (K * Q)) :=
  if distinct_keys rows then upsert_rows rows t else None.

Definition lookup (k : K) (t : list (K * Q)) : option Q :=
  option_map snd (find (fun r => eqb k (fst r)) t).
End Upsert.

End Sql.

(* ================================================================== *)
(** * The tables of [schema.prisma] *)
(* ================================================================== *)

Module Schema.
Import DateUtils.

Record Publication := mkPublication {
  pub_id : Z;
  submission_id : Z;
  doi : option string;
  conference : option Z;
  review_score : option Q;
  overall_score : option Q;
  citation_count : option Z;
  date_published : option Date }.

Record Citation := mkCitation {
  cit_publication_id : Z;
  oci : string;
  creation_date : option Date;
  author_sc : option bool }.

Record User := mkUser { user_id : Z; h_index : option Z }.

Record Event := mkEvent { lisperator_id : option Z; conference_value : option Q }.

Record PublicationUser := mkPublicationUser { pu_publication_id : Z; pu_user_id : Z }.

Record PublicationTopic := mkPublicationTopic { pt_publication_id : Z; pt_topic_id : Z }.

Record DecayRow := mkDecayRow { days : Z; decay_factor : Q }.

(** The four snapshot families.  A row is its unique key (the entity
    key and the snapshot date) paired with its value; the serial [id]
    column is left out. *)
Definition PublicationSnapshot : Type := (Z * Date) * Q.
Definition TopicSnapshot : Type := (Z * Date) * Q.
Definition UserTopicSnapshot : Type := (Z * Z * Date) * Q.
Definition UserOverallSnapshot : Type := (Z * Date) * Q.

Record DB := mkDB {
  Publications : list Publication;
  Citations : list Citation;
  Users : list User;
  Events : list Event;
  PublicationUsers : list PublicationUser;
  PublicationTopics : list PublicationTopic;
  DecayLookup : list DecayRow;
  PublicationSnapshots : list PublicationSnapshot;
  TopicSnapshots : list TopicSnapshot;
  UserTopicSnapshots : list UserTopicSnapshot;
  UserOverallSnapshots : list UserOverallSnapshot }.

Definition set_Citations (db : DB) (v : list Citation) : DB :=
  mkDB (Publications db) v (Users db) (Events db) (PublicationUsers db)
       (PublicationTopics db) (DecayLookup db) (PublicationSnapshots db)
       (TopicSnapshots db) (UserTopicSnapshots db) (UserOverallSnapshots db).

Definition set_Publications (db : DB) (v : list Publication) : DB :=
  mkDB v (Citations db) (Users db) (Events db) (PublicationUsers db)
       (PublicationTopics db) (DecayLookup db) (PublicationSnapshots db)
       (TopicSnapshots db) (UserTopicSnapshots db) (UserOverallSnapshots db).

Definition set_Users (db : DB) (v : list User) : DB :=
  mkDB (Publications db) (Citations db) v (Events db) (PublicationUsers db)
       (PublicationTopics db) (DecayLookup db) (PublicationSnapshots db)
       (TopicSnapshots db) (UserTopicSnapshots db) (UserOverallSnapshots db).

Definition set_Events (db : DB) (v : list Event) : DB :=
  mkDB (Publications db) (Citations db) (Users db) v (PublicationUsers db)
       (PublicationTopics db) (DecayLookup db) (PublicationSnapshots db)
       (TopicSnapshots db) (UserTopicSnapshots db) (UserOverallSnapshots db).

Definition set_PublicationSnapshots (db : DB) (v : list PublicationSnapshot) : DB :=
  mkDB (Publications db) (Citations db) (Users db) (Events db) (PublicationUsers db)
       (PublicationTopics db) (DecayLookup db) v
       (TopicSnapshots db) (UserTopicSnapshots db) (UserOverallSnapshots db).

Definition set_TopicSnapshots (db : DB) (v : list TopicSnapshot) : DB :=
  mkDB (Publications db) (Citations db) (Users db) (Events db) (PublicationUsers db)
       (PublicationTopics db) (DecayLookup db) (PublicationSnapshots db)
       v (UserTopicSnapshots db) (UserOverallSnapshots db).

Definition set_UserTopicSnapshots (db : DB) (v : list UserTopicSnapshot) : DB :=
  mkDB (Publications db) (Citations db) (Users db) (Events db) (PublicationUsers db)
       (PublicationTopics db) (DecayLookup db) (PublicationSnapshots db)
       (TopicSnapshots db) v (UserOverallSnapshots db).

Definition set_UserOverallSnapshots (db : DB) (v : list UserOverallSnapshot) : DB :=
  mkDB (Publications db) (Citations db) (Users db) (Events db) (PublicationUsers db)
       (PublicationTopics db) (DecayLookup db) (PublicationSnapshots db)
       (TopicSnapshots db) (UserTopicSnapshots db) v.

(** Joins on a unique column return the one matching row. *)
Definition decay (db : DB) (d : Z) : option Q :=
  option_map decay_factor (find (fun r => days r =? d) (DecayLookup db)).

Definition event_of (db : DB) (conf : option Z) : option Event :=
  match conf with
  | Some c =>
      find (fun e => match lisperator_id e with
                     | Some l => l =? c
                     | None => false
                     end) (Events db)
  | None => None
  end.

(** [Publication LEFT JOIN Citation ON p.id = c.publication_id]: the
    citations of the publication, or one all-NULL row when it has none. *)
Definition left_join_citations (db : DB) (p : Publication) : list (option Citation) :=
  match filter (fun c => cit_publication_id c =? pub_id p) (Citations db) with
  | [] => [None]
  | cs => map Some cs
  end.

(** [Publication p JOIN PublicationUser pu ON p.id = pu.publication_id]. *)
Definition authors_of (db : DB) (p : Publication) : list Z :=
  map pu_user_id
      (filter (fun pu => pub_id p =? pu_publication_id pu) (PublicationUsers db)).

End Schema.

(* ================================================================== *)
(** * [pointSystemCalculations]: the current-state metric calculators *)
(* ================================================================== *)

Module PointSystemCalculations.
Import DateUtils Schema.

(** ** [calculateUserHIndex] *)

(** The [citation_count] column of [RankedPublications] for one user. *)
Definition user_citation_counts (db : DB) (uid : Z) : list (option Z) :=
  flat_map (fun p =>
              map (fun _ => citation_count p)
                  (filter (Z.eqb uid) (authors_of db p)))
           (Publications db).

(** [RankedPublications] restricted to one partition: rank and count.
    Rows that tie carry the same count, so the (rank, count) pairs do not
    depend on how PostgreSQL orders ties. *)
Definition RankedPublications (counts : list (option Z)) : list (Z * option Z) :=
  Sql.row_number (Sql.order_by_desc counts).

(** [WHERE citation_count >= rank]. *)
Definition count_ge_rank (row : Z * option Z) : bool :=
  match snd row with
  | Some c => fst row <=? c
  | None => false
  end.

(** [HIndexPerUser]: [MAX(rank)] over the qualifying rows of a partition;
    [None] when the user has no row in [HIndexPerUser]. *)
Definition HIndexPerUser (counts : list (option Z)) : option Z :=
  Sql.max (map fst (filter count_ge_rank (RankedPublications counts))).

Definition calculateUserHIndex (db : DB) : DB :=
  set_Users db
    (map (fun u =>
            match HIndexPerUser (user_citation_counts db (user_id u)) with
            | Some h => mkUser (user_id u) (Some (Z.min h 100))
            | None => u
            end) (Users db)).

(** ** [calculateConferenceValue] *)

Definition ZZ_eq_dec (a b : Z * Z) : {a = b} + {a <> b}.
Proof. decide equality; apply Z.eq_dec. Defined.

(** [user_confs]: the distinct (conference, user) pairs. *)
Definition user_confs (db : DB) : list (Z * Z) :=
  nodup ZZ_eq_dec
    (flat_map (fun p =>
                 match conference p with
                 | Some c => map (fun uid => (c, uid)) (authors_of db p)
                 | None => []
                 end) (Publications db)).

(** The [h_index] values [averages] aggregates for one conference:
    [user_confs uc JOIN "User" u ON uc.user_id = u.id]. *)
Definition conference_h_indexes (db : DB) (c : Z) : list (option Z) :=
  flat_map (fun uc =>
              if fst uc =? c
              then map h_index (filter (fun u => user_id u =? snd uc) (Users db))
              else [])
           (user_confs db).

(** The row of [averages] for a conference, when it has one. *)
Definition averages (db : DB) (c : Z) : option (option Q) :=
  match conference_h_indexes db c with
  | [] => None
  | hs => Some (Sql.avg hs)
  end.

(** [LEAST(GREATEST(1, avg), 100)]; [GREATEST] skips a NULL average. *)
Definition conference_value_of (avg : option Q) : Q :=
  Sql.clamp_1_100 (Sql.coalesce avg 1%Q).

Definition calculateConferenceValue (db : DB) : DB :=
  set_Events db
    (map (fun e =>
            match lisperator_id e with
            | Some l =>
                match averages db l with
                | Some a => mkEvent (lisperator_id e) (Some (conference_value_of a))
                | None => e
                end
            | None => e
            end) (Events db)).

(** ** [calculateCitationScoresAndDecay] *)

(** One term of the [SUM] in [citation_scores]: the [CASE] over a row of
    the citation join.  [asof] is the reference time ([NOW()] here, the
    snapshot date in the snapshot generator) and [pubdate] the publication
    date with its fallback already applied. *)
Definition citation_case (db : DB) (cv : option Q) (asof pubdate : Date)
           (c : option Citation) : option Q :=
  match c with
  | Some c =>
      match author_sc c,
            decay db (days_between asof (Sql.greatest (creation_date c) pubdate)) with
      | Some false, Some f => option_map (fun v => (v / 5) * f)%Q cv
      | _, _ => Some 0%Q
      end
  | None => Some 0%Q
  end.

(** The [decayed_citations] of a publication; [None] when the publication
    has no row in [citation_scores] (no event joins it). *)
Definition citation_scores (now : Date) (db : DB) (p : Publication)
  : option (option Q) :=
  match event_of db (conference p) with
  | Some e =>
      let pubdate := Sql.coalesce (date_published p) (date_trunc_day now) in
      Some (Sql.sum (map (citation_case db (conference_value e) now pubdate)
                         (left_join_citations db p)))
  | None => None
  end.

(** The new [overall_score] of a publication the [UPDATE] reaches. *)
Definition updated_overall_score (now : Date) (db : DB) (p : Publication)
  : option Q :=
  match citation_scores now db p, event_of db (conference p),
        decay db (days_between now
                    (Sql.coalesce (date_published p) (date_trunc_day now))) with
  | Some cs, Some e, Some dl_p =>
      Some (Sql.clamp_1_5 (Sql.coalesce (review_score p) 1)
            * Sql.coalesce (conference_value e) 1 * dl_p
            + Sql.coalesce cs 0)%Q
  | _, _, _ => None
  end.

Definition calculateCitationScoresAndDecay (now : Date) (db : DB) : DB :=
  set_Publications db
    (map (fun p =>
            match updated_overall_score now db p with
            | Some s =>
                mkPublication (pub_id p) (submission_id p) (doi p) (conference p)
                              (review_score p) (Some s) (citation_count p)
                              (date_published p)
            | None => p
            end) (Publications db)).

End PointSystemCalculations.

(* ================================================================== *)
(** * [snapshotGeneration]: historical reconstruction and snapshots *)
(* ================================================================== *)

Module SnapshotGeneration.
Import DateUtils Schema PointSystemCalculations.

Definition key2_eqb (a b : Z * Date) : bool :=
  (fst a =? fst b) && (snd a =? snd b).

Definition key3_eqb (a b : Z * Z * Date) : bool :=
  (fst (fst a) =? fst (fst b)) && (snd (fst a) =? snd (fst b)) && (snd a =? snd b).

(** [processInChunks] / the [for (i = 0; i < n; i += CHUNK_SIZE)] loops. *)
Fixpoint chunks_loop {A} (fuel : nat) (size : nat) (l : list A) : list (list A) :=
  match fuel, l with
  | O, _ => []
  | _, [] => []
  | S fuel', _ => firstn size l :: chunks_loop fuel' size (skipn size l)
  end.

Definition chunks {A} (size : nat) (l : list A) : list (list A) :=
  chunks_loop (List.length l) size l.

Definition CHUNK_SIZE : nat := 1000.

Definition mem (x : Z) (l : list Z) : bool := existsb (Z.eqb x) l.

(** ** The reconstructed metrics *)

(** [HistoricalCitationCounts] joined back with [COALESCE(..., 0)]: the
    number of non-self citations of [p] created by the day of
    [historicalDate]. *)
Definition historical_citation_count (db : DB) (historicalDate : Date)
           (p : Publication) : Z :=
  Z.of_nat (List.length
    (filter (fun c =>
               (cit_publication_id c =? pub_id p)
               && Sql.le_null (creation_date c) (date_trunc_day historicalDate)
               && match author_sc c with Some false => true | _ => false end)
            (Citations db))).

(** The partition of [RankedPublications] of one user. *)
Definition historical_user_counts (db : DB) (historicalDate : Date) (uid : Z)
  : list (option Z) :=
  flat_map (fun p =>
              if Sql.le_null (date_published p) historicalDate
              then map (fun _ => Some (historical_citation_count db historicalDate p))
                       (filter (Z.eqb uid) (authors_of db p))
              else [])
           (Publications db).

(** The row of the temporary table [historical_h_index] for a user. *)
Definition historical_h_index (db : DB) (historicalDate : Date) (uid : Z)
  : option Z :=
  option_map (fun h => Z.min h 100)
             (HIndexPerUser (historical_user_counts db historicalDate uid)).

Definition historical_user_confs (db : DB) (historicalDate : Date) : list (Z * Z) :=
  nodup ZZ_eq_dec
    (flat_map (fun p =>
                 match conference p with
                 | Some c =>
                     if Sql.le_null (date_published p) historicalDate
                     then map (fun uid => (c, uid)) (authors_of db p)
                     else []
                 | None => []
                 end) (Publications db)).

(** The row of [historical_conference_value] for a conference:
    [AVG(COALESCE(hhi.h_index, 0))] over its distinct authors, clamped. *)
Definition historical_conference_value (db : DB) (historicalDate : Date) (c : Z)
  : option Q :=
  match filter (fun uc => fst uc =? c) (historical_user_confs db historicalDate) with
  | [] => None
  | ucs =>
      Some (conference_value_of
              (Sql.avg (map (fun uc =>
                               Some (Sql.coalesce
                                       (historical_h_index db historicalDate (snd uc)) 0))
                            ucs)))
  end.

Definition hcv_of (db : DB) (historicalDate : Date) (p : Publication) : option Q :=
  match conference p with
  | Some c => historical_conference_value db historicalDate c
  | None => None
  end.

(** The row of [historical_base_score] for a publication. *)
Definition historical_base_score (db : DB) (historicalDate : Date)
           (p : Publication) : option Q :=
  if Sql.le_null (date_published p) historicalDate
  then Some (Sql.clamp_1_5 (Sql.coalesce (review_score p) 1)
             * Sql.coalesce (hcv_of db historicalDate p) 1)%Q
  else None.

(** One term of the [SUM] in [calculateHistoricalCitationScores]. *)
Definition historical_citation_case (db : DB) (historicalDate : Date)
           (p : Publication) (c : option Citation) : option Q :=
  match c with
  | Some c =>
      match author_sc c,
            decay db (days_between historicalDate
                        (Sql.greatest (creation_date c)
                           (Sql.coalesce (date_published p) historicalDate))) with
      | Some false, Some f =>
          if Sql.le_null (creation_date c) (getConsistentDateForDB historicalDate)
          then option_map (fun v => (v / 5) * f)%Q (hcv_of db historicalDate p)
          else Some 0%Q
      | _, _ => Some 0%Q
      end
  | None => Some 0%Q
  end.

(** The [decayed_citations] of a publication that gets a row in
    [historical_citation_scores]. *)
Definition historical_decayed_citations (db : DB) (historicalDate : Date)
           (p : Publication) : option Q :=
  Sql.sum (map (historical_citation_case db historicalDate p)
               (left_join_citations db p)).

(** [calculateHistoricalCitationScores]: the rows of the temporary table
    [historical_citation_scores], chunk after chunk. *)
Definition calculateHistoricalCitationScores (db : DB) (historicalDate : Date)
           (publications : list (Z * Date)) : list (Z * option Q) :=
  flat_map (fun chunk =>
              let pubIds := map fst chunk in
              flat_map (fun p =>
                          if Sql.le_null (date_published p)
                                         (getConsistentDateForDB historicalDate)
                             && mem (pub_id p) pubIds
                          then [(pub_id p, historical_decayed_citations db historicalDate p)]
                          else [])
                       (Publications db))
           (chunks CHUNK_SIZE publications).

(** The value the [SELECT] of [calculateHistoricalOverallScores] computes
    for a publication, given the citation-score table. *)
Definition historical_overall_score (db : DB) (historicalDate : Date)
           (hcs : list (Z * option Q)) (p : Publication) : option Q :=
  match historical_base_score db historicalDate p,
        decay db (days_between historicalDate
                    (Sql.coalesce (date_published p) historicalDate)) with
  | Some base, Some dl_p =>
      Some (base * dl_p
            + match find (fun r => pub_id p =? fst r) hcs with
              | Some (_, Some decayed_citations) => decayed_citations
              | _ => 0
              end)%Q
  | _, _ => None
  end.

Definition calculateHistoricalOverallScores (db : DB) (historicalDate : Date)
           (hcs : list (Z * option Q)) (publications : list (Z * Date))
  : list (Z * option Q) :=
  flat_map (fun chunk =>
              let pubIds := map fst chunk in
              flat_map (fun p =>
                          if Sql.le_null (date_published p) historicalDate
                             && mem (pub_id p) pubIds
                          then [(pub_id p, historical_overall_score db historicalDate hcs p)]
                          else [])
                       (Publications db))
           (chunks CHUNK_SIZE publications).

(** The rows the first transaction of [createHistoricalSnapshots] selects
    for [PublicationSnapshot]. *)
Definition historical_publication_rows (db : DB) (historicalDate : Date)
           (publications : list (Z * Date)) : list ((Z * Date) * option Q) :=
  let consistentDate := getConsistentDateForDB historicalDate in
  let hcs := calculateHistoricalCitationScores db historicalDate publications in
  let hos := calculateHistoricalOverallScores db historicalDate hcs publications in
  map (fun r => ((fst r, consistentDate), snd r))
      (filter (fun r => mem (fst r) (map fst publications)) hos).

(** ** Snapshots shared by the current and the historical path *)

(** [MAX(snapshot_date) ... WHERE snapshot_date <= bound]. *)
Definition latest_snapshot_date (db : DB) (bound : Date) : option Date :=
  Sql.max (filter (fun d => d <=? bound)
                  (map (fun r => snd (fst r)) (PublicationSnapshots db))).

(** The value of the snapshot of a publication at a date (the pair is a
    unique key of [PublicationSnapshot]). *)
Definition snapshot_value (db : DB) (pid : Z) (d : Date) : option Q :=
  Sql.lookup key2_eqb (pid, d) (PublicationSnapshots db).

Definition topics_of (db : DB) (p : Publication) : list Z :=
  map pt_topic_id
      (filter (fun pt => pub_id p =? pt_publication_id pt) (PublicationTopics db)).

(** ** Topic snapshots *)

Definition RECENT_YEARS : Z := 2.
Definition RECENT_BONUS : Q := 1.5.
Definition HIGH_SCORE_THRESHOLD : Q := 5.0.
Definition HIGH_SCORE_BONUS : Q := 2.

Record WeightedPublication := mkWeighted {
  wp_topic_id : Z;
  wp_score : Q;
  wp_recency_weight : Q;
  wp_quality_weight : Q }.

(** [p.date_published >= (ref - INTERVAL '2 years')]; NULL is not recent. *)
Definition is_recent (p : Publication) (ref : Date) : bool :=
  match date_published p with
  | Some d => minus_years ref RECENT_YEARS <=? d
  | None => false
  end.

Definition topic_recency_weight (p : Publication) (ref : Date) : Q :=
  if is_recent p ref then RECENT_BONUS else 0.2.

Definition topic_quality_weight (score : Q) : Q :=
  if Qle_bool HIGH_SCORE_THRESHOLD score then HIGH_SCORE_BONUS else 0.5.

(** [weighted_publications] of [calculateSimpleTopicAverages]. *)
Definition weighted_publications (db : DB) (consistentDate pubSnapshotDate : Date)
  : list WeightedPublication :=
  flat_map (fun p =>
              match snapshot_value db (pub_id p) pubSnapshotDate with
              | Some score =>
                  map (fun t => mkWeighted t score
                                  (topic_recency_weight p consistentDate)
                                  (topic_quality_weight score))
                      (topics_of db p)
              | None => []
              end) (Publications db).

(** [historical_weighted_publications] of
    [calculateEnhancedHistoricalTopicAverages]. *)
Definition historical_weighted_publications (db : DB)
           (historicalDate pubSnapshotDate : Date) : list WeightedPublication :=
  flat_map (fun p =>
              match snapshot_value db (pub_id p) pubSnapshotDate with
              | Some score =>
                  if Sql.le_null (date_published p) historicalDate
                  then map (fun t => mkWeighted t score
                                       (topic_recency_weight p historicalDate)
                                       (topic_quality_weight score))
                           (topics_of db p)
                  else []
              | None => []
              end) (Publications db).

Definition volume_bonus (pub_count : Z) : Q :=
  if 100 <? pub_count then 1.5
  else if 50 <? pub_count then 1.3
  else if 10 <? pub_count then 1.1
  else 1.0.

Definition in_topic (t : Z) (wp : WeightedPublication) : bool := wp_topic_id wp =? t.

(** [SUM(score * recency * quality) / SUM(recency * quality)]; a zero
    divisor makes the statement fail in either path (a division error in
    the current one, a NULL stored in a NOT NULL column in the historical
    one). *)
Definition weighted_average (rows : list WeightedPublication) : option Q :=
  option_map
    (fun den =>
       Sql.sumQ (map (fun wp => wp_score wp * wp_recency_weight wp
                                * wp_quality_weight wp)%Q rows) / den)%Q
    (Sql.nullif0
       (Sql.sumQ (map (fun wp => wp_recency_weight wp * wp_quality_weight wp)%Q rows))).

(** The rows selected for [TopicSnapshot]: one per topic that occurs in
    the weighted publications. *)
Definition topic_rows (wps : list WeightedPublication) (consistentDate : Date)
  : list ((Z * Date) * option Q) :=
  map (fun t =>
         let rows := filter (in_topic t) wps in
         ((t, consistentDate),
          option_map (fun wa => wa * volume_bonus (Z.of_nat (List.length rows)))%Q
                     (weighted_average rows)))
      (nodup Z.eq_dec (map wp_topic_id wps)).

Definition calculateSimpleTopicAverages (snapshotDate : Date) (db : DB) : option DB :=
  let consistentDate := getConsistentDateForDB snapshotDate in
  match latest_snapshot_date db consistentDate with
  | None => Some db
  | Some pubSnapshotDate =>
      option_map (set_TopicSnapshots db)
        (Sql.insert_on_conflict_update key2_eqb
           (topic_rows (weighted_publications db consistentDate pubSnapshotDate)
                       consistentDate)
           (TopicSnapshots db))
  end.

Definition calculateEnhancedHistoricalTopicAverages (historicalDate : Date) (db : DB)
  : option DB :=
  let consistentDate := getConsistentDateForDB historicalDate in
  match latest_snapshot_date db consistentDate with
  | None => Some db
  | Some pubSnapshotDate =>
      option_map (set_TopicSnapshots db)
        (Sql.insert_on_conflict_update key2_eqb
           (topic_rows (historical_weighted_publications db historicalDate pubSnapshotDate)
                       consistentDate)
           (TopicSnapshots db))
  end.

(** ** Researcher snapshots *)

Definition MATURITY_MONTHS : Z := 24.
Definition PEAK_YEARS : Q := 3.
Definition DECAY_HALF_LIFE : Q := 5.
Definition MIN_WEIGHT : Q := 0.2.
Definition OLD_PAPER_MIN_WEIGHT : Q := 0.1.
Definition CITATION_BOOST_FACTOR : Q := 0.3.
Definition EXPECTED_CITATIONS_PER_YEAR : Q := 2.

Section WithPower.

(** PostgreSQL's [POWER(base, exponent)] on [double precision]. *)
Variable POWER : Q -> Q -> Q.

(** Whether the data store answers the check made before each
    historical date ([checkDatabaseHealth]). *)
Variable checkDatabaseHealth : Date -> bool.

Definition base_weight (age_months : Z) (age_years : Q) : Q :=
  if age_months <=? MATURITY_MONTHS
  then MIN_WEIGHT + (1.0 - MIN_WEIGHT) * (inject_Z age_months / inject_Z MATURITY_MONTHS)
  else if Qle_bool age_years PEAK_YEARS
  then 1.0
  else Qmax OLD_PAPER_MIN_WEIGHT
            (POWER 0.5 ((age_years - PEAK_YEARS) / DECAY_HALF_LIFE)).

Definition citation_performance (age_months : Z) (age_years : Q)
           (citation_count : Z) : Q :=
  if age_months =? 0 then 0
  else Qmin 1.0 (inject_Z citation_count / (age_years * EXPECTED_CITATIONS_PER_YEAR)).

Definition final_weight (age_months : Z) (age_years : Q) (citation_count : Z) : Q :=
  Qmin 1.0 (base_weight age_months age_years
            + CITATION_BOOST_FACTOR
              * citation_performance age_months age_years citation_count
              * base_weight age_months age_years).

Record SmartWeighted := mkSmart {
  sw_publication : Publication;
  sw_original_value : Q;
  sw_weight : Q }.

(** [COUNT(c.id) FILTER (WHERE c.author_sc = false)] over the citations
    joined with [c.creation_date <= snapshotDate]. *)
Definition smart_citation_count (db : DB) (snapshotDate : Date) (p : Publication) : Z :=
  Z.of_nat (List.length
    (filter (fun c =>
               (cit_publication_id c =? pub_id p)
               && Sql.le_null (creation_date c) snapshotDate
               && match author_sc c with Some false => true | _ => false end)
            (Citations db))).

(** [calculateSmartWeightedAverages] with the score taken from
    [PublicationSnapshot], the only source a caller selects;
    [publicationIds] is the optional filter. *)
Definition calculateSmartWeightedAverages (db : DB) (snapshotDate : Date)
           (publicationIds : option (list Z)) : list SmartWeighted :=
  flat_map (fun p =>
              match snapshot_value db (pub_id p) snapshotDate, date_published p with
              | Some score, Some published =>
                  if (published <=? snapshotDate)
                     && match publicationIds with
                        | Some (_ :: _ as ids) => mem (pub_id p) ids
                        | _ => true
                        end
                  then
                    let age_months := age_in_months snapshotDate published in
                    let age_years := (inject_Z age_months / 12)%Q in
                    [mkSmart p score
                             (final_weight age_months age_years
                                (smart_citation_count db snapshotDate p))]
                  else []
              | _, _ => []
              end) (Publications db).

(** [SUM(original_value * weight) / NULLIF(SUM(weight), 0)]. *)
Definition smart_mean (rows : list SmartWeighted) : option Q :=
  option_map
    (fun den => Sql.sumQ (map (fun r => sw_original_value r * sw_weight r)%Q rows) / den)%Q
    (Sql.nullif0 (Sql.sumQ (map sw_weight rows))).

(** [smart_weighted_publications swp JOIN PublicationUser JOIN
    PublicationTopic], one element per joined row of the group. *)
Definition user_topic_group (db : DB) (swp : list SmartWeighted) (uid tid : Z)
  : list SmartWeighted :=
  flat_map (fun r =>
              flat_map (fun _ => map (fun _ => r)
                                     (filter (Z.eqb tid) (topics_of db (sw_publication r))))
                       (filter (Z.eqb uid) (authors_of db (sw_publication r))))
           swp.

Definition user_group (db : DB) (swp : list SmartWeighted) (uid : Z)
  : list SmartWeighted :=
  flat_map (fun r => map (fun _ => r)
                         (filter (Z.eqb uid) (authors_of db (sw_publication r))))
           swp.

Definition user_topic_keys (db : DB) (swp : list SmartWeighted) : list (Z * Z) :=
  nodup ZZ_eq_dec
    (flat_map (fun r =>
                 flat_map (fun uid => map (fun tid => (uid, tid))
                                          (topics_of db (sw_publication r)))
                          (authors_of db (sw_publication r)))
              swp).

Definition user_keys (db : DB) (swp : list SmartWeighted) : list Z :=
  nodup Z.eq_dec (flat_map (fun r => authors_of db (sw_publication r)) swp).

Definition user_topic_rows (db : DB) (swp : list SmartWeighted) (consistentDate : Date)
  : list ((Z * Z * Date) * option Q) :=
  map (fun k => ((fst k, snd k, consistentDate),
                 smart_mean (user_topic_group db swp (fst k) (snd k))))
      (user_topic_keys db swp).

Definition user_overall_rows (db : DB) (swp : list SmartWeighted) (consistentDate : Date)
  : list ((Z * Date) * option Q) :=
  map (fun uid => ((uid, consistentDate), smart_mean (user_group db swp uid)))
      (user_keys db swp).

Definition processUserSnapshots (snapshotDate : Date) (db : DB) : option DB :=
  let consistentDate := getConsistentDateForDB snapshotDate in
  match latest_snapshot_date db consistentDate with
  | None => Some db
  | Some pubSnapshotDate =>
      let swp := calculateSmartWeightedAverages db pubSnapshotDate None in
      match Sql.insert_on_conflict_update key3_eqb
              (user_topic_rows db swp consistentDate) (UserTopicSnapshots db) with
      | Some uts =>
          option_map
            (set_UserOverallSnapshots (set_UserTopicSnapshots db uts))
            (Sql.insert_on_conflict_update key2_eqb
               (user_overall_rows db swp consistentDate) (UserOverallSnapshots db))
      | None => None
      end
  end.

(** The historical researcher rollup weighs with two discrete factors
    instead of the smooth curve. *)
Definition HISTORICAL_USER_HIGH_SCORE_BONUS : Q := 1.3.

Definition historical_user_recency_weight (p : Publication) (historicalDate : Date) : Q :=
  if is_recent p historicalDate then RECENT_BONUS else 1.0.

Definition historical_user_quality_weight (score : Q) : Q :=
  if Qle_bool HIGH_SCORE_THRESHOLD score then HISTORICAL_USER_HIGH_SCORE_BONUS else 1.0.

Definition historical_user_weight (p : Publication) (historicalDate : Date) (score : Q) : Q :=
  (historical_user_recency_weight p historicalDate
   * historical_user_quality_weight score)%Q.

Record HistoricalUserWeighted := mkHistUser {
  huw_user_id : Z;
  huw_topic_id : Z;
  huw_score : Q;
  huw_recency_weight : Q;
  huw_quality_weight : Q }.

(** The temporary table [historical_user_weighted_publications]. *)
Definition historical_user_weighted_publications (db : DB)
           (historicalDate pubSnapshotDate : Date) : list HistoricalUserWeighted :=
  flat_map (fun p =>
              match snapshot_value db (pub_id p) pubSnapshotDate with
              | Some score =>
                  if Sql.le_null (date_published p) historicalDate
                  then flat_map
                         (fun uid =>
                            map (fun tid =>
                                   mkHistUser uid tid score
                                     (historical_user_recency_weight p historicalDate)
                                     (historical_user_quality_weight score))
                                (topics_of db p))
                         (authors_of db p)
                  else []
              | None => []
              end) (Publications db).

Definition historical_user_mean (rows : list HistoricalUserWeighted) : option Q :=
  option_map
    (fun den =>
       Sql.sumQ (map (fun r => huw_score r * huw_recency_weight r
                               * huw_quality_weight r)%Q rows) / den)%Q
    (Sql.nullif0
       (Sql.sumQ (map (fun r => huw_recency_weight r * huw_quality_weight r)%Q rows))).

(** [... WHERE weighted_average IS NOT NULL]. *)
Definition not_null_rows {K} (rows : list (K * option Q)) : list (K * option Q) :=
  filter (fun r => match snd r with Some _ => true | None => false end) rows.

Definition historical_user_topic_rows (huwp : list HistoricalUserWeighted)
           (consistentDate : Date) : list ((Z * Z * Date) * option Q) :=
  not_null_rows
    (map (fun k =>
            ((fst k, snd k, consistentDate),
             historical_user_mean
               (filter (fun r => (huw_user_id r =? fst k) && (huw_topic_id r =? snd k))
                       huwp)))
         (nodup ZZ_eq_dec (map (fun r => (huw_user_id r, huw_topic_id r)) huwp))).

Definition historical_user_overall_rows (huwp : list HistoricalUserWeighted)
           (consistentDate : Date) : list ((Z * Date) * option Q) :=
  not_null_rows
    (map (fun uid =>
            ((uid, consistentDate),
             historical_user_mean (filter (fun r => huw_user_id r =? uid) huwp)))
         (nodup Z.eq_dec (map huw_user_id huwp))).

Definition processHistoricalUserSnapshots (historicalDate : Date) (db : DB) : option DB :=
  let consistentDate := getConsistentDateForDB historicalDate in
  match latest_snapshot_date db consistentDate with
  | None => Some db
  | Some pubSnapshotDate =>
      let huwp := historical_user_weighted_publications db historicalDate pubSnapshotDate in
      match Sql.insert_on_conflict_update key3_eqb
              (historical_user_topic_rows huwp consistentDate)
              (UserTopicSnapshots db) with
      | Some uts =>
          option_map
            (set_UserOverallSnapshots (set_UserTopicSnapshots db uts))
            (Sql.insert_on_conflict_update key2_eqb
               (historical_user_overall_rows huwp consistentDate)
               (UserOverallSnapshots db))
      | None => None
      end
  end.

(** ** The snapshot of the current date *)

(** [processCitationScores]: the [decayed_citations] of a publication
    published by [snapshotDate]. *)
Definition processCitationScores (db : DB) (snapshotDate : Date) (p : Publication)
  : option Q :=
  Sql.sum (map (citation_case db
                  (match event_of db (conference p) with
                   | Some e => conference_value e
                   | None => None
                   end)
                  snapshotDate
                  (Sql.coalesce (date_published p) snapshotDate))
               (left_join_citations db p)).

(** The [overall_score] column of the table built by
    [processPublicationSnapshots]. *)
Definition snapshot_overall_score (db : DB) (snapshotDate : Date) (p : Publication)
  : option Q :=
  match decay db (days_between snapshotDate
                    (Sql.coalesce (date_published p) snapshotDate)) with
  | Some dl_p =>
      Some (Sql.clamp_1_5 (Sql.coalesce (review_score p) 1)
            * Sql.coalesce (match event_of db (conference p) with
                            | Some e => conference_value e
                            | None => None
                            end) 1
            * dl_p
            + Sql.coalesce (processCitationScores db snapshotDate p) 0)%Q
  | None => None
  end.

Definition publication_rows (db : DB) (snapshotDate : Date)
  : list ((Z * Date) * option Q) :=
  flat_map (fun p =>
              if Sql.le_null (date_published p) snapshotDate
              then [((pub_id p, getConsistentDateForDB snapshotDate),
                     snapshot_overall_score db snapshotDate p)]
              else [])
           (Publications db).

Definition processPublicationSnapshots (snapshotDate : Date) (db : DB) : option DB :=
  option_map (set_PublicationSnapshots db)
    (Sql.insert_on_conflict_update key2_eqb
       (publication_rows db snapshotDate) (PublicationSnapshots db)).

(** Three transactions in sequence.  The result pairs the store, with
    what the committed transactions wrote, and whether the call returned
    normally ([true]) or threw ([false]). *)
Definition run_transactions (txs : list (DB -> option DB)) (db : DB) : DB * bool :=
  fold_left (fun (acc : DB * bool) (tx : DB -> option DB) =>
               if snd acc
               then match tx (fst acc) with
                    | Some db' => (db', true)
                    | None => (fst acc, false)
                    end
               else acc)
            txs (db, true).

Definition createSnapshots (currentDate : Date) (db : DB) : DB * bool :=
  let normalizedDate := setUTCHours0 currentDate in
  run_transactions
    [ processPublicationSnapshots normalizedDate;
      calculateSimpleTopicAverages normalizedDate;
      processUserSnapshots normalizedDate ] db.

(** ** Historical snapshots *)

Definition historical_publication_tx (historicalDate : Date)
           (publications : list (Z * Date)) (db : DB) : option DB :=
  option_map (set_PublicationSnapshots db)
    (Sql.insert_on_conflict_update key2_eqb
       (historical_publication_rows db historicalDate publications)
       (PublicationSnapshots db)).

Definition MAX_RETRIES : nat := 3.

Fixpoint retry_loop (attempts : nat) (body : DB -> DB * bool) (db : DB) : DB * bool :=
  match attempts with
  | O => (db, false)
  | S attempts' =>
      let r := body db in
      if snd r then r else retry_loop attempts' body (fst r)
  end.

Definition createHistoricalSnapshots (historicalDate : Date)
           (publications : list (Z * Date)) (db : DB) : DB * bool :=
  retry_loop MAX_RETRIES
    (run_transactions
       [ historical_publication_tx historicalDate publications;
         calculateEnhancedHistoricalTopicAverages historicalDate;
         processHistoricalUserSnapshots historicalDate ]) db.

(** [getPublicationsNeedingHistory]. *)
Definition getPublicationsNeedingHistory (currentDate : Date) (db : DB)
  : list (Z * Date) :=
  let allPublications :=
    Sql.order_by (fun a b => snd a <=? snd b)
      (flat_map (fun p => match date_published p with
                          | Some d => [(pub_id p, d)]
                          | None => []
                          end) (Publications db)) in
  filter (fun pub =>
            negb (existsb (fun r => fst (fst r) =? fst pub) (PublicationSnapshots db))
            && (snd pub <? currentDate))
         allPublications.

(** One round of the loop over the snapshot dates.  [tracked] is
    [pubToSnapshotDates]: pairs of a publication and the day of a
    snapshot it is known to have. *)
Definition historical_step (publications : list (Z * Date))
           (state : DB * list (Z * Z)) (historicalDate : Date) : DB * list (Z * Z) :=
  let '(db, tracked) := state in
  let dateString := Day historicalDate in
  let pubsNeedingThisDate :=
    filter (fun pub =>
              (snd pub <=? historicalDate)
              && negb (existsb (fun t => (fst t =? fst pub) && (snd t =? dateString))
                               tracked))
           publications in
  match pubsNeedingThisDate with
  | [] => state
  | _ =>
      if checkDatabaseHealth historicalDate
      then
        let r := createHistoricalSnapshots historicalDate pubsNeedingThisDate db in
        if snd r
        then (fst r, tracked ++ map (fun pub => (fst pub, dateString)) pubsNeedingThisDate)
        else (fst r, tracked)
      else state
  end.

Definition processHistoricalSnapshots (publications : list (Z * Date))
           (endDate : Date) (snapshotFrequency : SnapshotFrequency) (db : DB) : DB :=
  let earliestDate :=
    fold_left (fun e pub => if snd pub <? e then snd pub else e) publications endDate in
  let snapshotDates := getDateSequence snapshotFrequency earliestDate endDate in
  let existing :=
    flat_map (fun r => if mem (fst (fst r)) (map fst publications)
                       then [(fst (fst r), Day (snd (fst r)))] else [])
             (PublicationSnapshots db) in
  fst (fold_left (historical_step publications) snapshotDates (db, existing)).

Definition smartSnapshotGenerator (currentDate : Date) (includeCurrentSnapshot : bool)
           (snapshotFrequency : SnapshotFrequency) (db : DB) : DB * bool :=
  let normalizedDate := normalizeToMidnightUTC currentDate in
  let publicationsNeedingHistory := getPublicationsNeedingHistory normalizedDate db in
  let db1 :=
    match publicationsNeedingHistory with
    | [] => db
    | _ => processHistoricalSnapshots publicationsNeedingHistory normalizedDate
             snapshotFrequency db
    end in
  if includeCurrentSnapshot then createSnapshots normalizedDate db1 else (db1, true).

End WithPower.

End SnapshotGeneration.

(* ================================================================== *)
(** * [PointSystemInitializationJob]: storing a publication and its citations *)
(* ================================================================== *)

Module PointSystemInitializationJob.
Import DateUtils Schema.

(** A record of the OpenCitations answer ([OCitRecord]). *)
Record OCitRecord := mkOCit {
  oc_oci : string;
  oc_creation : option Date;
  oc_author_sc : string }.

(** A row of the query that lists the publications to insert
    ([PublicationRow]). *)
Record PublicationRow := mkRow {
  row_submission_id : Z;
  row_doi : option string;
  row_conference : option Z;
  row_review_score : option Q;
  row_date_published : option Date }.

(** [raw.filter((r) => r.author_sc !== 'yes')]. *)
Definition not_self (r : OCitRecord) : bool := negb (String.eqb (oc_author_sc r) "yes"%string).

(** The citation records kept for an entry: none without a DOI or when
    the fetch failed ([fetched = None]). *)
Definition citationRecords (entry : PublicationRow) (fetched : option (list OCitRecord))
  : list OCitRecord :=
  match row_doi entry, fetched with
  | Some _, Some raw => filter not_self raw
  | _, _ => []
  end.

(** [createMany({ skipDuplicates: true })] on the unique [oci]. *)
Fixpoint createMany (rows : list Citation) (table : list Citation) : list Citation :=
  match rows with
  | [] => table
  | r :: rows' =>
      createMany rows'
        (if existsb (fun c => String.eqb (oci c) (oci r)) table
         then table else table ++ [r])
  end.

(** The transaction of one entry.  [newId] is the id the database gives
    the inserted row; nothing happens when the submission is already
    present ([ON CONFLICT (submission_id) DO NOTHING]).  The bridging rows
    for authors and topics are written by helpers that are not modelled. *)
Definition insertEntry (entry : PublicationRow) (fetched : option (list OCitRecord))
           (newId : Z) (db : DB) : DB :=
  let records := citationRecords entry fetched in
  let citationCount := Z.of_nat (List.length records) in
  if existsb (fun p => submission_id p =? row_submission_id entry) (Publications db)
  then db
  else
    let db1 :=
      set_Publications db
        (Publications db ++
           [mkPublication newId (row_submission_id entry) (row_doi entry)
                          (row_conference entry) (row_review_score entry)
                          (Some 0%Q) (Some citationCount)
                          (row_date_published entry)]) in
    set_Citations db1
      (createMany
         (map (fun rec => mkCitation newId (oc_oci rec) (oc_creation rec)
                                     (Some (String.eqb (oc_author_sc rec) "yes"%string)))
              records)
         (Citations db1)).

End PointSystemInitializationJob.

(* ================================================================== *)
(** * [seedDecayLookup]: the decay table *)
(* ================================================================== *)

(** The script computes with JavaScript numbers; here [Math.pow] is the real
    power function and the factors are real numbers. *)
Module SeedDecayLookup.

Definition HALF_LIFE : R := 365.242374%R.
Definition MAX_DAYS : Z := 10000.

(** [Array.from({ length: MAX_DAYS + 1 }, (_, days) => ...)]. *)
Definition entries : list (Z * R) :=
  map (fun days => (days, Rpower 0.5 (IZR days / HALF_LIFE)))
      (map Z.of_nat (seq 0 (Z.to_nat (MAX_DAYS + 1)))).

(** [createMany({ skipDuplicates: true })] on the primary key [days]. *)
Fixpoint createMany (rows table : list (Z * R)) : list (Z * R) :=
  match rows with
  | [] => table
  | r :: rows' =>
      createMany rows'
        (if existsb (fun e => fst e =? fst r) table then table else table ++ [r])
  end.

Definition seedDecayLookup (table : list (Z * R)) : list (Z * R) :=
  createMany entries table.

(** The factor the table holds for a number of days. *)
Definition decayFactor (table : list (Z * R)) (d : Z) : option R :=
  option_map snd (find (fun e => fst e =? d) table).

End SeedDecayLookup.

(* ================================================================== *)
(** * The specification's wording, and sample data *)
(* ================================================================== *)

From Stdlib Require Import Sorting.Sorted Sorting.Permutation.

Module Spec.
Import DateUtils Schema.

(** ** h-index *)

(** "Ranked by citation count descending": a rearrangement in which every
    entry comes before the ones that follow it. *)
Definition desc (a b : option Z) : Prop := Sql.desc_before a b = true.

Definition is_ranking (counts ranking : list (option Z)) : Prop :=
  Permutation counts ranking /\ StronglySorted desc ranking.

(** "The r-th ranked publication has citation count >= r". *)
Definition qualifies (ranking : list (option Z)) (r : Z) : Prop :=
  exists c, 1 <= r /\ nth_error ranking (Z.to_nat (r - 1)) = Some (Some c) /\ r <= c.

(** "The largest rank r such that ...". *)
Definition largest_qualifying_rank (ranking : list (option Z)) (r : Z) : Prop :=
  qualifies ranking r /\ forall r', qualifies ranking r' -> r' <= r.

(** ** Venue value *)

(** A venue "has qualifying publications" when one of its publications has
    an author row that joins a researcher. *)
Definition venue_has_authors (db : DB) (l : Z) : Prop :=
  exists p u,
    In p (Publications db) /\ conference p = Some l
    /\ In (user_id u) (authors_of db p) /\ In u (Users db).

(** ** Citation bonus and overall score *)

Definition citations_of (db : DB) (p : Publication) : list Citation :=
  filter (fun c => cit_publication_id c =? pub_id p) (Citations db).

(** "clamp(x, lo, hi)": [x] when it lies between the bounds, else the
    bound it lies beyond. *)
Definition clamp (x lo hi : Q) : Q :=
  if Qle_bool lo x then (if Qle_bool x hi then x else hi) else lo.

(** "max(citationDate, datePublished)": the later of the two instants; a
    citation without a date counts from the publication date. *)
Definition later_of (citationDate : option Date) (datePublished : Date) : Date :=
  match citationDate with
  | Some cited => if datePublished <? cited then cited else datePublished
  | None => datePublished
  end.

(** The decay factor of a citation that counts: it is not a self-citation
    and the days elapsed since the later of its creation and the
    publication date have a row in the decay table. *)
Definition counted_citation_factor (db : DB) (asof pubdate : Date) (c : Citation)
  : option Q :=
  match author_sc c with
  | Some false =>
      decay db (days_between asof (later_of (creation_date c) pubdate))
  | _ => None
  end.

(** "The sum, over its non-self citations with a matching decay-lookup
    row, of (venueValue / 5) * decayFactor(...)". *)
Definition citation_bonus (db : DB) (asof pubdate : Date) (venueValue : Q)
           (p : Publication) : Q :=
  Sql.sumQ
    (flat_map (fun c =>
                 match counted_citation_factor db asof pubdate c with
                 | Some f => [(venueValue / 5) * f]%Q
                 | None => []
                 end) (citations_of db p)).

(** "clamp(reviewScore, 1, 5) * venueValue * decayFactor + citation bonus";
    a missing review score counts as 1. *)
Definition overall_score_formula (db : DB) (asof pubdate : Date)
           (venueValue publicationAgeDecay : Q) (p : Publication) : Q :=
  (clamp (Sql.coalesce (review_score p) 1) 1 5 * venueValue * publicationAgeDecay
   + citation_bonus db asof pubdate venueValue p)%Q.

Definition with_overall_score (p : Publication) (s : Q) : Publication :=
  mkPublication (pub_id p) (submission_id p) (doi p) (conference p) (review_score p)
                (Some s) (citation_count p) (date_published p).

(** ** Facts that exist by a date, and self-citations *)

(** The part of the store a reconstruction for [D] may depend on: the
    publications published by [D], their authorships, the citations
    created by [D] and the decay table. *)
Definition published_by (D : Date) (p : Publication) : bool :=
  Sql.le_null (date_published p) D.

Definition created_by (D : Date) (c : Citation) : bool :=
  Sql.le_null (creation_date c) D.

Definition authorship_by (D : Date) (db : DB) (pu : PublicationUser) : bool :=
  existsb (fun p => published_by D p && (pub_id p =? pu_publication_id pu))
          (Publications db).

(** The rows that exist by [D], as they are stored. *)
Definition rows_by (D : Date) (db : DB) : DB :=
  mkDB (filter (published_by D) (Publications db))
       (filter (created_by D) (Citations db))
       []
       []
       (filter (authorship_by D db) (PublicationUsers db))
       []
       (DecayLookup db)
       [] [] [] [].

(** What a publication row records about the publication itself: the
    cached [overall_score] and [citation_count], which every run of the
    jobs rewrites, are left out. *)
Definition publication_facts (p : Publication) : Publication :=
  mkPublication (pub_id p) (submission_id p) (doi p) (conference p) (review_score p)
                None None (date_published p).

Definition without_caches (db : DB) : DB :=
  set_Publications db (map publication_facts (Publications db)).

(** The facts that exist by [D]: two states of the store have the same
    facts by [D] whatever the scores and counts cached in them. *)
Definition facts_by (D : Date) (db : DB) : DB :=
  without_caches (rows_by D db).

Definition is_self_citation (c : Citation) : bool :=
  match author_sc c with Some true => true | _ => false end.

Definition without_self_citations (db : DB) : DB :=
  set_Citations db (filter (fun c => negb (is_self_citation c)) (Citations db)).

(** A fetched citation record that is a self-citation, and the number of
    external records of a fetched list: all of them less the
    self-citations. *)
Definition self_record (r : PointSystemInitializationJob.OCitRecord) : bool :=
  String.eqb (PointSystemInitializationJob.oc_author_sc r) "yes"%string.

Definition external_count (raw : list PointSystemInitializationJob.OCitRecord) : Z :=
  Z.of_nat (List.length raw) - Z.of_nat (List.length (filter self_record raw)).

(** ** Snapshot tables *)

(** The unique constraints of the four snapshot families. *)
Definition unique_keys (db : DB) : Prop :=
  NoDup (map fst (PublicationSnapshots db))
  /\ NoDup (map fst (TopicSnapshots db))
  /\ NoDup (map fst (UserTopicSnapshots db))
  /\ NoDup (map fst (UserOverallSnapshots db)).

(** Every snapshot row of [db'] is a row of [db] or carries the snapshot
    date [stored]: what was written in between was written under that
    date. *)
Definition written_with_date (stored : Date) (db db' : DB) : Prop :=
  (forall r, In r (PublicationSnapshots db') ->
             In r (PublicationSnapshots db) \/ snd (fst r) = stored)
  /\ (forall r, In r (TopicSnapshots db') ->
                In r (TopicSnapshots db) \/ snd (fst r) = stored)
  /\ (forall r, In r (UserTopicSnapshots db') ->
                In r (UserTopicSnapshots db) \/ snd (fst r) = stored)
  /\ (forall r, In r (UserOverallSnapshots db') ->
                In r (UserOverallSnapshots db) \/ snd (fst r) = stored).

(** The table holds exactly one row with the key, and the row has the
    selected value. *)
Definition holds_once {K} (eqb : K -> K -> bool) (k : K) (v : option Q)
           (t : list (K * Q)) : Prop :=
  exists q, v = Some q /\ filter (fun r => eqb k (fst r)) t = [(k, q)].

Definition monday_midnight (t : Date) : Prop :=
  getUTCDay t = 1 /\ TimeWithinDay t = 0.

End Spec.

(** The citation bonus of the historical reconstruction. *)
Module HistoricalSpec.
Import DateUtils Schema SnapshotGeneration.

(** The term of a citation that counts for [D]: not a self-citation,
    created by the stored snapshot date, with a decay row for its age. *)
Definition term (db : DB) (D : Date) (p : Publication) (venueValue : Q) (c : Citation)
  : option Q :=
  match author_sc c,
        decay db (days_between D (Sql.greatest (creation_date c)
                                    (Sql.coalesce (date_published p) D))) with
  | Some false, Some f =>
      if Sql.le_null (creation_date c) (getConsistentDateForDB D)
      then Some (venueValue / 5 * f)%Q
      else None
  | _, _ => None
  end.

Definition citation_bonus (db : DB) (D : Date) (p : Publication) : Q :=
  match hcv_of db D p with
  | Some v =>
      Sql.sumQ (flat_map (fun c => match term db D p v c with
                                   | Some t => [t]
                                   | None => []
                                   end) (Spec.citations_of db p))
  | None => 0%Q
  end.

(** The decayed citations a row of [historical_citation_scores]
    contributes to the overall score: NULL and a missing row count 0. *)
Definition hcs_value (hcs : list (Z * option Q)) (p : Publication) : Q :=
  match find (fun r => pub_id p =? fst r) hcs with
  | Some (_, Some decayed_citations) => decayed_citations
  | _ => 0%Q
  end.

(** Two citation-score tables with the same publications in the same
    order whose values agree once NULL is read as 0. *)
Definition same_scores (hcs' hcs : list (Z * option Q)) : Prop :=
  Forall2 (fun r' r => fst r' = fst r
                       /\ Sql.coalesce (snd r') 0%Q = Sql.coalesce (snd r) 0%Q)
          hcs' hcs.

End HistoricalSpec.

(** The topic rollup in the specification's words. *)
Module TopicSpec.
Import DateUtils Schema SnapshotGeneration.

(** "Publications within 2 years get x1.5, older get x0.2". *)
Definition recency_multiplier (within_two_years : bool) : Q :=
  if within_two_years then 1.5 else 0.2.

(** "Score >= 5.0 gets x2, else x0.5". *)
Definition quality_multiplier (score : Q) : Q :=
  if Qle_bool 5.0 score then 2 else 0.5.

(** ">100 -> x1.5, >50 -> x1.3, >10 -> x1.1, else x1.0". *)
Definition volume_multiplier (count : Z) : Q :=
  if count >? 100 then 1.5
  else if count >? 50 then 1.3
  else if count >? 10 then 1.1
  else 1.0.

(** The publications of a topic at a publication-snapshot date, each with
    its snapshot score; [existed] says which publications count as
    existing. *)
Definition topic_publications (db : DB) (pubSnapshotDate : Date)
           (existed : Publication -> bool) (t : Z) : list (Publication * Q) :=
  flat_map (fun p =>
              match snapshot_value db (pub_id p) pubSnapshotDate with
              | Some score =>
                  if existed p
                  then map (fun _ => (p, score))
                           (filter (fun t' => t' =? t) (topics_of db p))
                  else []
              | None => []
              end) (Publications db).

(** The instant two years before the reference date: the same month, day
    and time of day in the year two earlier, 29 February becoming
    28 February. *)
Definition two_years_before (ref : Date) : Date :=
  let day := if (getUTCMonth ref =? 1) && (getUTCDate ref =? 29)
             then 28 else getUTCDate ref in
  MakeDate (MakeDay (getUTCFullYear ref - 2) (getUTCMonth ref) day) (TimeWithinDay ref).

(** "Published within 2 years": not before that instant; a publication
    without a date is not. *)
Definition within_two_years (ref : Date) (p : Publication) : bool :=
  match date_published p with
  | Some published => two_years_before ref <=? published
  | None => false
  end.

Definition weight (ref : Date) (ps : Publication * Q) : Q :=
  (recency_multiplier (within_two_years ref (fst ps)) * quality_multiplier (snd ps))%Q.

(** "The weighted mean of its publications' snapshot scores ...
    multiplied by a volume bonus". *)
Definition topic_value (ref : Date) (pubs : list (Publication * Q)) : Q :=
  (Sql.sumQ (map (fun ps => snd ps * weight ref ps) pubs)
   / Sql.sumQ (map (weight ref) pubs)
   * volume_multiplier (Z.of_nat (List.length pubs)))%Q.

Definition positive_weights (wps : list WeightedPublication) : Prop :=
  forall wp, In wp wps -> (0 < wp_recency_weight wp * wp_quality_weight wp)%Q.

End TopicSpec.

(** The researcher weighting in the specification's words. *)
Module ResearcherSpec.
Import DateUtils Schema SnapshotGeneration.

Section Curve.
Variable POWER : Q -> Q -> Q.

(** "Linear ramp from floor 0.2 to 1.0 over the first 24 months". *)
Definition ramp_up (age_months : Z) : Q :=
  (0.2 + (1.0 - 0.2) * (inject_Z age_months / 24))%Q.

(** "Half-life-5-year decay" after three years, "floored". *)
Definition decayed (floor age_years : Q) : Q :=
  Qmax floor (POWER 0.5 ((age_years - 3) / 5))%Q.

Definition base (floor : Q) (age_months : Z) : Q :=
  if age_months <=? 24 then ramp_up age_months
  else if age_months <=? 36 then 1.0%Q
  else decayed floor (inject_Z age_months / 12)%Q.


End Curve.


End ResearcherSpec.

(** The rows a run of [createSnapshots] selects for each family, as a
    function of the store its transaction starts from. *)
Module Selected.
Import DateUtils Schema SnapshotGeneration.

Definition publication_rows (snapshotDate : Date) (db : DB)
  : list ((Z * Date) * option Q) :=
  SnapshotGeneration.publication_rows db snapshotDate.

Definition topic_rows (snapshotDate : Date) (db : DB) : list ((Z * Date) * option Q) :=
  let consistentDate := getConsistentDateForDB snapshotDate in
  match latest_snapshot_date db consistentDate with
  | None => []
  | Some pubSnapshotDate =>
      SnapshotGeneration.topic_rows
        (weighted_publications db consistentDate pubSnapshotDate) consistentDate
  end.

Definition user_topic_rows (POWER : Q -> Q -> Q) (snapshotDate : Date) (db : DB)
  : list ((Z * Z * Date) * option Q) :=
  let consistentDate := getConsistentDateForDB snapshotDate in
  match latest_snapshot_date db consistentDate with
  | None => []
  | Some pubSnapshotDate =>
      SnapshotGeneration.user_topic_rows db
        (calculateSmartWeightedAverages POWER db pubSnapshotDate None) consistentDate
  end.

Definition user_overall_rows (POWER : Q -> Q -> Q) (snapshotDate : Date) (db : DB)
  : list ((Z * Date) * option Q) :=
  let consistentDate := getConsistentDateForDB snapshotDate in
  match latest_snapshot_date db consistentDate with
  | None => []
  | Some pubSnapshotDate =>
      SnapshotGeneration.user_overall_rows db
        (calculateSmartWeightedAverages POWER db pubSnapshotDate None) consistentDate
  end.

End Selected.

Module Examples.
Import DateUtils Schema.

Definition ymd (y m d : Z) : Date := DateUTC y (m - 1) d.

(** One venue, two authors with h-indexes 2 and 4, one publication with
    review score 4.5 published at the reference time, with two external
    citations and one self-citation of the same instant; a third
    researcher whose only publication has no citation. *)
Definition now : Date := ymd 2025 5 18 + 55845123.

Definition scenario : DB :=
  mkDB
    [ mkPublication 1 501 (Some "10.4108/a"%string) (Some 7) (Some 4.5%Q)
                    (Some 0%Q) (Some 2) (Some now);
      mkPublication 2 502 None (Some 8) (Some 3%Q) (Some 0%Q) (Some 0)
                    (Some (ymd 2024 1 30)) ]
    [ mkCitation 1 "oci:1"%string (Some now) (Some false);
      mkCitation 1 "oci:2"%string (Some now) (Some false);
      mkCitation 1 "oci:3"%string (Some now) (Some true) ]
    [ mkUser 1 (Some 2); mkUser 2 (Some 4); mkUser 3 (Some 9) ]
    [ mkEvent (Some 7) (Some 0%Q); mkEvent (Some 8) (Some 0%Q);
      mkEvent (Some 9) (Some 42%Q) ]
    [ mkPublicationUser 1 1; mkPublicationUser 1 2; mkPublicationUser 2 3 ]
    [ mkPublicationTopic 1 5; mkPublicationTopic 2 5; mkPublicationTopic 2 6 ]
    [ mkDecayRow 0 1%Q; mkDecayRow 1 (998 # 1000) ]
    [] [] [] [].

(** A researcher with five publications cited 10, 8, 5, 4 and 3 times. *)
Definition five_papers : DB :=
  mkDB
    (map (fun ic => mkPublication (fst ic) (fst ic) None None None None
                                  (Some (snd ic)) None)
         [(1, 5); (2, 10); (3, 3); (4, 8); (5, 4)])
    [] [ mkUser 1 (Some 0) ] []
    (map (fun i => mkPublicationUser i 1) [1; 2; 3; 4; 5])
    [] [] [] [] [] [].

(** Two publications of early 2024 with citations in February, and a
    decay table that covers the first 600 days. *)
Definition backfill : DB :=
  mkDB
    [ mkPublication 1 501 (Some "10.4108/a"%string) (Some 7) (Some 4.5%Q)
                    (Some 0%Q) (Some 2) (Some (ymd 2024 1 30));
      mkPublication 2 502 None (Some 7) (Some 3%Q) (Some 0%Q) (Some 0)
                    (Some (ymd 2024 2 10)) ]
    [ mkCitation 1 "oci:1"%string (Some (ymd 2024 2 3)) (Some false);
      mkCitation 1 "oci:2"%string (Some (ymd 2024 2 20)) (Some false);
      mkCitation 1 "oci:3"%string (Some (ymd 2024 2 1)) (Some true) ]
    [ mkUser 1 (Some 1); mkUser 2 (Some 1) ]
    [ mkEvent (Some 7) (Some 1%Q) ]
    [ mkPublicationUser 1 1; mkPublicationUser 1 2; mkPublicationUser 2 1 ]
    [ mkPublicationTopic 1 5; mkPublicationTopic 2 5; mkPublicationTopic 2 6 ]
    (map (fun n => mkDecayRow (Z.of_nat n) (1000 # Pos.of_nat (1000 + n))) (seq 0 600))
    [] [] [] [].

(** A researcher with a publication of January 2021 and one of January
    2024, both in one topic, with publication snapshots of 2024-02-01. *)
Definition rollup : DB :=
  mkDB
    [ mkPublication 1 501 None (Some 7) (Some 2%Q) (Some 2%Q) (Some 0)
                    (Some (ymd 2021 1 15));
      mkPublication 2 502 None (Some 7) (Some 5%Q) (Some 10%Q) (Some 0)
                    (Some (ymd 2024 1 30)) ]
    []
    [ mkUser 1 (Some 0) ]
    [ mkEvent (Some 7) (Some 1%Q) ]
    [ mkPublicationUser 1 1; mkPublicationUser 2 1 ]
    [ mkPublicationTopic 1 5; mkPublicationTopic 2 5 ]
    []
    [ ((1, ymd 2024 2 1), 2%Q); ((2, ymd 2024 2 1), 10%Q) ]
    [] [] [].

(** Stands in for [POWER] on data where no publication is older than
    three years, so that the decay branch is never taken. *)
Definition no_power (_ _ : Q) : Q := 0%Q.

Definition march : Date := ymd 2024 3 1 + 5000.

Definition after_first_run : DB :=
  fst (SnapshotGeneration.createSnapshots no_power march backfill).

Definition after_second_run : DB :=
  fst (SnapshotGeneration.createSnapshots no_power march after_first_run).

(** [backfill] a month later: a publication and two citations of March
    have arrived. *)
Definition backfill_later : DB :=
  mkDB
    (Publications backfill ++
       [ mkPublication 3 503 None (Some 7) (Some 5%Q) (Some 0%Q) (Some 0)
                       (Some (ymd 2024 3 5)) ])
    (Citations backfill ++
       [ mkCitation 1 "oci:4"%string (Some (ymd 2024 3 2)) (Some false);
         mkCitation 2 "oci:5"%string (Some (ymd 2024 3 9)) (Some false) ])
    (Users backfill) (Events backfill)
    (PublicationUsers backfill ++ [ mkPublicationUser 3 2 ])
    (PublicationTopics backfill) (DecayLookup backfill)
    [] [] [] [].

(** A venue of value 10 on 2024-02-29.  Its first publication, thirty days
    old, has a review score of 7.5, above the range, and is cited once ten
    days before it was published, once twenty days after and once by one
    of its authors; its second, nineteen days old, has a review score of
    0.4, below the range.  The decay table loses a hundredth a day. *)
Definition leap_day : Date := ymd 2024 2 29.

Definition out_of_range : DB :=
  mkDB
    [ mkPublication 1 501 (Some "10.4108/a"%string) (Some 7) (Some 7.5%Q)
                    (Some 0%Q) (Some 2) (Some (ymd 2024 1 30));
      mkPublication 2 502 None (Some 7) (Some 0.4%Q) (Some 0%Q) (Some 0)
                    (Some (ymd 2024 2 10)) ]
    [ mkCitation 1 "oci:1"%string (Some (ymd 2024 1 20)) (Some false);
      mkCitation 1 "oci:2"%string (Some (ymd 2024 2 19)) (Some false);
      mkCitation 1 "oci:3"%string (Some (ymd 2024 2 1)) (Some true) ]
    [ mkUser 1 (Some 1) ]
    [ mkEvent (Some 7) (Some 10%Q) ]
    [ mkPublicationUser 1 1; mkPublicationUser 2 1 ]
    []
    (map (fun n => mkDecayRow (Z.of_nat n) ((100 - Z.of_nat n) # 100)) (seq 0 60))
    [] [] [] [].

(** The three calculators in the order of a recalculation. *)
Definition recalculated (now : Date) (db : DB) : DB :=
  PointSystemCalculations.calculateCitationScoresAndDecay now
    (PointSystemCalculations.calculateConferenceValue
       (PointSystemCalculations.calculateUserHIndex db)).

(** The store of [backfill] after the recalculation of 2024-02-27, and
    the store a fortnight later: a publication and two citations of March
    have arrived, the citation count of the first publication has been
    brought up to date and the scores have been recalculated. *)
Definition state_of_february : DB := recalculated (ymd 2024 2 27 + 3600000) backfill.

Definition state_of_march : DB :=
  recalculated (ymd 2024 3 12 + 3600000)
    (set_Publications backfill_later
       (map (fun p => if pub_id p =? 1
                      then mkPublication (pub_id p) (submission_id p) (doi p)
                                         (conference p) (review_score p)
                                         (overall_score p) (Some 3) (date_published p)
                      else p)
            (Publications backfill_later))).

(** A new submission whose DOI has five citation records, two of them
    self-citations. *)
Definition new_entry : PointSystemInitializationJob.PublicationRow :=
  PointSystemInitializationJob.mkRow 503 (Some "10.4108/c"%string) (Some 7) (Some 4%Q)
    (Some (ymd 2024 3 5)).

Definition five_records : list PointSystemInitializationJob.OCitRecord :=
  [ PointSystemInitializationJob.mkOCit "oci:11"%string (Some (ymd 2024 3 6)) "no"%string;
    PointSystemInitializationJob.mkOCit "oci:12"%string (Some (ymd 2024 3 7)) "yes"%string;
    PointSystemInitializationJob.mkOCit "oci:13"%string None "no"%string;
    PointSystemInitializationJob.mkOCit "oci:14"%string (Some (ymd 2024 3 9)) "yes"%string;
    PointSystemInitializationJob.mkOCit "oci:15"%string (Some (ymd 2024 4 1)) "no"%string ].

End Examples.


(* ================================================================== *)
(** * Notions used to state further properties *)
(* ================================================================== *)

Module Calendar.
Import DateUtils.

(** Midnight UTC of the first day of the month that lies [k] months after
    the month of [t]. *)
Definition first_of_month_after (t : Date) (k : Z) : Date :=
  MakeDate (MakeDay (getUTCFullYear t) (getUTCMonth t + k) 1) 0.

Definition first_of_month_midnight (t : Date) : Prop :=
  getUTCDate t = 1 /\ TimeWithinDay t = 0.

End Calendar.

(** What the snapshot generator keeps. *)
Module Invariants.
Import Schema.

(** The tables the snapshot generator only reads. *)
Definition same_base_tables (a b : DB) : Prop :=
  Publications b = Publications a
  /\ Citations b = Citations a
  /\ Users b = Users a
  /\ Events b = Events a
  /\ PublicationUsers b = PublicationUsers a
  /\ PublicationTopics b = PublicationTopics a
  /\ DecayLookup b = DecayLookup a.

(** Every key of a snapshot table of [a] is a key of the same table of
    [b]. *)
Definition keeps_snapshot_keys (a b : DB) : Prop :=
  incl (map fst (PublicationSnapshots a)) (map fst (PublicationSnapshots b))
  /\ incl (map fst (TopicSnapshots a)) (map fst (TopicSnapshots b))
  /\ incl (map fst (UserTopicSnapshots a)) (map fst (UserTopicSnapshots b))
  /\ incl (map fst (UserOverallSnapshots a)) (map fst (UserOverallSnapshots b)).

(** A publication row that differs from [p] in its overall score at
    most. *)
Definition same_but_score (p p' : Publication) : Prop :=
  pub_id p' = pub_id p
  /\ submission_id p' = submission_id p
  /\ doi p' = doi p
  /\ conference p' = conference p
  /\ review_score p' = review_score p
  /\ citation_count p' = citation_count p
  /\ date_published p' = date_published p.

(** What every transaction of the snapshot generator keeps. *)
Definition kept (a b : DB) : Prop :=
  same_base_tables a b /\ keeps_snapshot_keys a b
  /\ (Spec.unique_keys a -> Spec.unique_keys b).

End Invariants.

(* ================================================================== *)
(** * [dbOperations]: truncation and the recalculation pipeline *)
(* ================================================================== *)

Module DbOperations.
Import DateUtils Schema PointSystemCalculations SnapshotGeneration.

(** [truncatePublications]: the publication data and the snapshots are
    removed; researchers and venues stay, with [h_index] and
    [conference_value] set to 0.  The decay table is not touched. *)
Definition truncatePublications (db : DB) : DB :=
  mkDB [] []
       (map (fun u => mkUser (user_id u) (Some 0)) (Users db))
       (map (fun e => mkEvent (lisperator_id e) (Some 0%Q)) (Events db))
       [] [] (DecayLookup db) [] [] [] [].

(** The options of [recalculateAllMetrics] that reach the code modelled
    here; an option left out is [None]. *)
Record Options := mkOptions {
  includeCurrentSnapshot : option bool;
  snapshotFrequency : option SnapshotFrequency }.

Section WithPower.
Variable POWER : Q -> Q -> Q.
Variable checkDatabaseHealth : Date -> bool.

(** [recalculateAllMetrics]: h-indexes, venue values, overall scores,
    then the snapshot generator.  [sqlNow] is [NOW()] when the scores
    are recomputed and [now] the [new Date()] taken afterwards.
    [updateEAIMembershipStatus] writes the column [is_eai_member] only,
    which nothing here reads, and is left out.  The result pairs the
    store with whether the call returned normally. *)
Definition recalculateAllMetrics (sqlNow now : Date) (options : Options) (db : DB)
  : DB * bool :=
  let db1 := calculateUserHIndex db in
  let db2 := calculateConferenceValue db1 in
  let db3 := calculateCitationScoresAndDecay sqlNow db2 in
  smartSnapshotGenerator POWER checkDatabaseHealth now
    (Sql.coalesce (includeCurrentSnapshot options) false)
    (Sql.coalesce (snapshotFrequency options) weekly)
    db3.
End WithPower.

End DbOperations.

(* ================================================================== *)
(** * [utils]: chunks, citation fetching, the rate limiter *)
(* ================================================================== *)

Module Utils.
Import PointSystemInitializationJob.

(** [createMany({ data, skipDuplicates: true })] on a table with a unique
    key: a row whose key the table already holds, or that an earlier row
    of the same call brought in, is skipped.  [same r c] tells whether the
    stored row [c] has the key of the new row [r]. *)
Fixpoint createManySkip {A} (same : A -> A -> bool) (rows table : list A) : list A :=
  match rows with
  | [] => table
  | r :: rows' =>
      createManySkip same rows'
        (if existsb (same r) table then table else table ++ [r])
  end.

(** Rows compared on a key column. *)
Definition same_key {A K} (key : A -> K) (eqb : K -> K -> bool) (r c : A) : bool :=
  eqb (key c) (key r).

(** [processInChunks]: the processor is run on [items.slice(i, i +
    chunkSize)] for [i = 0, chunkSize, 2 * chunkSize, ...] while
    [i < items.length], and the results are collected in order.  The
    processor acts on the store [S].  With a chunk size of 0 the loop of
    the source does not end; the sizes used are 100 and 1000. *)
Definition processInChunks {T R S} (items : list T) (chunkSize : nat)
           (processor : list T -> S -> S * R) (s : S) : S * list R :=
  fold_left (fun (acc : S * list R) (chunk : list T) =>
               let '(s', r) := processor chunk (fst acc) in (s', snd acc ++ [r]))
            (SnapshotGeneration.chunks chunkSize items) (s, []).

(** [tx.citation.createMany] as a processor: the table after the call and
    the count of rows created. *)
Definition createManyProcessor {A} (same : A -> A -> bool) (chunk : list A)
           (table : list A) : list A * nat :=
  let table' := createManySkip same chunk table in
  (table', (List.length table' - List.length table)%nat).

(** ** [fetchCitationsListWithRetriesAndVerification] *)

(** The outcome of one request to OpenCitations: a body with status ok
    that parses, or a failure (network error, timeout, another status, a
    body that does not parse). *)
Inductive Response :=
| Ok (data : list OCitRecord)
| Failure.

(** How the function ends. *)
Inductive Fetched :=
| Returned (data : list OCitRecord)
| Thrown.

Definition MAX_RETRIES : nat := 5.
Definition VERIFICATION_ATTEMPTS : nat := 3.

(** The [while] loop for a DOI that is not a mock DOI.  [responses n] is
    the outcome of the request number [n] (from 0); every round makes one
    request and raises [attempt] or [successfulAttempts] by one, so the
    number of the next request is their sum. *)
Fixpoint fetch_loop (fuel : nat) (responses : nat -> Response)
         (attempt successfulAttempts : nat) (bestResult : list OCitRecord)
  : option Fetched :=
  match fuel with
  | O => None
  | S fuel' =>
      if (successfulAttempts <? VERIFICATION_ATTEMPTS)%nat && (attempt <? MAX_RETRIES)%nat
      then
        match responses (attempt + successfulAttempts)%nat with
        | Ok data =>
            let bestResult' :=
              if (List.length bestResult <? List.length data)%nat then data else bestResult in
            let successfulAttempts' := S successfulAttempts in
            if (1 <=? List.length bestResult')%nat && (1 <=? successfulAttempts')%nat
            then Some (Returned bestResult')
            else fetch_loop fuel' responses attempt successfulAttempts' bestResult'
        | Failure =>
            let attempt' := S attempt in
            if (attempt' <? MAX_RETRIES)%nat
            then fetch_loop fuel' responses attempt' successfulAttempts bestResult
            else if (0 <? successfulAttempts)%nat
                 then Some (Returned bestResult)
                 else Some Thrown
        end
      else Some (Returned bestResult)
  end.

(** Each round raises one of the two counters, which stop the loop at 5
    and 3: eight rounds are never all used. *)
Definition fetchCitationsListWithRetriesAndVerification (responses : nat -> Response)
  : option Fetched :=
  fetch_loop 8 responses 0 0 [].

(** Among the first [n] requests, the number that failed and the number
    that were answered. *)
Fixpoint failures_before (responses : nat -> Response) (n : nat) : nat :=
  match n with
  | O => O
  | S n' => (failures_before responses n'
             + match responses n' with Failure => 1 | Ok _ => 0 end)%nat
  end.

Fixpoint answers_before (responses : nat -> Response) (n : nat) : nat :=
  match n with
  | O => O
  | S n' => (answers_before responses n'
             + match responses n' with Failure => 0 | Ok _ => 1 end)%nat
  end.

(** No request before the one numbered [n] was answered with citations. *)
Definition nothing_before (responses : nat -> Response) (n : nat) : Prop :=
  forall j, (j < n)%nat -> responses j = Failure \/ responses j = Ok [].

(** What an outcome tells about the requests: an exception, that the
    first five failed; a list of citations, that it is the first answer
    that is not empty and came before the fifth failure and the third
    empty answer; the empty list, that the requests made brought no
    citation and ended with the third empty answer, or with the fifth
    failure when there had been an empty answer. *)
Definition fetch_outcome (responses : nat -> Response) (result : Fetched) : Prop :=
  match result with
  | Thrown => forall i, (i < 5)%nat -> responses i = Failure
  | Returned [] =>
      exists n, (n <= 7)%nat
                /\ nothing_before responses n
                /\ ((answers_before responses n = 3 /\ failures_before responses n < 5)
                    \/ (failures_before responses n = 5
                        /\ 0 < answers_before responses n < 3
                        /\ exists m, n = S m /\ responses m = Failure))%nat
  | Returned data =>
      exists i, (i <= 6)%nat
                /\ responses i = Ok data
                /\ nothing_before responses i
                /\ (failures_before responses i < 5)%nat
                /\ (answers_before responses i < 3)%nat
  end.

(** ** [createRateLimiter] *)

(** The counter the closures of [createRateLimiter] share. *)
Record RateLimiter := mkRateLimiter {
  maxConsecutiveFailures : Z;
  consecutiveFailures : Z }.

Definition createRateLimiter (maxConsecutiveFailures : option Z) : RateLimiter :=
  mkRateLimiter (Sql.coalesce maxConsecutiveFailures 20) 0.

Definition trackResult (success : bool) (rl : RateLimiter) : RateLimiter :=
  mkRateLimiter (maxConsecutiveFailures rl)
                (if success then 0 else consecutiveFailures rl + 1).

Definition getFailureCount (rl : RateLimiter) : Z := consecutiveFailures rl.

Definition shouldAbort (rl : RateLimiter) : bool :=
  maxConsecutiveFailures rl <? consecutiveFailures rl.

Definition resetFailures (rl : RateLimiter) : RateLimiter :=
  mkRateLimiter (maxConsecutiveFailures rl) 0.

(** The results tracked so far end in [n] failures in a row. *)
Definition ends_in_failures (results : list bool) (n : Z) : Prop :=
  exists before failures,
    results = before ++ failures
    /\ Forall (fun r => r = false) failures
    /\ Z.of_nat (List.length failures) = n
    /\ (before = [] \/ exists before', before = before' ++ [true]).

End Utils.

(* ================================================================== *)
(** * [dbOperations]: the bridging rows of a publication *)
(* ================================================================== *)

Module Bridging.
Import Schema Utils.

Definition set_PublicationUsers (db : DB) (v : list PublicationUser) : DB :=
  mkDB (Publications db) (Citations db) (Users db) (Events db) v
       (PublicationTopics db) (DecayLookup db) (PublicationSnapshots db)
       (TopicSnapshots db) (UserTopicSnapshots db) (UserOverallSnapshots db).

Definition set_PublicationTopics (db : DB) (v : list PublicationTopic) : DB :=
  mkDB (Publications db) (Citations db) (Users db) (Events db) (PublicationUsers db)
       v (DecayLookup db) (PublicationSnapshots db)
       (TopicSnapshots db) (UserTopicSnapshots db) (UserOverallSnapshots db).

Definition pair_eqb (a b : Z * Z) : bool := (fst a =? fst b) && (snd a =? snd b).

(** The unique keys [(publication_id, user_id)] and
    [(publication_id, topic_id)]. *)
Definition pu_key (pu : PublicationUser) : Z * Z := (pu_publication_id pu, pu_user_id pu).
Definition pt_key (pt : PublicationTopic) : Z * Z := (pt_publication_id pt, pt_topic_id pt).

(** The columns [buildUserMap] selects from [User]. *)
Record UserRow := mkUserRow { ur_id : Z; ur_lisperator_id : Z }.

(** A JavaScript [Map] from numbers to numbers, as the list of the calls
    of [set], the latest first; [get] finds the latest. *)
Definition UserMap : Type := list (Z * Z).

Definition map_set (m : UserMap) (k v : Z) : UserMap := (k, v) :: m.

Definition map_get (m : UserMap) (k : Z) : option Z :=
  option_map snd (find (fun e => fst e =? k) m).

Definition buildUserMap (userRows : list UserRow) : UserMap :=
  fold_left (fun m row => map_set m (ur_lisperator_id row) (ur_id row)) userRows [].

(** [insertAuthors]: the author ids the map does not know are dropped. *)
Definition author_rows (pubId : Z) (authorUserIds : list Z) (userMap : UserMap)
  : list PublicationUser :=
  flat_map (fun lisperatorId =>
              match map_get userMap lisperatorId with
              | Some realUserId => [mkPublicationUser pubId realUserId]
              | None => []
              end) authorUserIds.

Definition insertAuthors (pubId : Z) (authorUserIds : list Z) (userMap : UserMap)
           (db : DB) : DB :=
  match author_rows pubId authorUserIds userMap with
  | [] => db
  | rows =>
      set_PublicationUsers db
        (fst (processInChunks rows 100
                (createManyProcessor (same_key pu_key pair_eqb))
                (PublicationUsers db)))
  end.

(** A row of [borg.topic] joined to the event: its [id] and its
    [new_topic_id]. *)
Record BorgTopic := mkBorgTopic { bt_id : Z; bt_new_topic_id : option Z }.

(** The [CASE] of the query of [insertTopics]. *)
Definition canonical_topic (t : BorgTopic) : option Z :=
  if bt_id t =? 1044 then Some 1
  else if bt_id t =? 1045 then Some 2
  else if bt_id t =? 1046 then Some 3
  else if bt_id t =? 1047 then Some 4
  else if bt_id t =? 1048 then Some 5
  else if bt_id t =? 1049 then Some 6
  else if bt_id t =? 1050 then Some 7
  else if bt_id t =? 1051 then Some 8
  else match bt_new_topic_id t with
       | Some n =>
           if n =? 1 then Some 1
           else if n =? 2 then Some 2
           else if n =? 3 then Some 3
           else if n =? 4 then Some 4
           else if n =? 5 then Some 5
           else if n =? 6 then Some 6
           else if n =? 7 then Some 7
           else if n =? 8 then Some 8
           else None
       | None => None
       end.

Definition option_Z_eq_dec (a b : option Z) : {a = b} + {a <> b}.
Proof. decide equality; apply Z.eq_dec. Defined.

(** [SELECT DISTINCT CASE ... END AS topic_id]; [eventTopics] are the
    topics the joins give for the conference. *)
Definition topicRows (eventTopics : list BorgTopic) : list (option Z) :=
  nodup option_Z_eq_dec (map canonical_topic eventTopics).

Definition finalTopicIds (eventTopics : list BorgTopic) : list Z :=
  match flat_map (fun id => match id with Some i => [i] | None => [] end)
                 (topicRows eventTopics) with
  | [] => [9]
  | topicIds => topicIds
  end.

Definition insertTopics (publicationId : Z) (eventTopics : list BorgTopic) (db : DB) : DB :=
  match map (fun id => mkPublicationTopic publicationId id) (finalTopicIds eventTopics) with
  | [] => db
  | rows =>
      set_PublicationTopics db
        (fst (processInChunks rows 100
                (createManyProcessor (same_key pt_key pair_eqb))
                (PublicationTopics db)))
  end.

End Bridging.

(* ================================================================== *)
(** * [PointSystemUpdateJob]: new and existing publications *)
(* ================================================================== *)

Module PointSystemUpdateJob.
Import Schema PointSystemInitializationJob.

(** [String.prototype.includes]. *)
Fixpoint includes (s sub : string) : bool :=
  String.prefix sub s
  || match s with
     | EmptyString => false
     | String _ s' => includes s' sub
     end.

(** [!pub.doi || pub.doi.includes('10.9999/mock-')]: no DOI, an empty
    one, or a mock DOI. *)
Definition skipped (doi : option string) : bool :=
  match doi with
  | None => true
  | Some d => String.eqb d EmptyString || includes d "10.9999/mock-"%string
  end.

(** Step 2 for one new publication: one without a DOI is not stored;
    otherwise the transaction is that of the initialization job. *)
Definition insertNew (pub : PublicationRow) (fetched : option (list OCitRecord))
           (newId : Z) (db : DB) : DB :=
  if skipped (row_doi pub) then db else insertEntry pub fetched newId db.

(** The columns step 3 reads of each stored publication before it
    starts. *)
Record ExistingPublication := mkExisting {
  ep_id : Z;
  ep_doi : option string;
  ep_citation_count : option Z }.

Definition option_Z_eqb (a b : option Z) : bool :=
  match a, b with
  | Some x, Some y => x =? y
  | None, None => true
  | _, _ => false
  end.

(** Step 3 for one stored publication.  [fetched] is [None] when the
    fetch threw.  The external records are inserted one by one with
    [ON CONFLICT (oci) DO NOTHING]; the count is then read back with
    [COUNT( * )] over the citation rows of the publication and written
    when it differs from the count read before. *)
Definition updateExisting (pub : ExistingPublication)
           (fetched : option (list OCitRecord)) (db : DB) : DB :=
  if skipped (ep_doi pub) then db
  else
    match fetched with
    | None => db
    | Some citationRecords =>
        let validCitations := filter not_self citationRecords in
        let table :=
          createMany
            (map (fun rec => mkCitation (ep_id pub) (oc_oci rec) (oc_creation rec)
                                        (Some (String.eqb (oc_author_sc rec) "yes"%string)))
                 validCitations)
            (Citations db) in
        let newCount :=
          Z.of_nat (List.length (filter (fun c => cit_publication_id c =? ep_id pub) table)) in
        let db1 := set_Citations db table in
        if option_Z_eqb (Some newCount) (ep_citation_count pub) then db1
        else
          set_Publications db1
            (map (fun p =>
                    if pub_id p =? ep_id pub
                    then mkPublication (pub_id p) (submission_id p) (doi p) (conference p)
                                       (review_score p) (overall_score p) (Some newCount)
                                       (date_published p)
                    else p)
                 (Publications db1))
    end.

(** The citation rows of a publication. *)
Definition stored_citations (db : DB) (id : Z) : list Citation :=
  filter (fun c => cit_publication_id c =? id) (Citations db).

End PointSystemUpdateJob.

(* ================================================================== *)
(** * [extractDoi] *)
(* ================================================================== *)

Module ExtractDoi.

(** A JavaScript string is the list of its UTF-16 code units. *)
Definition JSString : Type := list Z.

(** The characters [\s] matches: white space and line terminators. *)
Definition is_space (c : Z) : bool :=
  (c =? 9) || (c =? 10) || (c =? 11) || (c =? 12) || (c =? 13) || (c =? 32)
  || (c =? 160) || (c =? 5760) || ((8192 <=? c) && (c <=? 8202))
  || (c =? 8232) || (c =? 8233) || (c =? 8239) || (c =? 8287) || (c =? 12288)
  || (c =? 65279).

(** The code units of ["doi:"] and of ["10."]. *)
Definition doi_colon : JSString := [100; 111; 105; 58].
Definition ten_dot : JSString := [49; 48; 46].

(** What is left of [s] after the literal [p], when [s] starts with it. *)
Fixpoint strip_prefix (p s : JSString) : option JSString :=
  match p, s with
  | [], _ => Some s
  | a :: p', b :: s' => if a =? b then strip_prefix p' s' else None
  | _ :: _, [] => None
  end.

(** The longest run of characters [\S] at the start of [s]. *)
Fixpoint non_space_run (s : JSString) : JSString :=
  match s with
  | c :: s' => if is_space c then [] else c :: non_space_run s'
  | [] => []
  end.

(** [/doi:(10\.\S+)/] tried at the start of [s]: the group it captures. *)
Definition match_at (s : JSString) : option JSString :=
  match strip_prefix (doi_colon ++ ten_dot) s with
  | Some rest =>
      match non_space_run rest with
      | [] => None
      | run => Some (ten_dot ++ run)
      end
  | None => None
  end.

(** The first position at which the expression matches. *)
Fixpoint regex_match (s : JSString) : option JSString :=
  match match_at s with
  | Some d => Some d
  | None =>
      match s with
      | [] => None
      | _ :: s' => regex_match s'
      end
  end.

Definition extractDoi (citingStr : JSString) : option JSString :=
  match citingStr with
  | [] => None
  | _ => regex_match citingStr
  end.

(** [s] holds no white space and is followed by white space or by the
    end of the string. *)
Definition token_before (s rest : JSString) : Prop :=
  Forall (fun c => is_space c = false) s
  /\ match rest with [] => True | c :: _ => is_space c = true end.

End ExtractDoi.
(* ================================================================== *)
(** * Properties *)
(* ================================================================== *)

(** ** Exact rationals: adding the literal zero changes nothing *)

Lemma Qplus_0_l_eq (q : Q) : (0 + q)%Q = q.
Proof. destruct q as [n d]. unfold Qplus. simpl. now rewrite Z.mul_1_r. Qed.

Lemma Qplus_0_r_eq (q : Q) : (q + 0)%Q = q.
Proof.
  destruct q as [n d]. unfold Qplus. simpl.
  now rewrite Z.mul_1_r, Z.add_0_r, Pos.mul_1_r.
Qed.

(** ** SQL aggregates *)

Module SqlFacts.
Import Sql Spec.

Lemma max_None (l : list Z) : max l = None <-> l = [].
Proof. destruct l; simpl; split; intro H; congruence. Qed.

Lemma max_Some (l : list Z) (m : Z) :
  max l = Some m <-> In m l /\ Forall (fun x => x <= m) l.
Proof.
  revert m. induction l as [|a l IH]; intro m; simpl.
  - split; [discriminate | intros [[] _]].
  - destruct (max l) as [m'|] eqn:E.
    + destruct (proj1 (IH m') eq_refl) as [Hin Hall].
      split.
      * intro H. injection H as <-. split.
        -- destruct (Z.max_spec a m') as [[_ ->]|[_ ->]]; auto.
        -- constructor; [lia|]. eapply Forall_impl; [|exact Hall].
           simpl. intros. lia.
      * intros [Hm Hle]. inversion Hle as [|? ? Ha Hl]; subst. f_equal.
        rewrite Forall_forall in Hl. specialize (Hl _ Hin).
        destruct Hm as [<-|Hm]; [lia|].
        rewrite Forall_forall in Hall. specialize (Hall _ Hm). lia.
    + apply max_None in E. subst l. split.
      * intro H. injection H as <-. split; [auto|]. constructor; [lia|constructor].
      * intros [[<-|[]] _]. reflexivity.
Qed.

Lemma row_number_In {A} (l : list A) (r : Z) (x : A) :
  In (r, x) (row_number l) <-> 1 <= r /\ nth_error l (Z.to_nat (r - 1)) = Some x.
Proof.
  unfold row_number.
  assert (G : forall (s : nat) (l : list A),
             In (r, x) (combine (map Z.of_nat (seq s (List.length l))) l) <->
             Z.of_nat s <= r /\ nth_error l (Z.to_nat (r - Z.of_nat s)) = Some x).
  { clear l. intros s l. revert s. induction l as [|a l IH]; intro s; simpl.
    - split; [intros [] | intros [_ H]].
      destruct (Z.to_nat (r - Z.of_nat s)); discriminate.
    - rewrite IH. split.
      + intros [H | [H1 H2]].
        * injection H as <- <-. split; [lia|]. now rewrite Z.sub_diag.
        * split; [lia|].
          replace (Z.to_nat (r - Z.of_nat s)) with (S (Z.to_nat (r - Z.of_nat (S s))))
            by lia.
          exact H2.
      + intros [H1 H2].
        destruct (Z.eq_dec r (Z.of_nat s)) as [->|Hne].
        * left. rewrite Z.sub_diag in H2. simpl in H2. congruence.
        * right. split; [lia|].
          replace (Z.to_nat (r - Z.of_nat s)) with (S (Z.to_nat (r - Z.of_nat (S s))))
            in H2 by lia.
          exact H2. }
  apply (G 1%nat l).
Qed.

(** [ORDER BY] returns a sorted rearrangement of its input. *)
Lemma insert_by_perm {A} (before : A -> A -> bool) (x : A) (l : list A) :
  Permutation (x :: l) (insert_by before x l).
Proof.
  induction l as [|y l IH]; simpl; [reflexivity|].
  destruct (before x y); [reflexivity|].
  rewrite perm_swap. now constructor.
Qed.

Lemma order_by_perm {A} (before : A -> A -> bool) (l : list A) :
  Permutation l (order_by before l).
Proof.
  induction l as [|x l IH]; simpl; [constructor|].
  rewrite <- insert_by_perm. now constructor.
Qed.

Lemma desc_total (a b : option Z) : desc a b \/ desc b a.
Proof.
  unfold desc. destruct a as [x|], b as [y|]; simpl; auto.
  destruct (Z.leb_spec y x); [auto|]. right. apply Z.leb_le. lia.
Qed.

Lemma desc_trans (a b c : option Z) : desc a b -> desc b c -> desc a c.
Proof.
  unfold desc. destruct a, b, c; simpl; try congruence.
  rewrite !Z.leb_le. lia.
Qed.

Lemma desc_antisym (a b : option Z) : desc a b -> desc b a -> a = b.
Proof.
  unfold desc. destruct a, b; simpl; try congruence.
  rewrite !Z.leb_le. intros. f_equal. lia.
Qed.

Lemma insert_desc_sorted (x : option Z) (l : list (option Z)) :
  StronglySorted desc l -> StronglySorted desc (insert_by desc_before x l).
Proof.
  induction 1 as [|y l Hs IH Hall]; simpl.
  - repeat constructor.
  - destruct (desc_before x y) eqn:E.
    + constructor; [now constructor|].
      constructor; [exact E|].
      eapply Forall_impl; [|exact Hall]. intros z Hz. eapply desc_trans; eauto.
    + constructor; [exact IH|].
      assert (Hyx : desc y x) by (destruct (desc_total x y); [congruence|assumption]).
      eapply Permutation_Forall; [apply insert_by_perm|].
      now constructor.
Qed.

Lemma order_by_desc_sorted (l : list (option Z)) :
  StronglySorted desc (order_by_desc l).
Proof.
  unfold order_by_desc, order_by.
  induction l; simpl; [constructor | now apply insert_desc_sorted].
Qed.

(** A descending ranking of given counts is unique: ties carry equal
    counts. *)
Lemma desc_ranking_unique (l1 l2 : list (option Z)) :
  Permutation l1 l2 -> StronglySorted desc l1 -> StronglySorted desc l2 -> l1 = l2.
Proof.
  revert l2. induction l1 as [|a l1 IH]; intros l2 Hp H1 H2.
  - apply Permutation_nil in Hp. now subst.
  - destruct l2 as [|b l2].
    + symmetry in Hp. apply Permutation_nil in Hp. discriminate.
    + inversion H1 as [|? ? Hs1 Ha]; subst. inversion H2 as [|? ? Hs2 Hb]; subst.
      assert (Hab : a = b).
      { assert (Ia : In a (b :: l2)) by (eapply Permutation_in; [exact Hp|now left]).
        assert (Ib : In b (a :: l1))
          by (eapply Permutation_in; [symmetry; exact Hp|now left]).
        destruct Ia as [->|Ia]; [reflexivity|].
        destruct Ib as [->|Ib]; [reflexivity|].
        rewrite Forall_forall in Ha, Hb.
        apply desc_antisym; auto. }
      subst b. f_equal. apply IH; auto.
      eapply Permutation_cons_inv; exact Hp.
Qed.

End SqlFacts.

(** ** The h-index calculator *)

Module HIndexFacts.
Import Sql SqlFacts Spec Schema PointSystemCalculations.

Lemma qualifying_ranks_In (ranking : list (option Z)) (r : Z) :
  In r (map fst (filter count_ge_rank (row_number ranking))) <-> qualifies ranking r.
Proof.
  rewrite in_map_iff. split.
  - intros [[r' c] [Hr Hin]]. simpl in Hr. subst r'.
    apply filter_In in Hin. destruct Hin as [Hin Hq].
    apply row_number_In in Hin. destruct Hin as [H1 Hn].
    unfold count_ge_rank in Hq. simpl in Hq. destruct c as [c|]; [|discriminate].
    exists c. apply Z.leb_le in Hq. auto.
  - intros [c (H1 & Hn & Hc)]. exists (r, Some c). split; [reflexivity|].
    apply filter_In. split.
    + apply row_number_In. auto.
    + unfold count_ge_rank. simpl. now apply Z.leb_le.
Qed.

Lemma HIndexPerUser_Some (counts : list (option Z)) (h : Z) :
  HIndexPerUser counts = Some h <-> largest_qualifying_rank (order_by_desc counts) h.
Proof.
  unfold HIndexPerUser, RankedPublications, largest_qualifying_rank.
  rewrite max_Some, Forall_forall, qualifying_ranks_In.
  split; intros [H1 H2]; (split; [exact H1|]); intros r Hr; apply H2;
    now apply qualifying_ranks_In.
Qed.

Lemma HIndexPerUser_None (counts : list (option Z)) :
  HIndexPerUser counts = None <-> forall r, ~ qualifies (order_by_desc counts) r.
Proof.
  unfold HIndexPerUser, RankedPublications. rewrite max_None. split.
  - intros H r Hr. apply qualifying_ranks_In in Hr. rewrite H in Hr. exact Hr.
  - intro H.
    destruct (map fst (filter count_ge_rank (row_number (order_by_desc counts))))
      as [|r l] eqn:E; [reflexivity|].
    exfalso. apply (H r). apply qualifying_ranks_In. rewrite E. now left.
Qed.

Lemma ranking_is_order_by (counts ranking : list (option Z)) :
  is_ranking counts ranking -> ranking = order_by_desc counts.
Proof.
  intros [Hp Hs]. apply desc_ranking_unique; auto.
  - rewrite <- Hp. apply order_by_perm.
  - apply order_by_desc_sorted.
Qed.

(** When every one of the [n] publications has at least [n] citations,
    the largest qualifying rank is [n]. *)
Lemma HIndexPerUser_all_large (counts : list Z) :
  counts <> [] ->
  Forall (fun c => Z.of_nat (List.length counts) <= c) counts ->
  HIndexPerUser (map Some counts) = Some (Z.of_nat (List.length counts)).
Proof.
  intros Hne Hall. apply HIndexPerUser_Some.
  set (l := order_by_desc (map Some counts)).
  assert (Hp : Permutation (map Some counts) l) by apply order_by_perm.
  assert (Hlen : List.length l = List.length counts).
  { rewrite <- (Permutation_length Hp). apply length_map. }
  assert (Hl : Forall (fun x => exists c, x = Some c /\ Z.of_nat (List.length counts) <= c) l).
  { eapply Permutation_Forall; [exact Hp|].
    rewrite Forall_forall in *. intros x Hx. apply in_map_iff in Hx.
    destruct Hx as [c [<- Hc]]. eauto. }
  rewrite Forall_forall in Hl.
  assert (Hpos : (0 < List.length counts)%nat)
    by (destruct counts; [congruence|simpl; lia]).
  split.
  - destruct (nth_error l (Z.to_nat (Z.of_nat (List.length counts) - 1))) as [x|] eqn:E.
    + destruct (Hl x (nth_error_In _ _ E)) as [c [-> Hc]].
      exists c. repeat split; auto; lia.
    + apply nth_error_None in E. lia.
  - intros r' [c (H1 & Hn & _)].
    assert (Z.to_nat (r' - 1) < List.length l)%nat
      by (apply nth_error_Some; congruence).
    lia.
Qed.

Lemma calculateUserHIndex_row (db : DB) (u : User) :
  In u (Users db) ->
  In (match HIndexPerUser (user_citation_counts db (user_id u)) with
      | Some h => mkUser (user_id u) (Some (Z.min h 100))
      | None => u
      end) (Users (calculateUserHIndex db)).
Proof.
  intro Hin. unfold calculateUserHIndex. simpl.
  apply in_map_iff. exists u. auto.
Qed.

End HIndexFacts.

Import Spec Schema PointSystemCalculations.

(** C2.  For every researcher, whatever descending ranking of the citation
    counts of the researcher's publications is taken, if [r] is the largest
    rank whose publication has at least [r] citations, [calculateUserHIndex]
    stores [min r 100] as the h-index.  Citation counts 10, 8, 5, 4, 3 (in
    any order) give 4, and 150 publications with at least 150 citations each
    give 100. *)
Theorem calculateUserHIndex_largest_rank :
  (forall (db : DB) (u : User) (ranking : list (option Z)) (r : Z),
      In u (Users db) ->
      is_ranking (user_citation_counts db (user_id u)) ranking ->
      largest_qualifying_rank ranking r ->
      In (mkUser (user_id u) (Some (Z.min r 100))) (Users (calculateUserHIndex db)))
  /\ (forall (db : DB) (u : User),
         In u (Users db) ->
         Permutation (user_citation_counts db (user_id u)) (map Some [10; 8; 5; 4; 3]) ->
         In (mkUser (user_id u) (Some 4)) (Users (calculateUserHIndex db)))
  /\ (forall (db : DB) (u : User) (counts : list Z),
         In u (Users db) ->
         user_citation_counts db (user_id u) = map Some counts ->
         List.length counts = 150%nat ->
         Forall (fun c => 150 <= c) counts ->
         In (mkUser (user_id u) (Some 100)) (Users (calculateUserHIndex db))).
Proof.
  assert (G : forall db u ranking r,
             In u (Users db) ->
             is_ranking (user_citation_counts db (user_id u)) ranking ->
             largest_qualifying_rank ranking r ->
             In (mkUser (user_id u) (Some (Z.min r 100))) (Users (calculateUserHIndex db))).
  { intros db u ranking r Hin Hrank Hr.
    rewrite (HIndexFacts.ranking_is_order_by _ _ Hrank) in Hr.
    apply HIndexFacts.HIndexPerUser_Some in Hr.
    pose proof (HIndexFacts.calculateUserHIndex_row db u Hin) as H.
    now rewrite Hr in H. }
  split; [exact G|]. split.
  - intros db u Hin Hp.
    apply (G db u (map Some [10; 8; 5; 4; 3]) 4 Hin).
    + split; [exact Hp|]. repeat constructor.
    + split.
      * exists 4. split; [lia|]. split; [reflexivity|lia].
      * intros r' [c (H1 & Hn & Hc)].
        destruct (Z.to_nat (r' - 1)) as [|[|[|[|[|n]]]]] eqn:E; simpl in Hn;
          try (injection Hn as <-); try lia.
        destruct n; discriminate.
  - intros db u counts Hin Hc Hlen Hall.
    pose proof (HIndexFacts.calculateUserHIndex_row db u Hin) as H.
    rewrite Hc, HIndexFacts.HIndexPerUser_all_large in H.
    + rewrite Hlen in H. exact H.
    + destruct counts; [discriminate|congruence].
    + rewrite Hlen. exact Hall.
Qed.

Lemma calculateUserHIndex_largest_rank_witness :
  In (mkUser 1 (Some 4)) (Users (calculateUserHIndex Examples.five_papers)).
Proof.
  apply (proj1 calculateUserHIndex_largest_rank Examples.five_papers (mkUser 1 (Some 0))
           (map Some [10; 8; 5; 4; 3]) 4).
  - simpl. auto.
  - split.
    + change (map Some [10; 8; 5; 4; 3])
        with (Sql.order_by_desc (user_citation_counts Examples.five_papers 1)).
      apply SqlFacts.order_by_perm.
    + repeat constructor.
  - split.
    + exists 4. split; [lia|]. split; [reflexivity|lia].
    + intros r' [c (H1 & Hn & Hc)].
      destruct (Z.to_nat (r' - 1)) as [|[|[|[|[|n]]]]] eqn:E; simpl in Hn;
        try (injection Hn as <-); try lia.
      destruct n; discriminate.
Defined.

(** ** Frame of the calculators *)

Module FrameFacts.
Import Sql SqlFacts.

Lemma user_confs_In (db : DB) (c uid : Z) :
  In (c, uid) (user_confs db) <->
  exists p, In p (Publications db) /\ conference p = Some c /\ In uid (authors_of db p).
Proof.
  unfold user_confs. rewrite nodup_In, in_flat_map. split.
  - intros [p [Hp Hin]]. exists p. destruct (conference p) as [c'|]; [|destruct Hin].
    apply in_map_iff in Hin. destruct Hin as [u [Heq Hu]]. injection Heq as -> ->. auto.
  - intros [p (Hp & Hc & Hu)]. exists p. split; [exact Hp|]. rewrite Hc.
    apply in_map_iff. eauto.
Qed.

Lemma averages_None (db : DB) (l : Z) :
  ~ venue_has_authors db l -> averages db l = None.
Proof.
  intro H. unfold averages.
  destruct (conference_h_indexes db l) as [|h hs] eqn:E; [reflexivity|].
  exfalso. apply H.
  assert (Hin : In h (conference_h_indexes db l)) by (rewrite E; now left).
  unfold conference_h_indexes in Hin. apply in_flat_map in Hin.
  destruct Hin as [[c uid] [Huc Hin]]. simpl in Hin.
  destruct (Z.eqb_spec c l) as [->|]; [|destruct Hin].
  apply in_map_iff in Hin. destruct Hin as [u [_ Hu]].
  apply filter_In in Hu. destruct Hu as [Hu Hid]. apply Z.eqb_eq in Hid.
  apply user_confs_In in Huc. destruct Huc as [p (Hp & Hc & Ha)].
  exists p, u. rewrite Hid. auto.
Qed.

End FrameFacts.

(** C10.  [calculateUserHIndex] rewrites only the researchers that have a
    rank whose publication reaches it: the row of any other researcher, and
    every other table, is left as it was (a stale h-index stays).  Likewise
    [calculateConferenceValue] leaves the row of every venue none of whose
    publications has a joined author, and every other table, as it was. *)
Theorem calculators_leave_stale_values :
  (forall (db : DB) (i : nat) (u : User),
      nth_error (Users db) i = Some u ->
      (forall ranking r,
          is_ranking (user_citation_counts db (user_id u)) ranking ->
          ~ qualifies ranking r) ->
      nth_error (Users (calculateUserHIndex db)) i = Some u
      /\ calculateUserHIndex db = set_Users db (Users (calculateUserHIndex db)))
  /\ (forall (db : DB) (i : nat) (e : Event),
         nth_error (Events db) i = Some e ->
         (forall l, lisperator_id e = Some l -> ~ venue_has_authors db l) ->
         nth_error (Events (calculateConferenceValue db)) i = Some e
         /\ calculateConferenceValue db
            = set_Events db (Events (calculateConferenceValue db))).
Proof.
  split.
  - intros db i u Hi Hno. split; [|reflexivity].
    unfold calculateUserHIndex. simpl. rewrite nth_error_map, Hi. simpl.
    replace (HIndexPerUser (user_citation_counts db (user_id u))) with (@None Z);
      [reflexivity|].
    symmetry. apply HIndexFacts.HIndexPerUser_None. intro r.
    apply Hno. split; [apply SqlFacts.order_by_perm | apply SqlFacts.order_by_desc_sorted].
  - intros db i e Hi Hno. split; [|reflexivity].
    unfold calculateConferenceValue. simpl. rewrite nth_error_map, Hi. simpl.
    destruct (lisperator_id e) as [l|] eqn:El; [|reflexivity].
    now rewrite (FrameFacts.averages_None db l (Hno l eq_refl)).
Qed.

Lemma calculators_leave_stale_values_witness :
  nth_error (Users (calculateUserHIndex Examples.scenario)) 2 = Some (mkUser 3 (Some 9))
  /\ nth_error (Events (calculateConferenceValue Examples.scenario)) 2
     = Some (mkEvent (Some 9) (Some 42%Q)).
Proof.
  split.
  - apply (proj1 calculators_leave_stale_values Examples.scenario 2%nat (mkUser 3 (Some 9))).
    + reflexivity.
    + intros ranking r Hrank [c (H1 & Hn & Hc)].
      apply HIndexFacts.ranking_is_order_by in Hrank. subst ranking.
      change (nth_error [Some 0] (Z.to_nat (r - 1)) = Some (Some c)) in Hn.
      destruct (Z.to_nat (r - 1)) as [|n] eqn:E; simpl in Hn.
      * injection Hn as <-. lia.
      * destruct n; discriminate.
  - apply (proj2 calculators_leave_stale_values Examples.scenario 2%nat
             (mkEvent (Some 9) (Some 42%Q))).
    + reflexivity.
    + intros l Hl [p [u (Hp & Hc & _)]]. simpl in Hl. injection Hl as <-.
      simpl in Hp. destruct Hp as [<-|[<-|[]]]; discriminate.
Defined.

(** ** The score of a publication *)

Module ScoreFacts.
Import Sql DateUtils.

(** A [SUM] whose terms are a value for the rows that count and the
    [ELSE 0] for the others adds up the values of the rows that count. *)
Lemma sum_case_else_0 {A} (g : A -> option Q) (l : list A) :
  sum (map (fun a => Some (coalesce (g a) 0%Q)) l)
  = match l with
    | [] => None
    | _ => Some (sumQ (flat_map (fun a => match g a with
                                            | Some t => [t]
                                            | None => []
                                            end) l))
    end.
Proof.
  induction l as [|a l IH]; [reflexivity|].
  cbn [map sum fold_right flat_map]. fold (sum (map (fun a => Some (coalesce (g a) 0%Q)) l)).
  rewrite IH. destruct l as [|b l].
  - simpl. destruct (g a); simpl; [now rewrite Qplus_0_r_eq | reflexivity].
  - f_equal. destruct (g a); cbn [coalesce app sumQ fold_right];
      [reflexivity | apply Qplus_0_l_eq].
Qed.

(** [GREATEST] of the citation date and the publication date is the later
    of the two. *)
Lemma greatest_later_of (citationDate : option Date) (datePublished : Date) :
  greatest citationDate datePublished = later_of citationDate datePublished.
Proof.
  unfold greatest, later_of. destruct citationDate as [cited|]; [|reflexivity].
  destruct (Z.ltb_spec datePublished cited); [apply Z.max_l | apply Z.max_r];
    unfold Date in *; lia.
Qed.

(** [GREATEST(1, LEAST(x, 5))] is [x] clamped to the range from 1 to 5. *)
Lemma clamp_1_5_clamp (x : Q) : (clamp_1_5 x == clamp x 1 5)%Q.
Proof.
  unfold clamp_1_5, clamp.
  destruct (Qle_bool 1 x) eqn:E1.
  - apply Qle_bool_iff in E1. destruct (Qle_bool x 5) eqn:E5.
    + apply Qle_bool_iff in E5. rewrite (Q.min_l x 5 E5). now apply Q.max_r.
    + assert (H5 : (5 <= x)%Q).
      { destruct (Qlt_le_dec 5 x) as [H|H]; [now apply Qlt_le_weak|].
        apply Qle_bool_iff in H. congruence. }
      rewrite (Q.min_r x 5 H5). apply Q.max_r. discriminate.
  - assert (H1 : (x <= 1)%Q).
    { destruct (Qlt_le_dec x 1) as [H|H]; [now apply Qlt_le_weak|].
      apply Qle_bool_iff in H. congruence. }
    apply Q.max_l. apply Qle_trans with x; [apply Q.le_min_l | exact H1].
Qed.

Lemma citation_case_counted (db : DB) (v : Q) (asof pubdate : Date) (c : Citation) :
  citation_case db (Some v) asof pubdate (Some c)
  = Some (coalesce (option_map (fun f => (v / 5) * f)%Q
                               (counted_citation_factor db asof pubdate c)) 0%Q).
Proof.
  unfold citation_case, counted_citation_factor. rewrite greatest_later_of.
  destruct (author_sc c) as [[|]|]; try reflexivity.
  destruct (decay db _); reflexivity.
Qed.

(** The [decayed_citations] of a publication whose venue has a value. *)
Lemma decayed_citations_bonus (db : DB) (v : Q) (asof pubdate : Date) (p : Publication) :
  coalesce (sum (map (citation_case db (Some v) asof pubdate)
                     (left_join_citations db p))) 0%Q
  = citation_bonus db asof pubdate v p.
Proof.
  unfold left_join_citations, citation_bonus, citations_of.
  remember (filter (fun c => cit_publication_id c =? pub_id p) (Citations db)) as cs.
  destruct cs as [|c0 cs']; [reflexivity|].
  rewrite map_map.
  rewrite (map_ext _ (fun c => Some (coalesce
              (option_map (fun f => (v / 5) * f)%Q
                          (counted_citation_factor db asof pubdate c)) 0%Q)))
    by (intro; apply citation_case_counted).
  rewrite (sum_case_else_0
             (fun c => option_map (fun f => (v / 5) * f)%Q
                                  (counted_citation_factor db asof pubdate c))).
  cbv beta iota. unfold coalesce at 1. f_equal.
  apply flat_map_ext. intro a. now destruct (counted_citation_factor db asof pubdate a).
Qed.

End ScoreFacts.

(** C1.  For every publication whose venue exists with a value and whose age
    in days has a row in the decay table, [calculateCitationScoresAndDecay]
    stores clamp(reviewScore, 1, 5) * venueValue * decayFactor(days since
    publication) plus the sum, over its non-self citations with a decay row,
    of (venueValue / 5) * decayFactor(days since the later of citation and
    publication).  In the scenario of one venue whose two authors have
    h-indexes 2 and 4, a review score of 4.5 and two fresh external citations
    the venue value is 3 and the score 14.7.  In a venue of value 10, with a
    decay of a hundredth a day, a publication thirty days old with review
    score 7.5, cited ten days before and twenty days after it was published,
    gets 5 * 10 * 0.7 + 2 * 0.7 + 2 * 0.9 = 38.2, and a publication nineteen
    days old with review score 0.4 gets 1 * 10 * 0.81 = 8.1. *)
Theorem calculateCitationScoresAndDecay_formula :
  (forall (now : DateUtils.Date) (db : DB) (p : Publication) (e : Event)
          (venueValue publicationAgeDecay : Q),
      let pubdate := Sql.coalesce (date_published p) (DateUtils.date_trunc_day now) in
      In p (Publications db) ->
      event_of db (conference p) = Some e ->
      conference_value e = Some venueValue ->
      decay db (DateUtils.days_between now pubdate) = Some publicationAgeDecay ->
      exists s,
        In (with_overall_score p s) (Publications (calculateCitationScoresAndDecay now db))
        /\ (s == overall_score_formula db now pubdate venueValue publicationAgeDecay p)%Q)
  /\ (exists venue publication s,
         nth_error (Events (calculateConferenceValue Examples.scenario)) 0 = Some venue
         /\ (Sql.coalesce (conference_value venue) 0 == 3)%Q
         /\ nth_error (Publications
                         (calculateCitationScoresAndDecay Examples.now
                            (calculateConferenceValue Examples.scenario))) 0
            = Some publication
         /\ overall_score publication = Some s
         /\ (s == 14.7)%Q)
  /\ (exists above below s1 s2,
         Publications (calculateCitationScoresAndDecay Examples.leap_day
                         Examples.out_of_range) = [above; below]
         /\ overall_score above = Some s1 /\ (s1 == 38.2)%Q
         /\ overall_score below = Some s2 /\ (s2 == 8.1)%Q).
Proof.
  split; [|split].
  - intros now db p e v f pubdate Hin He Hv Hf.
    exists (Sql.clamp_1_5 (Sql.coalesce (review_score p) 1) * v * f
            + citation_bonus db now pubdate v p)%Q.
    split.
    + unfold calculateCitationScoresAndDecay. simpl.
      apply in_map_iff. exists p. split; [|exact Hin].
      unfold updated_overall_score, citation_scores. fold pubdate.
      rewrite He, Hf, Hv. unfold with_overall_score.
      do 2 f_equal. simpl Sql.coalesce at 2.
      f_equal. apply ScoreFacts.decayed_citations_bonus.
    + unfold overall_score_formula. now rewrite ScoreFacts.clamp_1_5_clamp.
  - eexists. eexists. eexists.
    split; [reflexivity|]. split; [reflexivity|].
    split; [reflexivity|]. split; [reflexivity|]. reflexivity.
  - eexists. eexists. eexists. eexists.
    split; [vm_compute; reflexivity|]. split; [reflexivity|].
    split; [reflexivity|]. split; [reflexivity|]. reflexivity.
Qed.

Lemma calculateCitationScoresAndDecay_formula_witness :
  exists s,
    In (with_overall_score
          (mkPublication 1 501 (Some "10.4108/a"%string) (Some 7) (Some 7.5%Q)
                         (Some 0%Q) (Some 2) (Some (Examples.ymd 2024 1 30))) s)
       (Publications (calculateCitationScoresAndDecay Examples.leap_day
                        Examples.out_of_range))
    /\ Qeq s (overall_score_formula Examples.out_of_range Examples.leap_day
                (Examples.ymd 2024 1 30) 10%Q (70 # 100)%Q
                (mkPublication 1 501 (Some "10.4108/a"%string) (Some 7) (Some 7.5%Q)
                               (Some 0%Q) (Some 2) (Some (Examples.ymd 2024 1 30)))).
Proof.
  apply (proj1 calculateCitationScoresAndDecay_formula Examples.leap_day
           Examples.out_of_range
           (mkPublication 1 501 (Some "10.4108/a"%string) (Some 7) (Some 7.5%Q)
                          (Some 0%Q) (Some 2) (Some (Examples.ymd 2024 1 30)))
           (mkEvent (Some 7) (Some 10%Q)) 10%Q (70 # 100)%Q).
  - simpl. auto.
  - reflexivity.
  - reflexivity.
  - vm_compute. reflexivity.
Defined.

(** ** The seeded decay table *)

Module DecayFacts.
Import SeedDecayLookup.

Lemma find_app {A} (f : A -> bool) (l1 l2 : list A) :
  find f (l1 ++ l2) = match find f l1 with Some x => Some x | None => find f l2 end.
Proof. induction l1 as [|a l1 IH]; simpl; [reflexivity|]. now destruct (f a). Qed.

Lemma find_createMany (d : Z) (rows table : list (Z * R)) :
  find (fun e => fst e =? d) (createMany rows table)
  = match find (fun e => fst e =? d) table with
    | Some e => Some e
    | None => find (fun e => fst e =? d) rows
    end.
Proof.
  revert table. induction rows as [|r rows IH]; intro table; simpl.
  - now destruct (find _ table).
  - rewrite IH. destruct (existsb (fun e => fst e =? fst r) table) eqn:Ex.
    + destruct (find (fun e => fst e =? d) table) eqn:F; [reflexivity|].
      destruct (Z.eqb_spec (fst r) d) as [Hd|]; [|reflexivity].
      apply existsb_exists in Ex. destruct Ex as [e [He Hk]].
      apply Z.eqb_eq in Hk. pose proof (find_none _ _ F e He) as Hn.
      simpl in Hn. rewrite Hk, Hd, Z.eqb_refl in Hn. discriminate.
    + rewrite find_app. destruct (find (fun e => fst e =? d) table); [reflexivity|].
      simpl. now destruct (fst r =? d).
Qed.

Lemma find_tabulate (f : Z -> R) (d : Z) (s n : nat) :
  Z.of_nat s <= d < Z.of_nat (s + n) ->
  find (fun e => fst e =? d) (map (fun days => (days, f days)) (map Z.of_nat (seq s n)))
  = Some (d, f d).
Proof.
  revert s. induction n as [|n IH]; intros s H; [lia|]. simpl.
  destruct (Z.eqb_spec (Z.of_nat s) d) as [->|Hne]; [reflexivity|].
  apply IH. lia.
Qed.

Lemma half_life_pos : (0 < HALF_LIFE)%R.
Proof. unfold HALF_LIFE. Lra.lra. Qed.

Lemma ln_half_neg : (ln 0.5 < 0)%R.
Proof. rewrite <- ln_1. apply ln_increasing; Lra.lra. Qed.

Lemma Rpower_half_decreasing (x y : R) :
  (x < y)%R -> (Rpower 0.5 y < Rpower 0.5 x)%R.
Proof.
  intro H. unfold Rpower. apply exp_increasing.
  pose proof ln_half_neg. Lra.nra.
Qed.

Lemma decayFactor_seeded (d : Z) :
  0 <= d <= MAX_DAYS ->
  decayFactor (seedDecayLookup []) d = Some (Rpower 0.5 (IZR d / HALF_LIFE)).
Proof.
  intro H. unfold decayFactor, seedDecayLookup. rewrite find_createMany.
  change (find (fun e : Z * R => fst e =? d) []) with (@None (Z * R)).
  lazy beta iota. unfold entries. rewrite find_tabulate; [reflexivity|].
  unfold MAX_DAYS in *. lia.
Qed.

End DecayFacts.

(** C9.  Seeded into an empty table, the decay table holds
    0.5 ^ (d / 365.242374) for every integer d from 0 to 10000, the powers
    being real powers; so the factor of day 0 is 1 and the factors do not
    grow with the number of days. *)
Theorem seedDecayLookup_factors :
  (forall d : Z,
      0 <= d <= 10000 ->
      SeedDecayLookup.decayFactor (SeedDecayLookup.seedDecayLookup []) d
      = Some (Rpower 0.5 (IZR d / 365.242374)))
  /\ SeedDecayLookup.decayFactor (SeedDecayLookup.seedDecayLookup []) 0 = Some 1%R
  /\ (forall (d1 d2 : Z) (f1 f2 : R),
         0 <= d1 < d2 -> d2 <= 10000 ->
         SeedDecayLookup.decayFactor (SeedDecayLookup.seedDecayLookup []) d1 = Some f1 ->
         SeedDecayLookup.decayFactor (SeedDecayLookup.seedDecayLookup []) d2 = Some f2 ->
         (f1 >= f2)%R).
Proof.
  split; [|split].
  - intros d H. now apply DecayFacts.decayFactor_seeded.
  - rewrite DecayFacts.decayFactor_seeded by (unfold SeedDecayLookup.MAX_DAYS; lia).
    f_equal. unfold Rdiv. rewrite Rmult_0_l. apply Rpower_O. Lra.lra.
  - intros d1 d2 f1 f2 H12 H2 E1 E2.
    rewrite DecayFacts.decayFactor_seeded in E1, E2
      by (unfold SeedDecayLookup.MAX_DAYS; lia).
    injection E1 as <-. injection E2 as <-.
    apply Rle_ge, Rlt_le, DecayFacts.Rpower_half_decreasing.
    pose proof DecayFacts.half_life_pos.
    apply Rmult_lt_compat_r; [now apply Rinv_0_lt_compat|].
    apply IZR_lt. lia.
Qed.

Lemma seedDecayLookup_factors_witness :
  SeedDecayLookup.decayFactor (SeedDecayLookup.seedDecayLookup []) 365
  = Some (Rpower 0.5 (IZR 365 / 365.242374))
  /\ (Rpower 0.5 (IZR 0 / 365.242374) >= Rpower 0.5 (IZR 365 / 365.242374))%R.
Proof.
  split.
  - apply (proj1 seedDecayLookup_factors 365). lia.
  - apply (proj2 (proj2 seedDecayLookup_factors) 0 365).
    + lia.
    + lia.
    + apply (proj1 seedDecayLookup_factors 0). lia.
    + apply (proj1 seedDecayLookup_factors 365). lia.
Defined.

(** ** Calendar arithmetic *)

Module DateFacts.
Import DateUtils Spec.

Lemma yoe_bounds (doe : Z) :
  0 <= doe < 146097 ->
  let yoe := (doe - doe / 1460 + doe / 36524 - doe / 146096) / 365 in
  0 <= yoe <= 399 /\ 0 <= doe - (365 * yoe + yoe / 4 - yoe / 100) <= 365.
Proof. intros H yoe. subst yoe. Z.div_mod_to_equations; lia. Qed.

Lemma doy_bounds (doy : Z) :
  0 <= doy <= 365 ->
  let mp := (5 * doy + 2) / 153 in
  0 <= mp <= 11 /\ 1 <= doy - (153 * mp + 2) / 5 + 1 <= 31.
Proof. intros H mp. subst mp. Z.div_mod_to_equations; lia. Qed.

Lemma yoe_inverse (yoe doy : Z) :
  0 <= yoe <= 399 -> 0 <= doy <= 364 ->
  let doe := yoe * 365 + yoe / 4 - yoe / 100 + doy in
  (doe - doe / 1460 + doe / 36524 - doe / 146096) / 365 = yoe.
Proof. intros H1 H2 doe. subst doe. Z.div_mod_to_equations; lia. Qed.

Lemma mp_inverse (mp : Z) :
  0 <= mp <= 11 -> (5 * ((153 * mp + 2) / 5) + 2) / 153 = mp.
Proof. intros H. Z.div_mod_to_equations; lia. Qed.

(** Going from a day number to a civil date and back gives the day
    number; the civil date has a month in 1..12 and a day in 1..31. *)
Lemma civil_from_days_spec (z : Z) :
  exists y m d,
    civil_from_days z = (y, m, d)
    /\ days_from_civil y m d = z /\ 1 <= m <= 12 /\ 1 <= d <= 31.
Proof.
  unfold civil_from_days.
  set (z' := z + 719468). set (era := z' / 146097). set (doe := z' - era * 146097).
  assert (Hdoe : 0 <= doe < 146097) by (subst doe era; Z.div_mod_to_equations; lia).
  destruct (yoe_bounds doe Hdoe) as [Hyoe Hdoy]. cbv zeta in Hyoe, Hdoy.
  set (yoe := (doe - doe / 1460 + doe / 36524 - doe / 146096) / 365) in *.
  set (doy := doe - (365 * yoe + yoe / 4 - yoe / 100)) in *.
  destruct (doy_bounds doy Hdoy) as [Hmp Hd]. cbv zeta in Hmp, Hd.
  set (mp := (5 * doy + 2) / 153) in *.
  set (d := doy - (153 * mp + 2) / 5 + 1) in *.
  set (m := if mp <? 10 then mp + 3 else mp - 9).
  assert (Hm : 1 <= m <= 12 /\ (m + 9) mod 12 = mp).
  { subst m. destruct (Z.ltb_spec mp 10); split; try lia; Z.div_mod_to_equations; lia. }
  destruct Hm as [Hm Hmp'].
  eexists _, m, d. split; [reflexivity|].
  split; [|split; [exact Hm|exact Hd]].
  unfold days_from_civil. rewrite Hmp'.
  replace (if m <=? 2 then (if m <=? 2 then yoe + era * 400 + 1 else yoe + era * 400) - 1
           else if m <=? 2 then yoe + era * 400 + 1 else yoe + era * 400)
    with (yoe + era * 400) by (destruct (m <=? 2); lia).
  replace ((yoe + era * 400) / 400) with era by (Z.div_mod_to_equations; lia).
  replace (yoe + era * 400 - era * 400) with yoe by lia.
  subst d doy doe z'. lia.
Qed.

Lemma days_from_civil_day (y m d : Z) :
  days_from_civil y m d = days_from_civil y m 1 + d - 1.
Proof. unfold days_from_civil. lia. Qed.

(** The year that starts in March has a 366th day only when the next
    calendar year is a leap year. *)
Lemma doy_leap (doe : Z) :
  0 <= doe < 146097 ->
  let yoe := (doe - doe / 1460 + doe / 36524 - doe / 146096) / 365 in
  doe - (365 * yoe + yoe / 4 - yoe / 100) = 365 ->
  (yoe + 1) mod 4 = 0 /\ ((yoe + 1) mod 100 <> 0 \/ yoe = 399).
Proof. intros H yoe. subst yoe. Z.div_mod_to_equations. lia. Qed.

(** The length of the months counted from March, February apart. *)
Lemma month_length (doy : Z) :
  0 <= doy <= 365 ->
  let mp := (5 * doy + 2) / 153 in
  let d := doy - (153 * mp + 2) / 5 + 1 in
  (mp = 11 -> d = doy - 336)
  /\ (mp = 1 \/ mp = 3 \/ mp = 6 \/ mp = 8 -> d <= 30).
Proof. intros H mp d. subst d mp. Z.div_mod_to_equations. lia. Qed.

(** The civil date of a day number is a date of the calendar: its day
    exists in its month. *)
Lemma civil_from_days_valid (z : Z) :
  exists y m d,
    civil_from_days z = (y, m, d)
    /\ 1 <= m <= 12 /\ 1 <= d <= days_in_month y m.
Proof.
  unfold civil_from_days.
  set (z' := z + 719468). set (era := z' / 146097). set (doe := z' - era * 146097).
  assert (Hdoe : 0 <= doe < 146097) by (subst doe era; Z.div_mod_to_equations; lia).
  destruct (yoe_bounds doe Hdoe) as [Hyoe Hdoy]. cbv zeta in Hyoe, Hdoy.
  pose proof (doy_leap doe Hdoe) as Hleap. cbv zeta in Hleap.
  set (yoe := (doe - doe / 1460 + doe / 36524 - doe / 146096) / 365) in *.
  set (doy := doe - (365 * yoe + yoe / 4 - yoe / 100)) in *.
  destruct (doy_bounds doy Hdoy) as [Hmp Hd]. cbv zeta in Hmp, Hd.
  destruct (month_length doy Hdoy) as [Hfeb H30]. cbv zeta in Hfeb, H30.
  set (mp := (5 * doy + 2) / 153) in *.
  set (d := doy - (153 * mp + 2) / 5 + 1) in *.
  set (m := if mp <? 10 then mp + 3 else mp - 9).
  assert (Hm : 1 <= m <= 12 /\ (mp < 10 -> m = mp + 3) /\ (10 <= mp -> m = mp - 9)).
  { subst m. destruct (Z.ltb_spec mp 10); lia. }
  destruct Hm as (Hm & Hm1 & Hm2).
  eexists _, m, d. split; [reflexivity|]. split; [exact Hm|]. split; [lia|].
  unfold days_in_month.
  destruct (Z.eqb_spec m 2) as [E2|E2].
  - assert (Emp : mp = 11) by lia. specialize (Hfeb Emp).
    replace (m <=? 2) with true by (symmetry; apply Z.leb_le; lia).
    destruct (is_leap (yoe + era * 400 + 1)) eqn:El; [lia|].
    destruct (Z.eq_dec doy 365) as [E365|]; [|lia].
    destruct (Hleap E365) as [H4 H100]. exfalso.
    unfold is_leap in El. apply orb_false_iff in El. destruct El as [El1 El2].
    apply Z.eqb_neq in El2.
    assert (E4 : (yoe + era * 400 + 1) mod 4 = 0) by (Z.div_mod_to_equations; lia).
    rewrite E4 in El1. cbn [Z.eqb andb] in El1. apply negb_false_iff, Z.eqb_eq in El1.
    revert El1 El2 E4 H4 H100 Hyoe. clear. intros. Z.div_mod_to_equations. lia.
  - destruct ((m =? 4) || (m =? 6) || (m =? 9) || (m =? 11)) eqn:E30; [|lia].
    apply H30. repeat rewrite orb_true_iff in E30. rewrite !Z.eqb_eq in E30. lia.
Qed.

(** Two years earlier in the calendar, the day of the month is the same
    but for 29 February, which becomes 28 February. *)
Lemma days_in_month_two_years_before (y m d : Z) :
  1 <= m <= 12 -> 1 <= d <= days_in_month y m ->
  Z.min d (days_in_month (y - 2) m) = if (m - 1 =? 1) && (d =? 29) then 28 else d.
Proof.
  intros Hm. unfold days_in_month.
  destruct (Z.eqb_spec m 2) as [->|E2]; intro Hd.
  - change (2 - 1 =? 1) with true. cbn [andb].
    assert (Hl : is_leap y = true -> is_leap (y - 2) = false).
    { unfold is_leap. rewrite !orb_true_iff, !orb_false_iff, !andb_true_iff,
        !andb_false_iff, !negb_true_iff, !negb_false_iff, !Z.eqb_eq, !Z.eqb_neq.
      intros. Z.div_mod_to_equations. lia. }
    destruct (Z.eqb_spec d 29) as [->|E29].
    + destruct (is_leap y); [|lia]. rewrite (Hl eq_refl). reflexivity.
    + destruct (is_leap y), (is_leap (y - 2)); lia.
  - replace (m - 1 =? 1) with false by (symmetry; apply Z.eqb_neq; lia).
    cbn [andb]. destruct ((m =? 4) || (m =? 6) || (m =? 9) || (m =? 11)); lia.
Qed.

(** [ref - INTERVAL '2 years'] is the instant two years before [ref]. *)
Lemma minus_years_two (ref : Date) :
  minus_years ref 2 = TopicSpec.two_years_before ref.
Proof.
  unfold minus_years, TopicSpec.two_years_before, getUTCFullYear, getUTCMonth, getUTCDate.
  destruct (civil_from_days_valid (Day ref)) as (y & m & d & -> & Hm & Hd).
  rewrite (days_in_month_two_years_before y m d Hm Hd).
  unfold MakeDay.
  replace ((m - 1) / 12) with 0 by (Z.div_mod_to_equations; lia).
  replace ((m - 1) mod 12 + 1) with m by (Z.div_mod_to_equations; lia).
  rewrite Z.add_0_r. f_equal.
  rewrite (days_from_civil_day (y - 2) m (if (m - 1 =? 1) && (d =? 29) then 28 else d)).
  lia.
Qed.

(** The first day of a month, as a day number, is read back as that day. *)
Lemma civil_of_first (y m : Z) :
  1 <= m <= 12 -> civil_from_days (days_from_civil y m 1) = (y, m, 1).
Proof.
  intro Hm. unfold days_from_civil.
  set (y' := if m <=? 2 then y - 1 else y).
  set (era := y' / 400). set (yoe := y' - era * 400).
  set (mp := (m + 9) mod 12).
  assert (Hyoe : 0 <= yoe <= 399) by (subst yoe era; Z.div_mod_to_equations; lia).
  assert (Hmp : 0 <= mp <= 11) by (subst mp; Z.div_mod_to_equations; lia).
  set (doy := (153 * mp + 2) / 5 + 1 - 1).
  assert (Hdoy : 0 <= doy <= 364) by (subst doy; Z.div_mod_to_equations; lia).
  pose proof (yoe_inverse yoe doy Hyoe Hdoy) as Hinv. cbv zeta in Hinv.
  set (doe := yoe * 365 + yoe / 4 - yoe / 100 + doy) in *.
  assert (Hdoe : 0 <= doe < 146097) by (subst doe; Z.div_mod_to_equations; lia).
  unfold civil_from_days.
  replace (era * 146097 + doe - 719468 + 719468) with (doe + era * 146097) by lia.
  replace ((doe + era * 146097) / 146097) with era by (Z.div_mod_to_equations; lia).
  replace (doe + era * 146097 - era * 146097) with doe by lia.
  rewrite Hinv.
  replace (doe - (365 * yoe + yoe / 4 - yoe / 100)) with doy by (subst doe; lia).
  assert (Hmp2 : (5 * doy + 2) / 153 = mp).
  { subst doy. replace ((153 * mp + 2) / 5 + 1 - 1) with ((153 * mp + 2) / 5) by lia.
    now apply mp_inverse. }
  rewrite Hmp2.
  assert (Hm2 : (if mp <? 10 then mp + 3 else mp - 9) = m).
  { subst mp. destruct (Z.ltb_spec ((m + 9) mod 12) 10); Z.div_mod_to_equations; lia. }
  rewrite Hm2. f_equal; [f_equal|].
  - subst yoe y'. destruct (m <=? 2); lia.
  - subst doy. lia.
Qed.

Lemma Day_MakeDate (day : Z) : Day (MakeDate day 0) = day.
Proof. unfold Day, MakeDate, msPerDay. rewrite Z.add_0_r. now apply Z.div_mul. Qed.

Lemma TimeWithinDay_MakeDate (day : Z) : TimeWithinDay (MakeDate day 0) = 0.
Proof. unfold TimeWithinDay, MakeDate, msPerDay. rewrite Z.add_0_r. now apply Z.mod_mul. Qed.

Lemma Day_le (t : Date) : MakeDate (Day t) 0 <= t.
Proof. unfold MakeDate, Day, msPerDay. Z.div_mod_to_equations. lia. Qed.

(** [MakeDay] at the year and month of [t] counts days from the first of
    the month of [t]. *)
Lemma MakeDay_current (t : Date) (dt : Z) :
  MakeDay (getUTCFullYear t) (getUTCMonth t) dt = Day t + dt - getUTCDate t.
Proof.
  unfold getUTCFullYear, getUTCMonth, getUTCDate, MakeDay.
  destruct (civil_from_days_spec (Day t)) as (y & m & d & -> & Hz & Hm & Hd).
  replace ((m - 1) / 12) with 0 by (Z.div_mod_to_equations; lia).
  replace ((m - 1) mod 12 + 1) with m by (Z.div_mod_to_equations; lia).
  rewrite Z.add_0_r. rewrite (days_from_civil_day y m d) in Hz. lia.
Qed.

Lemma setUTCDate_add (t : Date) (k : Z) :
  setUTCDate t (getUTCDate t + k) = t + k * msPerDay.
Proof.
  unfold setUTCDate. rewrite MakeDay_current.
  unfold MakeDate, Day, TimeWithinDay, msPerDay. Z.div_mod_to_equations. lia.
Qed.

(** [getConsistentDateForDB] is midnight of a first of the month ... *)
Lemma getConsistentDateForDB_midnight (t : Date) :
  TimeWithinDay (getConsistentDateForDB t) = 0.
Proof. unfold getConsistentDateForDB, DateUTC. apply TimeWithinDay_MakeDate. Qed.

Lemma getUTCMonth_range (t : Date) : 0 <= getUTCMonth t <= 11.
Proof.
  unfold getUTCMonth.
  destruct (civil_from_days_spec (Day t)) as (y & m & d & -> & _ & Hm & _). lia.
Qed.

(** ... of the month of the date it is given, and not after that date,
    unless [Date.UTC] reads the year as a two-digit year. *)
Lemma getConsistentDateForDB_first (t : Date) :
  ~ 0 <= getUTCFullYear t <= 99 ->
  getUTCFullYear (getConsistentDateForDB t) = getUTCFullYear t
  /\ getUTCMonth (getConsistentDateForDB t) = getUTCMonth t
  /\ getUTCDate (getConsistentDateForDB t) = 1
  /\ getConsistentDateForDB t <= t.
Proof.
  intro Hy. unfold getConsistentDateForDB, DateUTC.
  replace ((0 <=? getUTCFullYear t) && (getUTCFullYear t <=? 99)) with false
    by (symmetry; apply andb_false_iff;
        destruct (Z.leb_spec 0 (getUTCFullYear t)); [right; apply Z.leb_gt; lia | now left]).
  assert (Hle : MakeDate (MakeDay (getUTCFullYear t) (getUTCMonth t) 1) 0 <= t).
  { rewrite MakeDay_current. pose proof (Day_le t) as Hd.
    assert (1 <= getUTCDate t).
    { unfold getUTCDate.
      destruct (civil_from_days_spec (Day t)) as (y & m & d & -> & _ & _ & ?). lia. }
    unfold MakeDate, msPerDay in *. lia. }
  split; [|split; [|split; [|exact Hle]]];
    unfold getUTCFullYear, getUTCMonth, getUTCDate; rewrite Day_MakeDate;
    unfold MakeDay;
    destruct (civil_from_days_spec (Day t)) as (y & m & d & -> & _ & Hm & _);
    replace ((m - 1) / 12) with 0 by (Z.div_mod_to_equations; lia);
    replace ((m - 1) mod 12 + 1) with m by (Z.div_mod_to_equations; lia);
    rewrite Z.add_0_r; replace (days_from_civil y m 1 + 1 - 1) with (days_from_civil y m 1)
      by lia;
    now rewrite (civil_of_first y m Hm).
Qed.

(** What holds of the first date and is kept by the step holds of every
    date a generator returns. *)
Lemma sequence_loop_Forall (P : Date -> Prop) (advance : Date -> Date)
      (fuel : nat) (currentDate endDate : Date) :
  P currentDate -> (forall c, P c -> P (advance c)) ->
  Forall P (sequence_loop advance fuel currentDate endDate).
Proof.
  intros H0 Hstep. revert currentDate H0.
  induction fuel as [|fuel IH]; intros c Hc; simpl; [constructor|].
  destruct (c <=? endDate); [|constructor].
  constructor; [exact Hc|]. apply IH. now apply Hstep.
Qed.

Lemma generateMondaySequence_mondays (startDate endDate : Date) :
  Forall monday_midnight (generateMondaySequence startDate endDate).
Proof.
  unfold generateMondaySequence. apply sequence_loop_Forall.
  - unfold monday_midnight.
    assert (H0 : TimeWithinDay (setUTCHours0 startDate) = 0)
      by apply TimeWithinDay_MakeDate.
    destruct (Z.eqb_spec (getUTCDay (setUTCHours0 startDate)) 1) as [E|E]; [auto|].
    rewrite setUTCDate_add. revert E H0.
    unfold getUTCDay, TimeWithinDay, Day, msPerDay.
    set (c := setUTCHours0 startDate).
    destruct (Z.eqb_spec ((c / 86400000 + 4) mod 7) 0) as [E0|E0]; intros E H0;
      Z.div_mod_to_equations; lia.
  - intros c [Hd Ht]. rewrite setUTCDate_add. revert Hd Ht.
    unfold monday_midnight, getUTCDay, TimeWithinDay, Day, msPerDay.
    intros; Z.div_mod_to_equations; lia.
Qed.

End DateFacts.

(** ** [ON CONFLICT ... DO UPDATE] *)

Module UpsertFacts.
Import Sql.

Section Keyed.
Context {K : Type} (eqb : K -> K -> bool).
Hypothesis eqb_eq : forall a b, eqb a b = true <-> a = b.

Lemma eqb_refl (a : K) : eqb a a = true.
Proof. now apply eqb_eq. Qed.

Lemma has_key_In {V} (k : K) (rows : list (K * V)) :
  has_key eqb k rows = true <-> In k (map fst rows).
Proof.
  unfold has_key. rewrite existsb_exists, in_map_iff. split.
  - intros [r [Hr He]]. apply eqb_eq in He. eauto.
  - intros [r [He Hr]]. exists r. split; [exact Hr|]. now apply eqb_eq.
Qed.

Lemma distinct_keys_NoDup {V} (rows : list (K * V)) :
  distinct_keys eqb rows = true <-> NoDup (map fst rows).
Proof.
  induction rows as [|r rows IH]; simpl.
  - split; [constructor | reflexivity].
  - rewrite andb_true_iff, negb_true_iff, IH. split.
    + intros [H1 H2]. constructor; [|exact H2].
      intro Hin. apply has_key_In in Hin. congruence.
    + intro H. inversion H as [|? ? Hn Hd]; subst. split; [|exact Hd].
      destruct (has_key eqb (fst r) rows) eqn:E; [|reflexivity].
      apply has_key_In in E. contradiction.
Qed.

(** The keys of a table after one upsert. *)
Lemma upsert_keys (k : K) (v : Q) (t : list (K * Q)) :
  map fst (upsert eqb k v t)
  = if has_key eqb k t then map fst t else map fst t ++ [k].
Proof.
  induction t as [|r t IH]; simpl; [reflexivity|].
  destruct (eqb k (fst r)) eqn:E; simpl; [reflexivity|].
  rewrite IH. unfold has_key. now destruct (existsb _ t).
Qed.

Lemma upsert_NoDup (k : K) (v : Q) (t : list (K * Q)) :
  NoDup (map fst t) -> NoDup (map fst (upsert eqb k v t)).
Proof.
  intro H. rewrite upsert_keys. destruct (has_key eqb k t) eqn:E; [exact H|].
  apply NoDup_app; [exact H | repeat constructor; intros [] |].
  intros x Hx [<-|[]].
  apply has_key_In in Hx. congruence.
Qed.

Lemma lookup_upsert_same (k : K) (v : Q) (t : list (K * Q)) :
  lookup eqb k (upsert eqb k v t) = Some v.
Proof.
  unfold lookup. induction t as [|r t IH]; simpl.
  - now rewrite eqb_refl.
  - destruct (eqb k (fst r)) eqn:E; simpl; rewrite E; [reflexivity | exact IH].
Qed.

Lemma lookup_upsert_other (k k' : K) (v : Q) (t : list (K * Q)) :
  k' <> k -> lookup eqb k' (upsert eqb k v t) = lookup eqb k' t.
Proof.
  intro Hne. unfold lookup. induction t as [|r t IH]; simpl.
  - destruct (eqb k' k) eqn:E; [apply eqb_eq in E; contradiction | reflexivity].
  - destruct (eqb k (fst r)) eqn:E; simpl.
    + apply eqb_eq in E. subst k.
      destruct (eqb k' (fst r)) eqn:E'; [apply eqb_eq in E'; contradiction|reflexivity].
    + destruct (eqb k' (fst r)); [reflexivity | exact IH].
Qed.

(** A row of the table after an upsert is a row it had or the upserted
    one. *)
Lemma upsert_In (k : K) (v : Q) (t : list (K * Q)) (r : K * Q) :
  In r (upsert eqb k v t) -> In r t \/ r = (k, v).
Proof.
  induction t as [|r0 t IH]; simpl.
  - intros [<-|[]]. now right.
  - destruct (eqb k (fst r0)) eqn:E; simpl.
    + intros [<-|H]; [right | left; now right].
      apply eqb_eq in E. now subst k.
    + intros [<-|H]; [left; now left|].
      destruct (IH H); [left; now right | now right].
Qed.

Lemma upsert_rows_NoDup (rows : list (K * option Q)) (t t' : list (K * Q)) :
  upsert_rows eqb rows t = Some t' -> NoDup (map fst t) -> NoDup (map fst t').
Proof.
  revert t. induction rows as [|[k [v|]] rows IH]; intros t H Hn; simpl in H.
  - now injection H as <-.
  - eapply IH; [exact H|]. now apply upsert_NoDup.
  - discriminate.
Qed.

Lemma upsert_rows_In (rows : list (K * option Q)) (t t' : list (K * Q)) (r : K * Q) :
  upsert_rows eqb rows t = Some t' -> In r t' ->
  In r t \/ In (fst r, Some (snd r)) rows.
Proof.
  revert t. induction rows as [|[k [v|]] rows IH]; intros t H Hin; simpl in H.
  - injection H as <-. now left.
  - destruct (IH _ H Hin) as [H1|H1]; [|right; now right].
    destruct (upsert_In _ _ _ _ H1) as [H2| ->]; [now left | right; now left].
  - discriminate.
Qed.

Lemma upsert_rows_lookup_other (rows : list (K * option Q)) (t t' : list (K * Q)) (k : K) :
  upsert_rows eqb rows t = Some t' -> ~ In k (map fst rows) ->
  lookup eqb k t' = lookup eqb k t.
Proof.
  revert t. induction rows as [|[k0 [v|]] rows IH]; intros t H Hn; simpl in H.
  - now injection H as <-.
  - rewrite (IH _ H) by (intro; apply Hn; now right).
    apply lookup_upsert_other. intros ->. apply Hn. now left.
  - discriminate.
Qed.

(** After the statement every selected row is in the table with the
    selected value. *)
Lemma insert_on_conflict_update_lookup (rows : list (K * option Q))
      (t t' : list (K * Q)) (k : K) (v : option Q) :
  insert_on_conflict_update eqb rows t = Some t' -> In (k, v) rows ->
  lookup eqb k t' = v /\ v <> None.
Proof.
  unfold insert_on_conflict_update.
  destruct (distinct_keys eqb rows) eqn:D; [|discriminate].
  apply distinct_keys_NoDup in D. revert t D.
  induction rows as [|[k0 v0] rows IH]; intros t D H Hin; [destruct Hin|].
  simpl in D. inversion D as [|? ? Hn Hd]; subst.
  simpl in H. destruct v0 as [v0|]; [|discriminate].
  destruct Hin as [Heq|Hin].
  - injection Heq as <- <-. split; [|discriminate].
    rewrite (upsert_rows_lookup_other _ _ _ _ H Hn). apply lookup_upsert_same.
  - eapply IH; eauto.
Qed.

Lemma insert_on_conflict_update_NoDup (rows : list (K * option Q))
      (t t' : list (K * Q)) :
  insert_on_conflict_update eqb rows t = Some t' ->
  NoDup (map fst t) -> NoDup (map fst t').
Proof.
  unfold insert_on_conflict_update.
  destruct (distinct_keys eqb rows); [apply upsert_rows_NoDup | discriminate].
Qed.

Lemma insert_on_conflict_update_In (rows : list (K * option Q))
      (t t' : list (K * Q)) (r : K * Q) :
  insert_on_conflict_update eqb rows t = Some t' -> In r t' ->
  In r t \/ In (fst r, Some (snd r)) rows.
Proof.
  unfold insert_on_conflict_update.
  destruct (distinct_keys eqb rows); [apply upsert_rows_In | discriminate].
Qed.

(** In a table with unique keys, the row found for a key is the only
    row with that key. *)
Lemma lookup_unique (t : list (K * Q)) (k : K) (v : Q) :
  NoDup (map fst t) -> lookup eqb k t = Some v ->
  filter (fun r => eqb k (fst r)) t = [(k, v)].
Proof.
  unfold lookup. induction t as [|r t IH]; intros Hn H; simpl in *; [discriminate|].
  inversion Hn as [|? ? Hnot Hd]; subst.
  destruct (eqb k (fst r)) eqn:E.
  - injection H as <-. apply eqb_eq in E. subst k.
    destruct r as [k v]. simpl in *. f_equal.
    destruct (filter (fun r => eqb k (fst r)) t) as [|r' l] eqn:F; [reflexivity|].
    exfalso. apply Hnot.
    assert (Hr : In r' (filter (fun r => eqb k (fst r)) t)) by (rewrite F; now left).
    apply filter_In in Hr. destruct Hr as [Hr He]. apply eqb_eq in He. subst k.
    now apply in_map.
  - now apply IH.
Qed.

End Keyed.

Import SnapshotGeneration.

Lemma key2_eqb_eq (a b : Z * DateUtils.Date) : key2_eqb a b = true <-> a = b.
Proof.
  destruct a as [a1 a2], b as [b1 b2]. unfold key2_eqb. simpl.
  rewrite andb_true_iff, !Z.eqb_eq. split; [intros [-> ->]; reflexivity|].
  intro H. now injection H.
Qed.

Lemma key3_eqb_eq (a b : Z * Z * DateUtils.Date) : key3_eqb a b = true <-> a = b.
Proof.
  destruct a as [[a1 a2] a3], b as [[b1 b2] b3]. unfold key3_eqb. simpl.
  rewrite !andb_true_iff, !Z.eqb_eq. split; [intros [[-> ->] ->]; reflexivity|].
  intro H. now injection H.
Qed.

End UpsertFacts.

(** ** The transactions of the snapshot generator *)

Module GeneratorFacts.
Import Sql DateUtils SnapshotGeneration UpsertFacts.

(** *** Sequencing *)

Section Sequencing.
Variable R : DB -> DB -> Prop.
Hypothesis R_refl : forall db, R db db.
Hypothesis R_trans : forall a b c, R a b -> R b c -> R a c.

Lemma run_transactions_rel (txs : list (DB -> option DB)) (db : DB) :
  (forall tx a b, In tx txs -> tx a = Some b -> R a b) ->
  R db (fst (run_transactions txs db)).
Proof.
  unfold run_transactions. intro H.
  assert (G : forall acc : DB * bool,
             R db (fst acc) ->
             R db (fst (fold_left
                          (fun (acc : DB * bool) (tx : DB -> option DB) =>
                             if snd acc
                             then match tx (fst acc) with
                                  | Some db' => (db', true)
                                  | None => (fst acc, false)
                                  end
                             else acc) txs acc))).
  { induction txs as [|tx txs IH]; intros acc Hacc; simpl; [exact Hacc|].
    apply IH; [intros; eapply H; [right|]; eauto|].
    destruct (snd acc); [|exact Hacc].
    destruct (tx (fst acc)) as [db'|] eqn:E; simpl; [|exact Hacc].
    eapply R_trans; [exact Hacc|]. eapply H; [now left | exact E]. }
  apply G. apply R_refl.
Qed.

Lemma retry_loop_rel (attempts : nat) (body : DB -> DB * bool) (db : DB) :
  (forall a, R a (fst (body a))) -> R db (fst (retry_loop attempts body db)).
Proof.
  intro H. revert db. induction attempts as [|n IH]; intro db; simpl.
  - apply R_refl.
  - destruct (snd (body db)); [apply H|].
    eapply R_trans; [apply H | apply IH].
Qed.
End Sequencing.

(** Three transactions all of which commit. *)
Lemma run_three (tx1 tx2 tx3 : DB -> option DB) (db db' : DB) :
  run_transactions [tx1; tx2; tx3] db = (db', true) ->
  exists a b, tx1 db = Some a /\ tx2 a = Some b /\ tx3 b = Some db'.
Proof.
  unfold run_transactions. simpl.
  destruct (tx1 db) as [a|] eqn:E1; simpl; [|discriminate].
  destruct (tx2 a) as [b|] eqn:E2; simpl; [|discriminate].
  destruct (tx3 b) as [c|] eqn:E3; simpl; [|discriminate].
  intro H. injection H as <-. exists a, b. auto.
Qed.

(** *** The dates of the rows each transaction selects *)

Lemma historical_publication_rows_date (db : DB) (historicalDate : Date)
      (publications : list (Z * Date)) (k : Z * Date) (v : option Q) :
  In (k, v) (historical_publication_rows db historicalDate publications) ->
  snd k = getConsistentDateForDB historicalDate.
Proof.
  unfold historical_publication_rows. intro H. apply in_map_iff in H.
  destruct H as [r [Hr _]]. now injection Hr as <- _.
Qed.

Lemma publication_rows_date (db : DB) (snapshotDate : Date) (k : Z * Date) (v : option Q) :
  In (k, v) (publication_rows db snapshotDate) ->
  snd k = getConsistentDateForDB snapshotDate.
Proof.
  unfold publication_rows. intro H. apply in_flat_map in H.
  destruct H as [p [_ H]]. destruct (le_null _ _); [|destruct H].
  destruct H as [H|[]]. now injection H as <- _.
Qed.

Lemma topic_rows_date (wps : list WeightedPublication) (consistentDate : Date)
      (k : Z * Date) (v : option Q) :
  In (k, v) (topic_rows wps consistentDate) -> snd k = consistentDate.
Proof.
  unfold topic_rows. intro H. apply in_map_iff in H.
  destruct H as [t [Hr _]]. now injection Hr as <- _.
Qed.

Lemma historical_user_topic_rows_date (huwp : list HistoricalUserWeighted)
      (consistentDate : Date) (k : Z * Z * Date) (v : option Q) :
  In (k, v) (historical_user_topic_rows huwp consistentDate) -> snd k = consistentDate.
Proof.
  unfold historical_user_topic_rows, not_null_rows. intro H.
  apply filter_In in H. destruct H as [H _]. apply in_map_iff in H.
  destruct H as [t [Hr _]]. now injection Hr as <- _.
Qed.

Lemma historical_user_overall_rows_date (huwp : list HistoricalUserWeighted)
      (consistentDate : Date) (k : Z * Date) (v : option Q) :
  In (k, v) (historical_user_overall_rows huwp consistentDate) -> snd k = consistentDate.
Proof.
  unfold historical_user_overall_rows, not_null_rows. intro H.
  apply filter_In in H. destruct H as [H _]. apply in_map_iff in H.
  destruct H as [t [Hr _]]. now injection Hr as <- _.
Qed.

Lemma written_refl (stored : Date) (db : DB) : written_with_date stored db db.
Proof. repeat split; intros; now left. Qed.

Lemma written_trans (stored : Date) (a b c : DB) :
  written_with_date stored a b -> written_with_date stored b c ->
  written_with_date stored a c.
Proof.
  intros (H1 & H2 & H3 & H4) (G1 & G2 & G3 & G4).
  repeat split; intros r Hr.
  - destruct (G1 r Hr); [apply H1 | right]; assumption.
  - destruct (G2 r Hr); [apply H2 | right]; assumption.
  - destruct (G3 r Hr); [apply H3 | right]; assumption.
  - destruct (G4 r Hr); [apply H4 | right]; assumption.
Qed.

Lemma historical_publication_tx_written (D : Date) (pubs : list (Z * Date)) (a b : DB) :
  historical_publication_tx D pubs a = Some b ->
  written_with_date (getConsistentDateForDB D) a b.
Proof.
  unfold historical_publication_tx. intro H.
  destruct (insert_on_conflict_update key2_eqb _ _) as [t|] eqn:E; [|discriminate].
  injection H as <-. repeat split; simpl; intros r Hr; try (now left).
  destruct (insert_on_conflict_update_In _ key2_eqb_eq _ _ _ _ E Hr) as [?|Hsel]; [now left|right].
  exact (historical_publication_rows_date _ _ _ _ _ Hsel).
Qed.

Lemma historical_topic_tx_written (D : Date) (a b : DB) :
  calculateEnhancedHistoricalTopicAverages D a = Some b ->
  written_with_date (getConsistentDateForDB D) a b.
Proof.
  unfold calculateEnhancedHistoricalTopicAverages. intro H.
  destruct (latest_snapshot_date a _) as [psd|];
    [|injection H as <-; apply written_refl].
  destruct (insert_on_conflict_update key2_eqb _ _) as [t|] eqn:E; [|discriminate].
  injection H as <-. repeat split; simpl; intros r Hr; try (now left).
  destruct (insert_on_conflict_update_In _ key2_eqb_eq _ _ _ _ E Hr) as [?|Hsel]; [now left|right].
  exact (topic_rows_date _ _ _ _ Hsel).
Qed.

Lemma historical_user_tx_written (D : Date) (a b : DB) :
  processHistoricalUserSnapshots D a = Some b ->
  written_with_date (getConsistentDateForDB D) a b.
Proof.
  unfold processHistoricalUserSnapshots. intro H.
  destruct (latest_snapshot_date a _) as [psd|];
    [|injection H as <-; apply written_refl].
  destruct (insert_on_conflict_update key3_eqb _ _) as [t3|] eqn:E3; [|discriminate].
  destruct (insert_on_conflict_update key2_eqb _ _) as [t2|] eqn:E2; [|discriminate].
  injection H as <-. repeat split; simpl; intros r Hr; try (now left).
  - destruct (insert_on_conflict_update_In _ key3_eqb_eq _ _ _ _ E3 Hr) as [?|Hsel]; [now left|right].
    exact (historical_user_topic_rows_date _ _ _ _ Hsel).
  - destruct (insert_on_conflict_update_In _ key2_eqb_eq _ _ _ _ E2 Hr) as [?|Hsel]; [now left|right].
    exact (historical_user_overall_rows_date _ _ _ _ Hsel).
Qed.

Lemma createHistoricalSnapshots_written (D : Date) (pubs : list (Z * Date)) (db : DB) :
  written_with_date (getConsistentDateForDB D) db
                    (fst (createHistoricalSnapshots D pubs db)).
Proof.
  unfold createHistoricalSnapshots.
  apply retry_loop_rel; [apply written_refl | apply written_trans |].
  intro a. apply run_transactions_rel; [apply written_refl | apply written_trans |].
  intros tx x y [<-|[<-|[<-|[]]]] H.
  - eapply historical_publication_tx_written; eauto.
  - now apply historical_topic_tx_written.
  - now apply historical_user_tx_written.
Qed.

End GeneratorFacts.

Import DateUtils SnapshotGeneration.

(** C4 fails as stated: in the weekly backfill from 2024-01-30 to
    2024-03-01 the Monday 2024-02-05 is a sequence date, already at midnight
    UTC, yet every row written for it, in all four families, carries
    2024-02-01, a Thursday. *)
Lemma snapshot_date_is_not_the_sequence_date :
  let monday := Examples.ymd 2024 2 5 in
  let result := createHistoricalSnapshots monday [(1, Examples.ymd 2024 1 30)]
                                          Examples.backfill in
  In monday (getDateSequence weekly (Examples.ymd 2024 1 30) (Examples.ymd 2024 3 1))
  /\ normalizeToMidnightUTC monday = monday
  /\ snd result = true
  /\ map (fun r => snd (fst r)) (PublicationSnapshots (fst result)) = [Examples.ymd 2024 2 1]
  /\ map (fun r => snd (fst r)) (TopicSnapshots (fst result)) = [Examples.ymd 2024 2 1]
  /\ map (fun r => snd (fst r)) (UserTopicSnapshots (fst result))
     = [Examples.ymd 2024 2 1; Examples.ymd 2024 2 1]
  /\ map (fun r => snd (fst r)) (UserOverallSnapshots (fst result))
     = [Examples.ymd 2024 2 1; Examples.ymd 2024 2 1]
  /\ Examples.ymd 2024 2 1 <> monday
  /\ getUTCDay (Examples.ymd 2024 2 1) = 4.
Proof.
  cbv zeta. split; [vm_compute; auto|].
  split; [reflexivity|]. split; [vm_compute; reflexivity|].
  split; [vm_compute; reflexivity|]. split; [vm_compute; reflexivity|].
  split; [vm_compute; reflexivity|]. split; [vm_compute; reflexivity|].
  split; [vm_compute; discriminate | reflexivity].
Qed.

(** C4, amended.  For every date of the backfill sequence, whatever the
    cadence, each snapshot row that [createHistoricalSnapshots] writes for
    it, in each of the four families, carries as its stored date the first
    day of the month of that sequence date at 00:00 UTC, which is not after
    the sequence date.  Under the weekly cadence the sequence date is a
    Monday at 00:00 UTC, and the stored date is the first of the month that
    Monday falls in. *)
Theorem historical_rows_carry_first_of_month :
  forall (snapshotFrequency : SnapshotFrequency) (startDate endDate historicalDate : Date)
         (publications : list (Z * Date)) (db : DB),
    In historicalDate (getDateSequence snapshotFrequency startDate endDate) ->
    ~ 0 <= getUTCFullYear historicalDate <= 99 ->
    let stored := getConsistentDateForDB historicalDate in
    written_with_date stored db (fst (createHistoricalSnapshots historicalDate publications db))
    /\ TimeWithinDay stored = 0
    /\ getUTCDate stored = 1
    /\ getUTCMonth stored = getUTCMonth historicalDate
    /\ getUTCFullYear stored = getUTCFullYear historicalDate
    /\ stored <= historicalDate
    /\ (snapshotFrequency = weekly -> monday_midnight historicalDate).
Proof.
  intros freq startDate endDate D pubs db Hin Hy stored.
  destruct (DateFacts.getConsistentDateForDB_first D Hy) as (H1 & H2 & H3 & H4).
  split; [apply GeneratorFacts.createHistoricalSnapshots_written|].
  split; [apply DateFacts.getConsistentDateForDB_midnight|].
  repeat (split; [assumption|]).
  intros ->. simpl in Hin.
  pose proof (DateFacts.generateMondaySequence_mondays startDate endDate) as HF.
  rewrite Forall_forall in HF. now apply HF.
Qed.

Lemma historical_rows_carry_first_of_month_witness :
  written_with_date (getConsistentDateForDB (Examples.ymd 2024 2 5)) Examples.backfill
    (fst (createHistoricalSnapshots (Examples.ymd 2024 2 5)
            [(1, Examples.ymd 2024 1 30)] Examples.backfill))
  /\ monday_midnight (Examples.ymd 2024 2 5).
Proof.
  pose proof (historical_rows_carry_first_of_month weekly
                (Examples.ymd 2024 1 30) (Examples.ymd 2024 3 1) (Examples.ymd 2024 2 5)
                [(1, Examples.ymd 2024 1 30)] Examples.backfill) as H.
  assert (Hin : In (Examples.ymd 2024 2 5)
                   (getDateSequence weekly (Examples.ymd 2024 1 30) (Examples.ymd 2024 3 1)))
    by (vm_compute; auto).
  assert (Hy : ~ 0 <= getUTCFullYear (Examples.ymd 2024 2 5) <= 99)
    by (vm_compute; intros [_ Hc]; apply Hc; reflexivity).
  specialize (H Hin Hy). cbv zeta in H.
  destruct H as (Hw & _ & _ & _ & _ & _ & Hm).
  split; [exact Hw | apply Hm; reflexivity].
Defined.

(** ** Running the generator of the current snapshot *)

Module CurrentSnapshotFacts.
Import Sql UpsertFacts GeneratorFacts.

Lemma processPublicationSnapshots_Some (d : Date) (db a : DB) :
  processPublicationSnapshots d db = Some a ->
  insert_on_conflict_update key2_eqb (Selected.publication_rows d db)
                            (PublicationSnapshots db)
  = Some (PublicationSnapshots a)
  /\ TopicSnapshots a = TopicSnapshots db
  /\ UserTopicSnapshots a = UserTopicSnapshots db
  /\ UserOverallSnapshots a = UserOverallSnapshots db.
Proof.
  unfold processPublicationSnapshots, Selected.publication_rows.
  destruct (insert_on_conflict_update key2_eqb _ _) as [t|]; [|discriminate].
  intro H. injection H as <-. auto.
Qed.

Lemma calculateSimpleTopicAverages_Some (d : Date) (db a : DB) :
  calculateSimpleTopicAverages d db = Some a ->
  insert_on_conflict_update key2_eqb (Selected.topic_rows d db) (TopicSnapshots db)
  = Some (TopicSnapshots a)
  /\ PublicationSnapshots a = PublicationSnapshots db
  /\ UserTopicSnapshots a = UserTopicSnapshots db
  /\ UserOverallSnapshots a = UserOverallSnapshots db.
Proof.
  unfold calculateSimpleTopicAverages, Selected.topic_rows.
  destruct (latest_snapshot_date db _) as [psd|].
  - destruct (insert_on_conflict_update key2_eqb _ _) as [t|]; [|discriminate].
    intro H. injection H as <-. auto.
  - intro H. injection H as <-. auto.
Qed.

Lemma processUserSnapshots_Some (POWER : Q -> Q -> Q) (d : Date) (db a : DB) :
  processUserSnapshots POWER d db = Some a ->
  insert_on_conflict_update key3_eqb (Selected.user_topic_rows POWER d db)
                            (UserTopicSnapshots db)
  = Some (UserTopicSnapshots a)
  /\ insert_on_conflict_update key2_eqb (Selected.user_overall_rows POWER d db)
                               (UserOverallSnapshots db)
     = Some (UserOverallSnapshots a)
  /\ PublicationSnapshots a = PublicationSnapshots db
  /\ TopicSnapshots a = TopicSnapshots db.
Proof.
  unfold processUserSnapshots, Selected.user_topic_rows, Selected.user_overall_rows.
  destruct (latest_snapshot_date db _) as [psd|].
  - destruct (insert_on_conflict_update key3_eqb _ _) as [t3|]; [|discriminate].
    destruct (insert_on_conflict_update key2_eqb _ _) as [t2|]; [|discriminate].
    intro H. injection H as <-. auto.
  - intro H. injection H as <-. auto.
Qed.

Lemma selected_holds_once {K} (eqb : K -> K -> bool)
      (eqb_eq : forall a b, eqb a b = true <-> a = b)
      (rows : list (K * option Q)) (t t' : list (K * Q)) (k : K) (v : option Q) :
  NoDup (map fst t) ->
  insert_on_conflict_update eqb rows t = Some t' ->
  In (k, v) rows ->
  holds_once eqb k v t'.
Proof.
  intros Hn Hins Hin.
  destruct (insert_on_conflict_update_lookup eqb eqb_eq _ _ _ _ _ Hins Hin) as [Hl Hv].
  destruct v as [q|]; [|congruence]. exists q. split; [reflexivity|].
  apply lookup_unique; auto.
  eapply insert_on_conflict_update_NoDup; eauto.
Qed.

(** A run that returns normally keeps the unique constraints. *)
Lemma createSnapshots_unique (POWER : Q -> Q -> Q) (d : Date) (db db' : DB) :
  unique_keys db -> createSnapshots POWER d db = (db', true) -> unique_keys db'.
Proof.
  intros (U1 & U2 & U3 & U4) H. unfold createSnapshots in H.
  apply run_three in H. destruct H as (a & b & H1 & H2 & H3).
  apply processPublicationSnapshots_Some in H1. destruct H1 as (I1 & T1 & UT1 & UO1).
  apply calculateSimpleTopicAverages_Some in H2. destruct H2 as (I2 & P2 & UT2 & UO2).
  apply processUserSnapshots_Some in H3. destruct H3 as (I3 & I4 & P3 & T3).
  rewrite T1 in I2. rewrite UT2, UT1 in I3. rewrite UO2, UO1 in I4.
  repeat split.
  - rewrite P3, P2. eapply insert_on_conflict_update_NoDup; eauto using key2_eqb_eq.
  - rewrite T3. eapply insert_on_conflict_update_NoDup; eauto using key2_eqb_eq.
  - eapply insert_on_conflict_update_NoDup; eauto using key3_eqb_eq.
  - eapply insert_on_conflict_update_NoDup; eauto using key2_eqb_eq.
Qed.

End CurrentSnapshotFacts.

(** C8.  When the generator of the current snapshot runs twice for the same
    date and both runs return normally, the four snapshot families keep
    unique keys, and for every row the second run selects (for
    publications, topics, researcher-and-topic pairs and researchers) the
    table holds exactly one row with that key, with the value the second run
    computed. *)
Theorem createSnapshots_twice_one_row_per_key :
  forall (POWER : Q -> Q -> Q) (currentDate : Date) (db db1 db2 : DB),
    unique_keys db ->
    createSnapshots POWER currentDate db = (db1, true) ->
    createSnapshots POWER currentDate db1 = (db2, true) ->
    let snapshotDate := setUTCHours0 currentDate in
    unique_keys db2
    /\ exists a b,
        processPublicationSnapshots snapshotDate db1 = Some a
        /\ calculateSimpleTopicAverages snapshotDate a = Some b
        /\ processUserSnapshots POWER snapshotDate b = Some db2
        /\ (forall k v, In (k, v) (Selected.publication_rows snapshotDate db1) ->
                        holds_once key2_eqb k v (PublicationSnapshots db2))
        /\ (forall k v, In (k, v) (Selected.topic_rows snapshotDate a) ->
                        holds_once key2_eqb k v (TopicSnapshots db2))
        /\ (forall k v, In (k, v) (Selected.user_topic_rows POWER snapshotDate b) ->
                        holds_once key3_eqb k v (UserTopicSnapshots db2))
        /\ (forall k v, In (k, v) (Selected.user_overall_rows POWER snapshotDate b) ->
                        holds_once key2_eqb k v (UserOverallSnapshots db2)).
Proof.
  intros POWER d db db1 db2 U Hrun1 Hrun2 snapshotDate.
  pose proof (CurrentSnapshotFacts.createSnapshots_unique _ _ _ _ U Hrun1) as U1.
  split; [eapply CurrentSnapshotFacts.createSnapshots_unique; eauto|].
  destruct U1 as (N1 & N2 & N3 & N4).
  unfold createSnapshots in Hrun2. fold snapshotDate in Hrun2.
  apply GeneratorFacts.run_three in Hrun2. destruct Hrun2 as (a & b & H1 & H2 & H3).
  exists a, b. repeat (split; [assumption|]).
  apply CurrentSnapshotFacts.processPublicationSnapshots_Some in H1.
  destruct H1 as (I1 & T1 & UT1 & UO1).
  apply CurrentSnapshotFacts.calculateSimpleTopicAverages_Some in H2.
  destruct H2 as (I2 & P2 & UT2 & UO2).
  apply CurrentSnapshotFacts.processUserSnapshots_Some in H3.
  destruct H3 as (I3 & I4 & P3 & T3).
  split; [|split; [|split]]; intros k v Hin.
  - rewrite P3, P2.
    eapply CurrentSnapshotFacts.selected_holds_once;
      [apply UpsertFacts.key2_eqb_eq | exact N1 | exact I1 | exact Hin].
  - rewrite T3.
    eapply CurrentSnapshotFacts.selected_holds_once;
      [apply UpsertFacts.key2_eqb_eq | | exact I2 | exact Hin].
    now rewrite T1.
  - eapply CurrentSnapshotFacts.selected_holds_once;
      [apply UpsertFacts.key3_eqb_eq | | exact I3 | exact Hin].
    now rewrite UT2, UT1.
  - eapply CurrentSnapshotFacts.selected_holds_once;
      [apply UpsertFacts.key2_eqb_eq | | exact I4 | exact Hin].
    now rewrite UO2, UO1.
Qed.

Lemma createSnapshots_twice_one_row_per_key_witness :
  unique_keys Examples.after_second_run
  /\ holds_once key2_eqb (2, Examples.ymd 2024 3 1) (Some (3000 # 1020))
                (PublicationSnapshots Examples.after_second_run).
Proof.
  assert (U : unique_keys Examples.backfill) by (repeat split; constructor).
  assert (E1 : createSnapshots Examples.no_power Examples.march Examples.backfill
               = (Examples.after_first_run, true)) by (vm_compute; reflexivity).
  assert (E2 : createSnapshots Examples.no_power Examples.march Examples.after_first_run
               = (Examples.after_second_run, true)) by (vm_compute; reflexivity).
  destruct (createSnapshots_twice_one_row_per_key
              Examples.no_power Examples.march Examples.backfill
              Examples.after_first_run Examples.after_second_run U E1 E2)
    as (U2 & a & b & _ & _ & _ & Hp & _).
  split; [exact U2|]. apply Hp. vm_compute. right. left. reflexivity.
Defined.

(** ** Topic snapshots *)

Module TopicFacts.
Import Sql UpsertFacts TopicSpec.

Lemma sumQ_cons (x : Q) (l : list Q) : sumQ (x :: l) = (x + sumQ l)%Q.
Proof. reflexivity. Qed.

Lemma sumQ_ext_eq {A} (f g : A -> Q) (l : list A) :
  (forall x, In x l -> f x == g x)%Q -> (sumQ (map f l) == sumQ (map g l))%Q.
Proof.
  induction l as [|a l IH]; intro H; [reflexivity|].
  cbn [map]. rewrite !sumQ_cons.
  rewrite (H a) by now left. rewrite IH; [reflexivity|].
  intros x Hx. apply H. now right.
Qed.

Lemma sumQ_nonneg {A} (f : A -> Q) (l : list A) :
  (forall x, In x l -> 0 < f x)%Q -> (0 <= sumQ (map f l))%Q.
Proof.
  induction l as [|a l IH]; intro H; [apply Qle_refl|].
  cbn [map]. rewrite sumQ_cons.
  assert (0 < f a)%Q by (apply H; now left).
  assert (0 <= sumQ (map f l))%Q by (apply IH; intros; apply H; now right).
  Lqa.lra.
Qed.

Lemma sumQ_pos {A} (f : A -> Q) (l : list A) :
  l <> [] -> (forall x, In x l -> 0 < f x)%Q -> (0 < sumQ (map f l))%Q.
Proof.
  intros Hne H. destruct l as [|a l]; [congruence|].
  cbn [map]. rewrite sumQ_cons.
  assert (0 < f a)%Q by (apply H; now left).
  assert (0 <= sumQ (map f l))%Q by (apply sumQ_nonneg; intros; apply H; now right).
  Lqa.lra.
Qed.

Lemma nullif0_pos (x : Q) : (0 < x)%Q -> nullif0 x = Some x.
Proof.
  intro H. unfold nullif0. destruct (Qeq_bool x 0) eqn:E; [|reflexivity].
  apply Qeq_bool_iff in E. Lqa.lra.
Qed.

Lemma topic_weights_pos (p : Publication) (ref : Date) (score : Q) :
  (0 < topic_recency_weight p ref * topic_quality_weight score)%Q.
Proof.
  unfold topic_recency_weight, topic_quality_weight, RECENT_BONUS, HIGH_SCORE_BONUS.
  destruct (is_recent p ref), (Qle_bool HIGH_SCORE_THRESHOLD score); reflexivity.
Qed.

Lemma volume_bonus_multiplier (n : Z) : volume_bonus n = volume_multiplier n.
Proof.
  unfold volume_bonus, volume_multiplier. now rewrite !Z.gtb_ltb.
Qed.

(** [INSERT ... ON CONFLICT] succeeds when the selected keys differ and
    no selected value is NULL. *)
Lemma insert_on_conflict_update_total {K} (eqb : K -> K -> bool)
      (eqb_eq : forall a b, eqb a b = true <-> a = b)
      (rows : list (K * option Q)) (t : list (K * Q)) :
  NoDup (map fst rows) -> (forall r, In r rows -> snd r <> None) ->
  exists t', insert_on_conflict_update eqb rows t = Some t'.
Proof.
  intros Hn Hv. unfold insert_on_conflict_update.
  rewrite (proj2 (distinct_keys_NoDup eqb eqb_eq rows) Hn). clear Hn.
  revert t. induction rows as [|[k [v|]] rows IH]; intro t; simpl.
  - eauto.
  - apply IH. intros r Hr. apply Hv. now right.
  - exfalso. apply (Hv (k, None)); [now left | reflexivity].
Qed.

Lemma filter_flat_map {A B} (f : B -> bool) (g : A -> list B) (l : list A) :
  filter f (flat_map g l) = flat_map (fun x => filter f (g x)) l.
Proof.
  induction l as [|a l IH]; simpl; [reflexivity|]. now rewrite filter_app, IH.
Qed.

Lemma filter_map_topic (t : Z) (mk : Z -> WeightedPublication) (ts : list Z) :
  (forall t', wp_topic_id (mk t') = t') ->
  filter (in_topic t) (map mk ts) = map mk (filter (fun t' => t' =? t) ts).
Proof.
  intro H. induction ts as [|a ts IH]; simpl; [reflexivity|].
  unfold in_topic at 1. rewrite H. destruct (a =? t); simpl; now rewrite IH.
Qed.

(** The weighted rows of one topic are its publications, in the order of
    the publication table. *)
Lemma weighted_of_topic (db : DB) (ref psd : Date) (existed : Publication -> bool)
      (wps : list WeightedPublication) (t : Z) :
  wps = flat_map (fun p =>
                    match snapshot_value db (pub_id p) psd with
                    | Some score =>
                        if existed p
                        then map (fun t' => mkWeighted t' score
                                              (topic_recency_weight p ref)
                                              (topic_quality_weight score))
                                 (topics_of db p)
                        else []
                    | None => []
                    end) (Publications db) ->
  filter (in_topic t) wps
  = map (fun ps => mkWeighted t (snd ps) (topic_recency_weight (fst ps) ref)
                              (topic_quality_weight (snd ps)))
        (topic_publications db psd existed t).
Proof.
  intros ->. unfold topic_publications. rewrite filter_flat_map.
  induction (Publications db) as [|p l IH]; simpl; [reflexivity|].
  rewrite map_app, IH. f_equal.
  destruct (snapshot_value db (pub_id p) psd) as [score|]; [|reflexivity].
  destruct (existed p); [|reflexivity].
  rewrite filter_map_topic by reflexivity. rewrite map_map.
  apply map_ext_in. intros a Ha. apply filter_In in Ha.
  destruct Ha as [_ Ha]. apply Z.eqb_eq in Ha. now subst a.
Qed.

Lemma topic_rows_keys (wps : list WeightedPublication) (cd : Date) :
  map fst (topic_rows wps cd)
  = map (fun t => (t, cd)) (nodup Z.eq_dec (map wp_topic_id wps)).
Proof. unfold topic_rows. rewrite map_map. reflexivity. Qed.

Lemma topic_rows_NoDup (wps : list WeightedPublication) (cd : Date) :
  NoDup (map fst (topic_rows wps cd)).
Proof.
  rewrite topic_rows_keys. apply Finite.Injective_map_NoDup.
  - intros a b H. now injection H.
  - apply NoDup_nodup.
Qed.

Lemma weighted_average_Some (rows : list WeightedPublication) :
  rows <> [] -> positive_weights rows ->
  weighted_average rows
  = Some (sumQ (map (fun wp => wp_score wp * wp_recency_weight wp
                               * wp_quality_weight wp) rows)
          / sumQ (map (fun wp => wp_recency_weight wp * wp_quality_weight wp) rows))%Q.
Proof.
  intros Hne Hpos. unfold weighted_average.
  rewrite nullif0_pos; [reflexivity|]. now apply sumQ_pos.
Qed.

(** The recency test of the statement is "published within two years",
    and the two factors of the statement are the weight. *)
Lemma is_recent_within_two_years (p : Publication) (ref : Date) :
  is_recent p ref = within_two_years ref p.
Proof.
  unfold is_recent, within_two_years, RECENT_YEARS.
  now rewrite DateFacts.minus_years_two.
Qed.

Lemma weight_code (ref : Date) (ps : Publication * Q) :
  (topic_recency_weight (fst ps) ref * topic_quality_weight (snd ps))%Q = weight ref ps.
Proof.
  unfold weight, topic_recency_weight. now rewrite is_recent_within_two_years.
Qed.

Lemma topic_rows_not_null (wps : list WeightedPublication) (cd : Date) :
  positive_weights wps -> forall r, In r (topic_rows wps cd) -> snd r <> None.
Proof.
  intros Hpos r Hr. unfold topic_rows in Hr. apply in_map_iff in Hr.
  destruct Hr as [t [<- Ht]]. simpl. apply nodup_In in Ht.
  apply in_map_iff in Ht. destruct Ht as [wp [Hid Hwp]].
  rewrite weighted_average_Some; [discriminate| |].
  - intro E. assert (Hin : In wp (filter (in_topic t) wps)).
    { apply filter_In. split; [exact Hwp|]. unfold in_topic. now apply Z.eqb_eq. }
    rewrite E in Hin. destruct Hin.
  - intros x Hx. apply filter_In in Hx. apply Hpos. tauto.
Qed.

Lemma generated_weights_pos (db : DB) (ref psd : Date) (existed : Publication -> bool) :
  positive_weights
    (flat_map (fun p =>
                 match snapshot_value db (pub_id p) psd with
                 | Some score =>
                     if existed p
                     then map (fun t' => mkWeighted t' score
                                           (topic_recency_weight p ref)
                                           (topic_quality_weight score))
                              (topics_of db p)
                     else []
                 | None => []
                 end) (Publications db)).
Proof.
  intros wp Hwp. apply in_flat_map in Hwp. destruct Hwp as [p [_ Hwp]].
  destruct (snapshot_value db (pub_id p) psd) as [score|]; [|destruct Hwp].
  destruct (existed p); [|destruct Hwp].
  apply in_map_iff in Hwp. destruct Hwp as [t' [<- _]]. simpl.
  apply topic_weights_pos.
Qed.

(** What a topic-snapshot statement leaves in the table, for any way
    [wps] of collecting the weighted publications used by the code. *)
Lemma topic_statement (db : DB) (ref psd cd : Date) (existed : Publication -> bool)
      (wps : list WeightedPublication) :
  wps = flat_map (fun p =>
                    match snapshot_value db (pub_id p) psd with
                    | Some score =>
                        if existed p
                        then map (fun t' => mkWeighted t' score
                                              (topic_recency_weight p ref)
                                              (topic_quality_weight score))
                                 (topics_of db p)
                        else []
                    | None => []
                    end) (Publications db) ->
  exists table,
    insert_on_conflict_update key2_eqb (topic_rows wps cd) (TopicSnapshots db) = Some table
    /\ forall t,
        (topic_publications db psd existed t <> [] ->
         exists v, lookup key2_eqb (t, cd) table = Some v
                   /\ (v == topic_value ref (topic_publications db psd existed t))%Q)
        /\ (topic_publications db psd existed t = [] ->
            lookup key2_eqb (t, cd) table = lookup key2_eqb (t, cd) (TopicSnapshots db)).
Proof.
  intro Hwps.
  assert (Hpos : positive_weights wps) by (rewrite Hwps; apply generated_weights_pos).
  destruct (insert_on_conflict_update_total key2_eqb key2_eqb_eq
              (topic_rows wps cd) (TopicSnapshots db)
              (topic_rows_NoDup wps cd) (topic_rows_not_null wps cd Hpos))
    as [table Htable].
  exists table. split; [exact Htable|]. intro t.
  pose proof (weighted_of_topic db ref psd existed wps t Hwps) as Hrows.
  split.
  - intro Hne.
    assert (Hrne : filter (in_topic t) wps <> []).
    { rewrite Hrows. intro E. apply map_eq_nil in E. contradiction. }
    assert (Hin : In t (nodup Z.eq_dec (map wp_topic_id wps))).
    { apply nodup_In. destruct (filter (in_topic t) wps) as [|wp l] eqn:E; [congruence|].
      assert (Hwp : In wp (filter (in_topic t) wps)) by (rewrite E; now left).
      apply filter_In in Hwp. destruct Hwp as [Hwp Ht]. apply Z.eqb_eq in Ht.
      apply in_map_iff. eauto. }
    assert (Hrow : In ((t, cd),
                       option_map (fun wa => wa * volume_bonus
                                                    (Z.of_nat (List.length
                                                       (filter (in_topic t) wps))))%Q
                                  (weighted_average (filter (in_topic t) wps)))
                      (topic_rows wps cd)).
    { unfold topic_rows. apply in_map_iff. exists t. split; [reflexivity | exact Hin]. }
    rewrite weighted_average_Some in Hrow;
      [|exact Hrne | intros x Hx; apply filter_In in Hx; apply Hpos; tauto].
    destruct (insert_on_conflict_update_lookup key2_eqb key2_eqb_eq _ _ _ _ _ Htable Hrow)
      as [Hl _].
    eexists. split; [exact Hl|].
    rewrite Hrows, !map_map, length_map, volume_bonus_multiplier. unfold topic_value.
    cbn [wp_score wp_recency_weight wp_quality_weight].
    rewrite (sumQ_ext_eq
               (fun ps => snd ps * topic_recency_weight (fst ps) ref
                          * topic_quality_weight (snd ps))%Q
               (fun ps => snd ps * weight ref ps)%Q)
      by (intros x _; rewrite <- weight_code; symmetry; apply Qmult_assoc).
    rewrite (map_ext _ (weight ref) (weight_code ref)).
    reflexivity.
  - intro Hnil. unfold insert_on_conflict_update in Htable.
    destruct (distinct_keys key2_eqb (topic_rows wps cd)); [|discriminate].
    apply (upsert_rows_lookup_other key2_eqb key2_eqb_eq _ _ _ _ Htable).
    rewrite topic_rows_keys. intro Hin. apply in_map_iff in Hin.
    destruct Hin as [t' [Heq Ht']]. injection Heq as ->.
    apply nodup_In in Ht'. apply in_map_iff in Ht'. destruct Ht' as [wp [Hid Hwp]].
    assert (Hf : In wp (filter (in_topic t) wps)).
    { apply filter_In. split; [exact Hwp|]. unfold in_topic. now apply Z.eqb_eq. }
    rewrite Hrows, Hnil in Hf. destruct Hf.
Qed.

End TopicFacts.

(** C6.  For every topic with at least one publication that has a snapshot
    at the publication-snapshot date in use, the topic statement, of the
    current and of the historical path alike, succeeds and stores the mean
    of the publications' snapshot scores weighted by recency (1.5 when
    published within two years of the reference date, else 0.2) times
    quality (2 when the score is at least 5, else 0.5), multiplied by the
    volume bonus for the number of publications; a topic with no such
    publication gets no row.  Within two years means not before the same
    day and time of day two years earlier, 28 February for a 29 February.
    The thresholds are exclusive:
    101 publications give 1.5 and 100 give 1.3.  A topic with a publication
    of 2021 scored 2 and one of 2024 scored 10 gets, in February 2024,
    (2 * 0.1 + 10 * 3) / (0.1 + 3) = 302/31. *)
Theorem topic_snapshot_weighted_mean :
  (forall (snapshotDate : Date) (db : DB) (pubSnapshotDate : Date),
      let stored := getConsistentDateForDB snapshotDate in
      latest_snapshot_date db stored = Some pubSnapshotDate ->
      exists db',
        calculateSimpleTopicAverages snapshotDate db = Some db'
        /\ forall t,
            let pubs := TopicSpec.topic_publications db pubSnapshotDate (fun _ => true) t in
            (pubs <> [] ->
             exists v, Sql.lookup key2_eqb (t, stored) (TopicSnapshots db') = Some v
                       /\ (v == TopicSpec.topic_value stored pubs)%Q)
            /\ (pubs = [] ->
                Sql.lookup key2_eqb (t, stored) (TopicSnapshots db')
                = Sql.lookup key2_eqb (t, stored) (TopicSnapshots db)))
  /\ (forall (historicalDate : Date) (db : DB) (pubSnapshotDate : Date),
         let stored := getConsistentDateForDB historicalDate in
         latest_snapshot_date db stored = Some pubSnapshotDate ->
         exists db',
           calculateEnhancedHistoricalTopicAverages historicalDate db = Some db'
           /\ forall t,
               let pubs := TopicSpec.topic_publications db pubSnapshotDate
                             (fun p => Sql.le_null (date_published p) historicalDate) t in
               (pubs <> [] ->
                exists v, Sql.lookup key2_eqb (t, stored) (TopicSnapshots db') = Some v
                          /\ (v == TopicSpec.topic_value historicalDate pubs)%Q)
               /\ (pubs = [] ->
                   Sql.lookup key2_eqb (t, stored) (TopicSnapshots db')
                   = Sql.lookup key2_eqb (t, stored) (TopicSnapshots db)))
  /\ (forall n, volume_bonus n = TopicSpec.volume_multiplier n)
  /\ volume_bonus 101 = 1.5%Q /\ volume_bonus 100 = 1.3%Q
  /\ volume_bonus 51 = 1.3%Q /\ volume_bonus 50 = 1.1%Q
  /\ volume_bonus 11 = 1.1%Q /\ volume_bonus 10 = 1.0%Q
  /\ (exists db' v,
         calculateSimpleTopicAverages (Examples.ymd 2024 2 15) Examples.rollup = Some db'
         /\ Sql.lookup key2_eqb (5, Examples.ymd 2024 2 1) (TopicSnapshots db') = Some v
         /\ (v == 302 # 31)%Q)
  /\ TopicSpec.two_years_before (Examples.ymd 2024 2 15) = Examples.ymd 2022 2 15
  /\ TopicSpec.two_years_before (Examples.ymd 2024 2 29) = Examples.ymd 2022 2 28.
Proof.
  split; [|split; [|split; [exact TopicFacts.volume_bonus_multiplier|]]].
  - intros d db psd stored Hl. unfold calculateSimpleTopicAverages. fold stored.
    rewrite Hl.
    destruct (TopicFacts.topic_statement db stored psd stored (fun _ => true)
                (weighted_publications db stored psd) eq_refl) as [table [Ht H]].
    rewrite Ht. eexists. split; [reflexivity|]. exact H.
  - intros D db psd stored Hl. unfold calculateEnhancedHistoricalTopicAverages. fold stored.
    rewrite Hl.
    destruct (TopicFacts.topic_statement db D psd stored
                (fun p => Sql.le_null (date_published p) D)
                (historical_weighted_publications db D psd) eq_refl) as [table [Ht H]].
    rewrite Ht. eexists. split; [reflexivity|]. exact H.
  - repeat split.
    eexists. eexists. split; [vm_compute; reflexivity|]. split; reflexivity.
Qed.

Lemma topic_snapshot_weighted_mean_witness :
  exists db',
    calculateSimpleTopicAverages (Examples.ymd 2024 2 15) Examples.rollup = Some db'
    /\ exists v,
        Sql.lookup key2_eqb (5, getConsistentDateForDB (Examples.ymd 2024 2 15))
                   (TopicSnapshots db') = Some v
        /\ Qeq v (TopicSpec.topic_value (getConsistentDateForDB (Examples.ymd 2024 2 15))
                    (TopicSpec.topic_publications Examples.rollup
                       (Examples.ymd 2024 2 1) (fun _ => true) 5))
        /\ Qeq (TopicSpec.topic_value (getConsistentDateForDB (Examples.ymd 2024 2 15))
                  (TopicSpec.topic_publications Examples.rollup
                     (Examples.ymd 2024 2 1) (fun _ => true) 5))
               (302 # 31).
Proof.
  destruct (proj1 topic_snapshot_weighted_mean (Examples.ymd 2024 2 15)
              Examples.rollup (Examples.ymd 2024 2 1)) as [db' [H1 H2]].
  - vm_compute. reflexivity.
  - exists db'. split; [exact H1|].
    destruct (proj1 (H2 5)) as [v [Hl Hv]]; [vm_compute; discriminate|].
    exists v. split; [exact Hl|]. split; [exact Hv|]. vm_compute. reflexivity.
Defined.

(** ** Researcher snapshots *)

Module ResearcherFacts.
Import Sql ResearcherSpec.








End ResearcherFacts.




(** ** Reconstruction from a part of the store *)

Module RestrictFacts.
Import Sql.

Lemma filter_filter_implied {A} (f keep : A -> bool) (l : list A) :
  (forall x, In x l -> f x = true -> keep x = true) ->
  filter f (filter keep l) = filter f l.
Proof.
  induction l as [|a l IH]; intro H; simpl; [reflexivity|].
  assert (IH' : filter f (filter keep l) = filter f l)
    by (apply IH; intros; apply H; [now right | assumption]).
  destruct (keep a) eqn:Ek; simpl; rewrite IH'; [reflexivity|].
  destruct (f a) eqn:Ef; [|reflexivity].
  rewrite (H a (or_introl eq_refl) Ef) in Ek. discriminate.
Qed.

Lemma flat_map_filter_implied {A B} (F G : A -> list B) (keep : A -> bool) (l : list A) :
  (forall x, In x l -> keep x = true -> F x = G x) ->
  (forall x, In x l -> keep x = false -> G x = []) ->
  flat_map F (filter keep l) = flat_map G l.
Proof.
  induction l as [|a l IH]; intros H1 H2; simpl; [reflexivity|].
  assert (IH' : flat_map F (filter keep l) = flat_map G l)
    by (apply IH; intros; [apply H1 | apply H2]; auto; now right).
  destruct (keep a) eqn:Ek; simpl; rewrite IH'.
  - now rewrite (H1 a (or_introl eq_refl) Ek).
  - now rewrite (H2 a (or_introl eq_refl) Ek).
Qed.

(** A [SUM] all of whose terms are NULL or the literal zero. *)
Lemma sum_null_or_zero (l : list (option Q)) :
  (forall x, In x l -> x = None \/ x = Some 0%Q) -> coalesce (sum l) 0%Q = 0%Q.
Proof.
  intro H.
  assert (G : sum l = None \/ sum l = Some 0%Q).
  { induction l as [|a l IH]; [now left|]. cbn [sum fold_right]. fold (sum l).
    destruct (IH (fun x Hx => H x (or_intror Hx))) as [-> | ->];
      destruct (H a (or_introl eq_refl)) as [-> | ->]; auto. }
  destruct G as [-> | ->]; reflexivity.
Qed.

(** The terms of a citation [SUM], read as: a value for the citations
    that count, and zero for the others. *)
Lemma sum_over_left_join (db : DB) (p : Publication)
      (case : option Citation -> option Q) (term : Citation -> option Q) :
  case None = Some 0%Q ->
  (forall c, case (Some c) = Some (coalesce (term c) 0%Q)) ->
  coalesce (sum (map case (left_join_citations db p))) 0%Q
  = sumQ (flat_map (fun c => match term c with Some t => [t] | None => [] end)
                   (citations_of db p)).
Proof.
  intros H0 H1. unfold left_join_citations, citations_of.
  destruct (filter (fun c => cit_publication_id c =? pub_id p) (Citations db))
    as [|c0 cs]; [simpl; now rewrite H0|].
  rewrite map_map. rewrite (map_ext _ (fun c => Some (coalesce (term c) 0%Q)) H1).
  now rewrite (ScoreFacts.sum_case_else_0 term).
Qed.

Lemma historical_citation_case_term (db : DB) (D : Date) (p : Publication) (v : Q)
      (c : Citation) :
  hcv_of db D p = Some v ->
  historical_citation_case db D p (Some c)
  = Some (coalesce (HistoricalSpec.term db D p v c) 0%Q).
Proof.
  intro Hv. unfold historical_citation_case, HistoricalSpec.term. rewrite Hv.
  destruct (author_sc c) as [[|]|]; try reflexivity.
  destruct (decay db _); [|reflexivity].
  destruct (le_null (creation_date c) (getConsistentDateForDB D)); reflexivity.
Qed.

Lemma historical_citation_case_null (db : DB) (D : Date) (p : Publication)
      (x : option Citation) :
  hcv_of db D p = None ->
  historical_citation_case db D p x = None
  \/ historical_citation_case db D p x = Some 0%Q.
Proof.
  intro Hv. unfold historical_citation_case. rewrite Hv.
  destruct x as [c|]; [|now right].
  destruct (author_sc c) as [[|]|]; try (now right).
  destruct (decay db _); [|now right].
  destruct (le_null (creation_date c) (getConsistentDateForDB D)); auto.
Qed.

(** The decayed citations of a publication, NULL read as 0, are the
    citation bonus. *)
Lemma historical_decayed_citations_bonus (db : DB) (D : Date) (p : Publication) :
  coalesce (historical_decayed_citations db D p) 0%Q
  = HistoricalSpec.citation_bonus db D p.
Proof.
  unfold historical_decayed_citations, HistoricalSpec.citation_bonus.
  destruct (hcv_of db D p) as [v|] eqn:Hv.
  - apply sum_over_left_join; [reflexivity|].
    intro c. now apply historical_citation_case_term.
  - apply sum_null_or_zero. intros x Hx. apply in_map_iff in Hx.
    destruct Hx as [c [<- _]]. now apply historical_citation_case_null.
Qed.

Lemma flat_map_filter_if {A B} (T : A -> list B) (m : A -> bool) (l : list A) :
  flat_map T (filter m l) = flat_map (fun x => if m x then T x else []) l.
Proof.
  induction l as [|a l IH]; simpl; [reflexivity|].
  destruct (m a); simpl; now rewrite IH.
Qed.

Section Restrict.
Variables (D : Date) (db db' : DB).
Variables (keepP : Publication -> bool) (keepC : Citation -> bool)
          (keepU : PublicationUser -> bool).
Hypothesis HP : Publications db' = filter keepP (Publications db).
Hypothesis HC : Citations db' = filter keepC (Citations db).
Hypothesis HU : PublicationUsers db' = filter keepU (PublicationUsers db).
Hypothesis HD : DecayLookup db' = DecayLookup db.
Hypothesis keepP_by : forall p, le_null (date_published p) D = true -> keepP p = true.
Hypothesis keepP_stored :
  forall p, le_null (date_published p) (getConsistentDateForDB D) = true ->
            keepP p = true.
Hypothesis keepC_day :
  forall c, author_sc c = Some false ->
            le_null (creation_date c) (date_trunc_day D) = true -> keepC c = true.
Hypothesis keepC_stored :
  forall c, author_sc c = Some false ->
            le_null (creation_date c) (getConsistentDateForDB D) = true ->
            keepC c = true.
Hypothesis keepU_of :
  forall p pu, In p (Publications db) -> keepP p = true ->
               pub_id p = pu_publication_id pu -> keepU pu = true.

Lemma decay_restrict (d : Z) : decay db' d = decay db d.
Proof. unfold decay. now rewrite HD. Qed.

Lemma historical_citation_count_restrict (p : Publication) :
  historical_citation_count db' D p = historical_citation_count db D p.
Proof.
  unfold historical_citation_count. rewrite HC.
  rewrite filter_filter_implied; [reflexivity|].
  intros c _ H. apply andb_true_iff in H. destruct H as [H Hs].
  apply andb_true_iff in H. destruct H as [_ Hd].
  apply keepC_day; [|exact Hd].
  destruct (author_sc c) as [[|]|]; congruence.
Qed.

Lemma authors_of_restrict (p : Publication) :
  In p (Publications db) -> keepP p = true -> authors_of db' p = authors_of db p.
Proof.
  intros Hin Hk. unfold authors_of. rewrite HU.
  rewrite filter_filter_implied; [reflexivity|].
  intros pu _ H. apply Z.eqb_eq in H. eapply keepU_of; eauto.
Qed.

Lemma historical_user_counts_restrict (uid : Z) :
  historical_user_counts db' D uid = historical_user_counts db D uid.
Proof.
  unfold historical_user_counts. rewrite HP.
  apply flat_map_filter_implied.
  - intros p Hin Hk. rewrite (authors_of_restrict p Hin Hk).
    now rewrite historical_citation_count_restrict.
  - intros p _ Hk. destruct (le_null (date_published p) D) eqn:E; [|reflexivity].
    rewrite (keepP_by p E) in Hk. discriminate.
Qed.

Lemma historical_h_index_restrict (uid : Z) :
  historical_h_index db' D uid = historical_h_index db D uid.
Proof. unfold historical_h_index. now rewrite historical_user_counts_restrict. Qed.

Lemma historical_user_confs_restrict :
  historical_user_confs db' D = historical_user_confs db D.
Proof.
  unfold historical_user_confs. rewrite HP. f_equal.
  apply flat_map_filter_implied.
  - intros p Hin Hk. now rewrite (authors_of_restrict p Hin Hk).
  - intros p _ Hk. destruct (conference p); [|reflexivity].
    destruct (le_null (date_published p) D) eqn:E; [|reflexivity].
    rewrite (keepP_by p E) in Hk. discriminate.
Qed.

Lemma historical_conference_value_restrict (c : Z) :
  historical_conference_value db' D c = historical_conference_value db D c.
Proof.
  unfold historical_conference_value. rewrite historical_user_confs_restrict.
  destruct (filter (fun uc => fst uc =? c) (historical_user_confs db D)); [reflexivity|].
  do 3 f_equal. apply map_ext. intro uc. now rewrite historical_h_index_restrict.
Qed.

Lemma hcv_of_restrict (p : Publication) : hcv_of db' D p = hcv_of db D p.
Proof.
  unfold hcv_of. destruct (conference p); [|reflexivity].
  apply historical_conference_value_restrict.
Qed.

Lemma historical_base_score_restrict (p : Publication) :
  historical_base_score db' D p = historical_base_score db D p.
Proof. unfold historical_base_score. now rewrite hcv_of_restrict. Qed.

(** *** Citation scores *)

Lemma term_restrict (p : Publication) (v : Q) (c : Citation) :
  HistoricalSpec.term db' D p v c = HistoricalSpec.term db D p v c.
Proof. unfold HistoricalSpec.term. now rewrite decay_restrict. Qed.

Lemma citation_bonus_restrict (p : Publication) :
  HistoricalSpec.citation_bonus db' D p = HistoricalSpec.citation_bonus db D p.
Proof.
  unfold HistoricalSpec.citation_bonus. rewrite hcv_of_restrict.
  destruct (hcv_of db D p) as [v|]; [|reflexivity]. f_equal.
  unfold citations_of. rewrite HC, !flat_map_filter_if.
  apply flat_map_ext. intro c. rewrite term_restrict.
  destruct (keepC c) eqn:Hk; [reflexivity|].
  destruct (cit_publication_id c =? pub_id p); [|reflexivity].
  unfold HistoricalSpec.term.
  destruct (author_sc c) as [[|]|] eqn:Es; try reflexivity.
  destruct (decay db _); [|reflexivity].
  destruct (le_null (creation_date c) (getConsistentDateForDB D)) eqn:El;
    [|reflexivity].
  rewrite (keepC_stored c Es El) in Hk. discriminate.
Qed.

Lemma Forall2_flat_map_filter {A B} (R : B -> B -> Prop) (F G : A -> list B)
      (keep : A -> bool) (l : list A) :
  (forall x, In x l -> keep x = true -> Forall2 R (F x) (G x)) ->
  (forall x, In x l -> keep x = false -> G x = []) ->
  Forall2 R (flat_map F (filter keep l)) (flat_map G l).
Proof.
  induction l as [|a l IH]; intros H1 H2; simpl; [constructor|].
  assert (IH' : Forall2 R (flat_map F (filter keep l)) (flat_map G l))
    by (apply IH; intros; [apply H1 | apply H2]; auto; now right).
  destruct (keep a) eqn:Ek; simpl.
  - apply Forall2_app; [apply H1; auto; now left | exact IH'].
  - rewrite (H2 a (or_introl eq_refl) Ek). exact IH'.
Qed.

Lemma Forall2_flat_map {A B} (R : B -> B -> Prop) (F G : A -> list B) (l : list A) :
  (forall x, Forall2 R (F x) (G x)) -> Forall2 R (flat_map F l) (flat_map G l).
Proof.
  intro H. induction l as [|a l IH]; simpl; [constructor|].
  apply Forall2_app; auto.
Qed.

Lemma calculateHistoricalCitationScores_restrict (publications : list (Z * Date)) :
  HistoricalSpec.same_scores
    (calculateHistoricalCitationScores db' D publications)
    (calculateHistoricalCitationScores db D publications).
Proof.
  unfold HistoricalSpec.same_scores, calculateHistoricalCitationScores.
  apply Forall2_flat_map. intro chunk. rewrite HP.
  apply Forall2_flat_map_filter.
  - intros p _ _.
    destruct (le_null (date_published p) (getConsistentDateForDB D)
              && mem (pub_id p) (map fst chunk)); constructor; [|constructor].
    split; [reflexivity|]. cbn [snd].
    now rewrite !historical_decayed_citations_bonus, citation_bonus_restrict.
  - intros p _ Hk.
    destruct (le_null (date_published p) (getConsistentDateForDB D)) eqn:E;
      [|reflexivity].
    rewrite (keepP_stored p E) in Hk. discriminate.
Qed.

Lemma hcs_value_same (hcs1 hcs2 : list (Z * option Q)) (p : Publication) :
  HistoricalSpec.same_scores hcs1 hcs2 ->
  HistoricalSpec.hcs_value hcs1 p = HistoricalSpec.hcs_value hcs2 p.
Proof.
  unfold HistoricalSpec.same_scores, HistoricalSpec.hcs_value.
  induction 1 as [|[i1 v1] [i2 v2] l1 l2 [Hi Hv] _ IH]; [reflexivity|].
  simpl in Hi, Hv. subst i2. simpl.
  destruct (pub_id p =? i1); [|exact IH].
  destruct v1, v2; simpl in Hv; congruence.
Qed.

Lemma historical_overall_score_restrict (hcs1 hcs2 : list (Z * option Q))
      (p : Publication) :
  HistoricalSpec.same_scores hcs1 hcs2 ->
  historical_overall_score db' D hcs1 p = historical_overall_score db D hcs2 p.
Proof.
  intro Hs. unfold historical_overall_score.
  rewrite historical_base_score_restrict, decay_restrict.
  destruct (historical_base_score db D p); [|reflexivity].
  destruct (decay db _); [|reflexivity].
  do 2 f_equal. exact (hcs_value_same hcs1 hcs2 p Hs).
Qed.

Lemma calculateHistoricalOverallScores_restrict (hcs1 hcs2 : list (Z * option Q))
      (publications : list (Z * Date)) :
  HistoricalSpec.same_scores hcs1 hcs2 ->
  calculateHistoricalOverallScores db' D hcs1 publications
  = calculateHistoricalOverallScores db D hcs2 publications.
Proof.
  intro Hs. unfold calculateHistoricalOverallScores.
  apply flat_map_ext. intro chunk. rewrite HP.
  apply flat_map_filter_implied.
  - intros p _ _. now rewrite (historical_overall_score_restrict hcs1 hcs2 p Hs).
  - intros p _ Hk. destruct (le_null (date_published p) D) eqn:E; [|reflexivity].
    rewrite (keepP_by p E) in Hk. discriminate.
Qed.

(** The rows selected for [PublicationSnapshot] are the same. *)
Lemma historical_publication_rows_restrict (publications : list (Z * Date)) :
  historical_publication_rows db' D publications
  = historical_publication_rows db D publications.
Proof.
  unfold historical_publication_rows.
  now rewrite (calculateHistoricalOverallScores_restrict _ _ publications
                 (calculateHistoricalCitationScores_restrict publications)).
Qed.

End Restrict.

(** *** The two restrictions used below *)

Lemma filter_true {A} (l : list A) : filter (fun _ => true) l = l.
Proof. induction l; simpl; congruence. Qed.

Lemma date_trunc_day_le (D : Date) : date_trunc_day D <= D.
Proof. unfold date_trunc_day, Day, msPerDay. Z.div_mod_to_equations. lia. Qed.

Lemma le_null_mono (x : option Z) (a b : Z) :
  a <= b -> le_null x a = true -> le_null x b = true.
Proof.
  unfold le_null. destruct x; [|discriminate]. rewrite !Z.leb_le. lia.
Qed.

Lemma published_by_stored (D : Date) :
  ~ 0 <= getUTCFullYear D <= 99 ->
  forall p, le_null (date_published p) (getConsistentDateForDB D) = true ->
            published_by D p = true.
Proof.
  intros Hy p. apply le_null_mono.
  apply (DateFacts.getConsistentDateForDB_first D Hy).
Qed.

Lemma created_by_day (D : Date) :
  forall c, author_sc c = Some false ->
            le_null (creation_date c) (date_trunc_day D) = true -> created_by D c = true.
Proof. intros c _. apply le_null_mono, date_trunc_day_le. Qed.

Lemma created_by_stored (D : Date) :
  ~ 0 <= getUTCFullYear D <= 99 ->
  forall c, author_sc c = Some false ->
            le_null (creation_date c) (getConsistentDateForDB D) = true ->
            created_by D c = true.
Proof.
  intros Hy c _. apply le_null_mono.
  apply (DateFacts.getConsistentDateForDB_first D Hy).
Qed.

Lemma authorship_by_of (D : Date) (db : DB) :
  forall p pu, In p (Publications db) -> published_by D p = true ->
               pub_id p = pu_publication_id pu -> authorship_by D db pu = true.
Proof.
  intros p pu Hin Hp He. unfold authorship_by. apply existsb_exists.
  exists p. split; [exact Hin|]. rewrite Hp. simpl. now apply Z.eqb_eq.
Qed.

Ltac by_facts Hy :=
  first [ reflexivity
        | exact (fun p H => H)
        | exact (published_by_stored _ Hy)
        | exact (created_by_day _)
        | exact (created_by_stored _ Hy)
        | exact (authorship_by_of _ _) ].

(** The reconstruction for [D] on the whole store is the reconstruction on
    the rows that exist by [D]. *)
Lemma rows_by_historical (D : Date) (db : DB) :
  ~ 0 <= getUTCFullYear D <= 99 ->
  (forall uid, historical_h_index (rows_by D db) D uid = historical_h_index db D uid)
  /\ (forall l, historical_conference_value (rows_by D db) D l
                = historical_conference_value db D l)
  /\ (forall p, historical_base_score (rows_by D db) D p = historical_base_score db D p)
  /\ (forall p, coalesce (historical_decayed_citations (rows_by D db) D p) 0%Q
                = coalesce (historical_decayed_citations db D p) 0%Q)
  /\ (forall publications,
         historical_publication_rows (rows_by D db) D publications
         = historical_publication_rows db D publications).
Proof.
  intro Hy. repeat split.
  - intro uid. eapply historical_h_index_restrict; by_facts Hy.
  - intro l. eapply historical_conference_value_restrict; by_facts Hy.
  - intro p. eapply historical_base_score_restrict; by_facts Hy.
  - intro p. rewrite !historical_decayed_citations_bonus.
    eapply citation_bonus_restrict; by_facts Hy.
  - intro publications. eapply historical_publication_rows_restrict; by_facts Hy.
Qed.

(** *** The cached columns are not read *)

Lemma flat_map_map {A B C} (f : B -> list C) (g : A -> B) (l : list A) :
  flat_map f (map g l) = flat_map (fun x => f (g x)) l.
Proof. induction l as [|a l IH]; simpl; [reflexivity | now rewrite IH]. Qed.

Section Caches.
Variables (D : Date) (db : DB).

Lemma historical_user_counts_caches (uid : Z) :
  historical_user_counts (without_caches db) D uid = historical_user_counts db D uid.
Proof.
  unfold historical_user_counts.
  change (Publications (without_caches db))
    with (map publication_facts (Publications db)).
  rewrite flat_map_map. apply flat_map_ext. intro p. reflexivity.
Qed.

Lemma historical_h_index_caches (uid : Z) :
  historical_h_index (without_caches db) D uid = historical_h_index db D uid.
Proof. unfold historical_h_index. now rewrite historical_user_counts_caches. Qed.

Lemma historical_user_confs_caches :
  historical_user_confs (without_caches db) D = historical_user_confs db D.
Proof.
  unfold historical_user_confs.
  change (Publications (without_caches db))
    with (map publication_facts (Publications db)).
  rewrite flat_map_map. f_equal.
Qed.

Lemma historical_conference_value_caches (l : Z) :
  historical_conference_value (without_caches db) D l
  = historical_conference_value db D l.
Proof.
  unfold historical_conference_value. rewrite historical_user_confs_caches.
  destruct (filter (fun uc => fst uc =? l) (historical_user_confs db D)) as [|uc ucs];
    [reflexivity|].
  do 3 f_equal. apply map_ext. intro a. now rewrite historical_h_index_caches.
Qed.

Lemma hcv_of_caches (p : Publication) :
  hcv_of (without_caches db) D p = hcv_of db D p.
Proof.
  unfold hcv_of. destruct (conference p); [|reflexivity].
  apply historical_conference_value_caches.
Qed.

Lemma historical_base_score_caches (p : Publication) :
  historical_base_score (without_caches db) D p = historical_base_score db D p.
Proof. unfold historical_base_score. now rewrite hcv_of_caches. Qed.

Lemma historical_decayed_citations_caches (p : Publication) :
  historical_decayed_citations (without_caches db) D p
  = historical_decayed_citations db D p.
Proof.
  unfold historical_decayed_citations.
  change (left_join_citations (without_caches db) p) with (left_join_citations db p).
  f_equal. apply map_ext. intro c.
  unfold historical_citation_case. now rewrite hcv_of_caches.
Qed.

Lemma calculateHistoricalCitationScores_caches (publications : list (Z * Date)) :
  calculateHistoricalCitationScores (without_caches db) D publications
  = calculateHistoricalCitationScores db D publications.
Proof.
  unfold calculateHistoricalCitationScores. apply flat_map_ext. intro chunk.
  change (Publications (without_caches db))
    with (map publication_facts (Publications db)).
  rewrite flat_map_map. apply flat_map_ext. intro p.
  now rewrite historical_decayed_citations_caches.
Qed.

Lemma historical_overall_score_caches (hcs : list (Z * option Q)) (p : Publication) :
  historical_overall_score (without_caches db) D hcs p
  = historical_overall_score db D hcs p.
Proof. unfold historical_overall_score. now rewrite historical_base_score_caches. Qed.

Lemma calculateHistoricalOverallScores_caches (hcs : list (Z * option Q))
      (publications : list (Z * Date)) :
  calculateHistoricalOverallScores (without_caches db) D hcs publications
  = calculateHistoricalOverallScores db D hcs publications.
Proof.
  unfold calculateHistoricalOverallScores. apply flat_map_ext. intro chunk.
  change (Publications (without_caches db))
    with (map publication_facts (Publications db)).
  rewrite flat_map_map. apply flat_map_ext. intro p.
  now rewrite historical_overall_score_caches.
Qed.

Lemma historical_publication_rows_caches (publications : list (Z * Date)) :
  historical_publication_rows (without_caches db) D publications
  = historical_publication_rows db D publications.
Proof.
  unfold historical_publication_rows.
  now rewrite calculateHistoricalCitationScores_caches,
    calculateHistoricalOverallScores_caches.
Qed.
End Caches.

(** The reconstruction for [D] on the whole store is the reconstruction on
    the facts that exist by [D]. *)
Lemma facts_by_historical (D : Date) (db : DB) :
  ~ 0 <= getUTCFullYear D <= 99 ->
  (forall uid, historical_h_index (facts_by D db) D uid = historical_h_index db D uid)
  /\ (forall l, historical_conference_value (facts_by D db) D l
                = historical_conference_value db D l)
  /\ (forall p, historical_base_score (facts_by D db) D p = historical_base_score db D p)
  /\ (forall p, coalesce (historical_decayed_citations (facts_by D db) D p) 0%Q
                = coalesce (historical_decayed_citations db D p) 0%Q)
  /\ (forall publications,
         historical_publication_rows (facts_by D db) D publications
         = historical_publication_rows db D publications).
Proof.
  intro Hy. destruct (rows_by_historical D db Hy) as (H1 & H2 & H3 & H4 & H5).
  unfold facts_by. repeat split.
  - intro uid. now rewrite historical_h_index_caches.
  - intro l. now rewrite historical_conference_value_caches.
  - intro p. now rewrite historical_base_score_caches.
  - intro p. now rewrite historical_decayed_citations_caches.
  - intro publications. now rewrite historical_publication_rows_caches.
Qed.

Ltac by_external :=
  first [ reflexivity
        | symmetry; apply filter_true
        | intros; reflexivity
        | (let c := fresh "c" in
           let H := fresh "H" in
           intros c H _; cbv beta; unfold is_self_citation; rewrite H; reflexivity) ].

(** The reconstruction on the whole store is the reconstruction on the
    store without its self-citations. *)
Lemma without_self_citations_historical (D : Date) (db : DB) :
  (forall p, historical_citation_count (without_self_citations db) D p
             = historical_citation_count db D p)
  /\ (forall uid, historical_h_index (without_self_citations db) D uid
                  = historical_h_index db D uid)
  /\ (forall p, coalesce (historical_decayed_citations (without_self_citations db) D p) 0%Q
                = coalesce (historical_decayed_citations db D p) 0%Q)
  /\ (forall publications,
         historical_publication_rows (without_self_citations db) D publications
         = historical_publication_rows db D publications).
Proof.
  repeat split.
  - intro p. eapply historical_citation_count_restrict; by_external.
  - intro uid. eapply historical_h_index_restrict; by_external.
  - intro p. rewrite !historical_decayed_citations_bonus.
    eapply citation_bonus_restrict; by_external.
  - intro publications. eapply historical_publication_rows_restrict; by_external.
Qed.

End RestrictFacts.

(** C3.  For every date D whose year is not one of the years 0 to 99, and
    every two states of the store that hold the same publications published
    by D, whatever the scores and citation counts cached in their rows, the
    same authorships of those publications, the same citations created by D
    and the same decay table, the reconstruction for D gives the
    same h-index for every researcher, the same venue value for every venue,
    the same base score and citation score for every publication and the same
    rows for [PublicationSnapshot]: what was published or cited after D has
    no influence. *)
Theorem historical_reconstruction_no_look_ahead (D : Date) (today later : DB) :
  ~ 0 <= getUTCFullYear D <= 99 ->
  facts_by D today = facts_by D later ->
  (forall uid, historical_h_index today D uid = historical_h_index later D uid)
  /\ (forall l, historical_conference_value today D l
                = historical_conference_value later D l)
  /\ (forall p, historical_base_score today D p = historical_base_score later D p)
  /\ (forall p, Sql.coalesce (historical_decayed_citations today D p) 0%Q
                = Sql.coalesce (historical_decayed_citations later D p) 0%Q)
  /\ (forall publications,
         historical_publication_rows today D publications
         = historical_publication_rows later D publications).
Proof.
  intros Hy He.
  destruct (RestrictFacts.facts_by_historical D today Hy) as (A1 & A2 & A3 & A4 & A5).
  destruct (RestrictFacts.facts_by_historical D later Hy) as (B1 & B2 & B3 & B4 & B5).
  repeat split; intro x.
  - rewrite <- A1, <- B1. now rewrite He.
  - rewrite <- A2, <- B2. now rewrite He.
  - rewrite <- A3, <- B3. now rewrite He.
  - rewrite <- A4, <- B4. now rewrite He.
  - rewrite <- A5, <- B5. now rewrite He.
Qed.

Lemma historical_reconstruction_no_look_ahead_witness :
  Publications (rows_by (Examples.ymd 2024 2 26) Examples.state_of_february)
  <> Publications (rows_by (Examples.ymd 2024 2 26) Examples.state_of_march)
  /\ historical_publication_rows Examples.state_of_february (Examples.ymd 2024 2 26)
       [(1, Examples.ymd 2024 1 30); (2, Examples.ymd 2024 2 10)]
     = historical_publication_rows Examples.state_of_march (Examples.ymd 2024 2 26)
         [(1, Examples.ymd 2024 1 30); (2, Examples.ymd 2024 2 10)].
Proof.
  split.
  - vm_compute. discriminate.
  - apply (historical_reconstruction_no_look_ahead
             (Examples.ymd 2024 2 26) Examples.state_of_february Examples.state_of_march).
    + vm_compute. intros [_ H]. apply H. reflexivity.
    + vm_compute. reflexivity.
Defined.

(* ------------------------------------------------------------------ *)
(** ** Self-citations *)
(* ------------------------------------------------------------------ *)

Module SelfCitationFacts.
Import Sql PointSystemInitializationJob.

Lemma createMany_In (rows table : list Citation) (c : Citation) :
  In c (createMany rows table) -> In c table \/ In c rows.
Proof.
  revert table. induction rows as [|r rows IH]; intros table H; simpl in *; [now left|].
  apply IH in H. destruct H as [H | H]; [|now right; right].
  destruct (existsb _ table); [now left|].
  apply in_app_or in H. destruct H as [H | [<- | []]]; [now left | right; now left].
Qed.

Lemma filter_lengths {A} (f : A -> bool) (l : list A) :
  Z.of_nat (List.length (filter (fun x => negb (f x)) l))
  = Z.of_nat (List.length l) - Z.of_nat (List.length (filter f l)).
Proof.
  induction l as [|a l IH]; [reflexivity|].
  cbn [filter]. destruct (f a); cbn [negb List.length]; rewrite ?Nat2Z.inj_succ; lia.
Qed.

(** What [insertEntry] stores for a new submission with a DOI whose
    citations were fetched. *)
Lemma insertEntry_new (entry : PublicationRow) (d : string) (raw : list OCitRecord)
      (newId : Z) (db : DB) :
  row_doi entry = Some d ->
  existsb (fun p => submission_id p =? row_submission_id entry) (Publications db) = false ->
  Publications (insertEntry entry (Some raw) newId db)
  = Publications db ++
      [mkPublication newId (row_submission_id entry) (row_doi entry)
                     (row_conference entry) (row_review_score entry) (Some 0%Q)
                     (Some (external_count raw)) (row_date_published entry)]
  /\ forall c, In c (Citations (insertEntry entry (Some raw) newId db)) ->
               In c (Citations db)
               \/ (cit_publication_id c = newId /\ author_sc c = Some false).
Proof.
  intros Hd Hnew. unfold insertEntry, citationRecords. rewrite Hd, Hnew.
  cbn [Publications Citations set_Citations set_Publications].
  split.
  - unfold external_count. now rewrite <- (filter_lengths self_record raw).
  - intros c Hc. apply createMany_In in Hc. destruct Hc as [Hc | Hc]; [now left|].
    right. apply in_map_iff in Hc. destruct Hc as [rec [<- Hrec]].
    apply filter_In in Hrec. destruct Hrec as [_ Hrec]. unfold not_self in Hrec.
    cbn [cit_publication_id author_sc]. split; [reflexivity|].
    destruct (String.eqb (oc_author_sc rec) "yes"); [discriminate | reflexivity].
Qed.

Lemma filter_comm {A} (f g : A -> bool) (l : list A) :
  filter f (filter g l) = filter g (filter f l).
Proof.
  induction l as [|a l IH]; [reflexivity|].
  simpl. destruct (f a) eqn:Ef, (g a) eqn:Eg; simpl; rewrite ?Ef, ?Eg, IH; reflexivity.
Qed.

Lemma decay_external (db : DB) (d : Z) : decay (without_self_citations db) d = decay db d.
Proof. reflexivity. Qed.

Lemma event_of_external (db : DB) (l : option Z) :
  event_of (without_self_citations db) l = event_of db l.
Proof. reflexivity. Qed.

Lemma citations_of_external (db : DB) (p : Publication) :
  citations_of (without_self_citations db) p
  = filter (fun c => negb (is_self_citation c)) (citations_of db p).
Proof. unfold citations_of. cbn [without_self_citations set_Citations Citations]. apply filter_comm. Qed.

Lemma citation_bonus_external (db : DB) (asof pubdate : Date) (v : Q) (p : Publication) :
  citation_bonus (without_self_citations db) asof pubdate v p
  = citation_bonus db asof pubdate v p.
Proof.
  unfold citation_bonus. rewrite citations_of_external, RestrictFacts.flat_map_filter_if.
  f_equal. apply flat_map_ext. intro c.
  unfold is_self_citation, counted_citation_factor.
  destruct (author_sc c) as [[|]|]; reflexivity.
Qed.

Lemma citation_case_null (db : DB) (asof pubdate : Date) (x : option Citation) :
  citation_case db None asof pubdate x = None
  \/ citation_case db None asof pubdate x = Some 0%Q.
Proof.
  unfold citation_case. destruct x as [c|]; [|now right].
  destruct (author_sc c) as [[|]|]; try (now right).
  destruct (decay db _); [now left | now right].
Qed.

(** The [decayed_citations] of a publication, NULL read as 0. *)
Lemma decayed_citations_external (db : DB) (cv : option Q) (asof pubdate : Date)
      (p : Publication) :
  coalesce (sum (map (citation_case (without_self_citations db) cv asof pubdate)
                     (left_join_citations (without_self_citations db) p))) 0%Q
  = coalesce (sum (map (citation_case db cv asof pubdate)
                       (left_join_citations db p))) 0%Q.
Proof.
  destruct cv as [v|].
  - rewrite !ScoreFacts.decayed_citations_bonus. apply citation_bonus_external.
  - rewrite !RestrictFacts.sum_null_or_zero; [reflexivity| |];
      intros x Hx; apply in_map_iff in Hx; destruct Hx as [c [<- _]];
      apply citation_case_null.
Qed.

Lemma updated_overall_score_external (now : Date) (db : DB) (p : Publication) :
  updated_overall_score now (without_self_citations db) p
  = updated_overall_score now db p.
Proof.
  unfold updated_overall_score, citation_scores.
  rewrite !event_of_external, !decay_external.
  destruct (event_of db (conference p)) as [e|]; [|reflexivity].
  destruct (decay db _); [|reflexivity].
  do 2 f_equal. apply decayed_citations_external.
Qed.

Lemma calculateCitationScoresAndDecay_external (now : Date) (db : DB) :
  Publications (calculateCitationScoresAndDecay now (without_self_citations db))
  = Publications (calculateCitationScoresAndDecay now db).
Proof.
  unfold calculateCitationScoresAndDecay.
  cbn [Publications set_Publications without_self_citations set_Citations].
  apply map_ext. intro p.
  now rewrite <- (updated_overall_score_external now db p).
Qed.

Lemma snapshot_overall_score_external (db : DB) (snapshotDate : Date) (p : Publication) :
  snapshot_overall_score (without_self_citations db) snapshotDate p
  = snapshot_overall_score db snapshotDate p.
Proof.
  unfold snapshot_overall_score, processCitationScores.
  rewrite !event_of_external, !decay_external.
  destruct (decay db _); [|reflexivity].
  do 2 f_equal. apply decayed_citations_external.
Qed.

Lemma publication_rows_external (db : DB) (snapshotDate : Date) :
  publication_rows (without_self_citations db) snapshotDate
  = publication_rows db snapshotDate.
Proof.
  unfold publication_rows.
  cbn [Publications without_self_citations set_Citations].
  apply flat_map_ext. intro p. now rewrite snapshot_overall_score_external.
Qed.

Lemma smart_citation_count_external (db : DB) (snapshotDate : Date) (p : Publication) :
  smart_citation_count (without_self_citations db) snapshotDate p
  = smart_citation_count db snapshotDate p.
Proof.
  unfold smart_citation_count.
  cbn [Citations without_self_citations set_Citations].
  rewrite RestrictFacts.filter_filter_implied; [reflexivity|].
  intros c _ H. apply andb_true_iff in H. destruct H as [_ H].
  unfold is_self_citation. destruct (author_sc c) as [[|]|];
    [discriminate | reflexivity | discriminate].
Qed.

End SelfCitationFacts.

(** C7.  For every new submission with a DOI whose citation records were
    fetched, [insertEntry] stores the publication with a [citation_count]
    equal to the number of fetched records less the self-citations among
    them, and every citation row it adds is a row of that publication that
    is not a self-citation.  On every store, removing the self-citations
    changes neither the overall scores [calculateCitationScoresAndDecay]
    writes, nor the rows and scores the snapshot of the current date
    selects, nor the citation count that weights a publication in the
    rollups, nor the citation counts, h-indexes, citation scores and
    publication rows of the historical reconstruction. *)
Theorem self_citations_never_count
        (entry : PointSystemInitializationJob.PublicationRow) (d : string)
        (raw : list PointSystemInitializationJob.OCitRecord) (newId : Z) (db : DB) :
  PointSystemInitializationJob.row_doi entry = Some d ->
  existsb (fun p => submission_id p =? PointSystemInitializationJob.row_submission_id entry)
          (Publications db) = false ->
  let stored := PointSystemInitializationJob.insertEntry entry (Some raw) newId db in
  (exists p, Publications stored = Publications db ++ [p]
             /\ pub_id p = newId
             /\ citation_count p = Some (external_count raw))
  /\ (forall c, In c (Citations stored) ->
                In c (Citations db)
                \/ (cit_publication_id c = newId /\ author_sc c = Some false))
  /\ (forall (store : DB) (now D : Date),
         Publications (calculateCitationScoresAndDecay now (without_self_citations store))
         = Publications (calculateCitationScoresAndDecay now store)
         /\ publication_rows (without_self_citations store) D = publication_rows store D
         /\ (forall p, smart_citation_count (without_self_citations store) D p
                       = smart_citation_count store D p)
         /\ (forall p, historical_citation_count (without_self_citations store) D p
                       = historical_citation_count store D p)
         /\ (forall uid, historical_h_index (without_self_citations store) D uid
                         = historical_h_index store D uid)
         /\ (forall p,
               Sql.coalesce (historical_decayed_citations (without_self_citations store) D p)
                            0%Q
               = Sql.coalesce (historical_decayed_citations store D p) 0%Q)
         /\ (forall publications,
               historical_publication_rows (without_self_citations store) D publications
               = historical_publication_rows store D publications)).
Proof.
  intros Hd Hnew stored.
  destruct (SelfCitationFacts.insertEntry_new entry d raw newId db Hd Hnew) as [HP HC].
  split; [|split].
  - eexists. split; [exact HP|]. split; reflexivity.
  - exact HC.
  - intros store now D.
    destruct (RestrictFacts.without_self_citations_historical D store)
      as (H1 & H2 & H3 & H4).
    split; [apply SelfCitationFacts.calculateCitationScoresAndDecay_external|].
    split; [apply SelfCitationFacts.publication_rows_external|].
    split; [intro p; apply SelfCitationFacts.smart_citation_count_external|].
    split; [exact H1|]. split; [exact H2|]. split; [exact H3 | exact H4].
Qed.

Lemma self_citations_never_count_witness :
  exists p,
    Publications (PointSystemInitializationJob.insertEntry
                    Examples.new_entry (Some Examples.five_records) 3 Examples.backfill)
    = Publications Examples.backfill ++ [p]
    /\ pub_id p = 3
    /\ citation_count p = Some 3.
Proof.
  apply (self_citations_never_count Examples.new_entry "10.4108/c"%string
           Examples.five_records 3 Examples.backfill); reflexivity.
Defined.

(* ================================================================== *)
(** * Further properties of the code *)
(* ================================================================== *)

(** ** The date sequences of [dateUtils] *)

Module SequenceFacts.
Import DateUtils Spec Calendar.

Lemma sequence_loop_ext (f g : Date -> Date) (fuel : nat) (c e : Date) :
  (forall x, f x = g x) -> sequence_loop f fuel c e = sequence_loop g fuel c e.
Proof.
  intro H. revert c. induction fuel as [|fuel IH]; intro c; simpl; [reflexivity|].
  destruct (c <=? e); [|reflexivity]. now rewrite IH, H.
Qed.

(** A loop whose dates are [f 0], [f 1], ... with at least a day between
    two of them. *)
Section Progression.
Variables (advance : Date -> Date) (f : Z -> Date) (endDate : Date).
Hypothesis step : forall k, 0 <= k -> advance (f k) = f (k + 1).
Hypothesis grows : forall k, 0 <= k -> f k + msPerDay <= f (k + 1).

Lemma progression_mono (k1 k2 : Z) : 0 <= k1 <= k2 -> f k1 <= f k2.
Proof.
  intros [H1 H2].
  assert (G : forall n, 0 <= n -> f k1 <= f (k1 + n)).
  { apply (natlike_ind (fun n => f k1 <= f (k1 + n))).
    - rewrite Z.add_0_r. lia.
    - intros x Hx IH. replace (k1 + Z.succ x) with ((k1 + x) + 1) by lia.
      pose proof (grows (k1 + x)) as G. unfold msPerDay in G. lia. }
  replace k2 with (k1 + (k2 - k1)) by lia. apply G. lia.
Qed.

Lemma sequence_loop_elim (fuel : nat) (k0 : Z) (d : Date) :
  0 <= k0 ->
  In d (sequence_loop advance fuel (f k0) endDate) ->
  exists k, k0 <= k /\ d = f k /\ d <= endDate.
Proof.
  revert k0. induction fuel as [|fuel IH]; intros k0 H0 Hin; simpl in Hin; [destruct Hin|].
  destruct (Z.leb_spec (f k0) endDate) as [Hle|Hgt]; [|destruct Hin].
  destruct Hin as [<- | Hin].
  - exists k0. repeat split; lia.
  - rewrite (step k0 H0) in Hin. apply IH in Hin; [|lia].
    destruct Hin as (k & Hk & Hd & He). exists k. repeat split; auto; lia.
Qed.

(** The fuel given to the loop is enough: no date is cut off. *)
Lemma sequence_loop_intro (fuel : nat) (k0 k : Z) :
  0 <= k0 <= k -> (loop_fuel (f k0) endDate <= fuel)%nat -> f k <= endDate ->
  In (f k) (sequence_loop advance fuel (f k0) endDate).
Proof.
  revert k0. induction fuel as [|fuel IH]; intros k0 Hk Hf He.
  - exfalso. pose proof (progression_mono k0 k Hk) as Hm.
    unfold loop_fuel, msPerDay in Hf.
    assert ((endDate - f k0) / 86400000 + 1 <= 0) by lia.
    Z.div_mod_to_equations. lia.
  - simpl. pose proof (progression_mono k0 k Hk) as Hm.
    destruct (Z.leb_spec (f k0) endDate) as [Hle|Hgt]; [|lia].
    destruct (Z.eq_dec k k0) as [->|Hne]; [now left|].
    right. rewrite step by lia. apply IH; [lia| |exact He].
    pose proof (grows k0 (proj1 Hk)) as Hg.
    unfold loop_fuel, msPerDay in *.
    assert ((endDate - f (k0 + 1)) / 86400000 + 1 <= (endDate - f k0) / 86400000)
      by (Z.div_mod_to_equations; lia).
    lia.
Qed.

Lemma sequence_loop_sorted (fuel : nat) (k0 : Z) :
  0 <= k0 -> StronglySorted Z.lt (sequence_loop advance fuel (f k0) endDate).
Proof.
  revert k0. induction fuel as [|fuel IH]; intros k0 H0; simpl; [constructor|].
  destruct (f k0 <=? endDate); [|constructor].
  rewrite step by lia. constructor; [apply IH; lia|].
  apply Forall_forall. intros d Hd.
  apply sequence_loop_elim in Hd; [|lia].
  destruct Hd as (k & Hk & -> & _).
  pose proof (progression_mono (k0 + 1) k ltac:(lia)) as Hm.
  pose proof (grows k0 H0) as Hg. unfold msPerDay in Hg. lia.
Qed.

Lemma sequence_loop_from (c d : Date) :
  c = f 0 ->
  In d (sequence_loop advance (loop_fuel c endDate) c endDate)
  <-> exists k, 0 <= k /\ d = f k /\ d <= endDate.
Proof.
  intros ->. split.
  - apply sequence_loop_elim. lia.
  - intros (k & Hk & -> & He). apply sequence_loop_intro; auto; lia.
Qed.

Lemma sequence_loop_sorted_from (c : Date) (fuel : nat) :
  c = f 0 -> StronglySorted Z.lt (sequence_loop advance fuel c endDate).
Proof. intros ->. apply sequence_loop_sorted. lia. Qed.

End Progression.

(** *** Months *)

Lemma MakeDay_split (yr q mn d : Z) :
  0 <= mn < 12 ->
  MakeDay yr (12 * q + mn) d = days_from_civil (yr + q) (mn + 1) 1 + d - 1.
Proof.
  intro H. unfold MakeDay.
  replace ((12 * q + mn) / 12) with q by (Z.div_mod_to_equations; lia).
  replace ((12 * q + mn) mod 12) with mn by (Z.div_mod_to_equations; lia).
  reflexivity.
Qed.

Lemma days_from_civil_next_month (y m : Z) :
  1 <= m <= 11 -> days_from_civil y m 1 + 28 <= days_from_civil y (m + 1) 1.
Proof.
  intro H. unfold days_from_civil.
  destruct (Z.leb_spec m 2), (Z.leb_spec (m + 1) 2); Z.div_mod_to_equations; lia.
Qed.

Lemma days_from_civil_next_year (y : Z) :
  days_from_civil y 12 1 + 28 <= days_from_civil (y + 1) 1 1.
Proof.
  unfold days_from_civil.
  destruct (Z.leb_spec 12 2), (Z.leb_spec 1 2); Z.div_mod_to_equations; lia.
Qed.

Lemma MakeDay_next_month (yr M : Z) : MakeDay yr M 1 + 28 <= MakeDay yr (M + 1) 1.
Proof.
  assert (HM : M = 12 * (M / 12) + M mod 12) by (Z.div_mod_to_equations; lia).
  assert (Hr : 0 <= M mod 12 < 12) by (Z.div_mod_to_equations; lia).
  set (q := M / 12) in *. set (mn := M mod 12) in *. rewrite HM.
  rewrite MakeDay_split by lia.
  destruct (Z.eq_dec mn 11) as [E|E].
  - replace (12 * q + mn + 1) with (12 * (q + 1) + 0) by lia.
    rewrite MakeDay_split by lia. rewrite E.
    pose proof (days_from_civil_next_year (yr + q)) as G.
    replace (yr + (q + 1)) with (yr + q + 1) by lia. simpl (0 + 1). simpl (11 + 1). lia.
  - replace (12 * q + mn + 1) with (12 * q + (mn + 1)) by lia.
    rewrite MakeDay_split by lia.
    pose proof (days_from_civil_next_month (yr + q) (mn + 1) ltac:(lia)) as G. lia.
Qed.

(** The calendar fields of the first day of a month. *)
Lemma civil_of_MakeDay (yr M : Z) :
  civil_from_days (MakeDay yr M 1) = (yr + M / 12, M mod 12 + 1, 1).
Proof.
  unfold MakeDay.
  replace (days_from_civil (yr + M / 12) (M mod 12 + 1) 1 + 1 - 1)
    with (days_from_civil (yr + M / 12) (M mod 12 + 1) 1) by lia.
  apply DateFacts.civil_of_first. Z.div_mod_to_equations; lia.
Qed.

Lemma first_of_month_after_fields (t : Date) (k : Z) :
  getUTCFullYear (first_of_month_after t k) = getUTCFullYear t + (getUTCMonth t + k) / 12
  /\ getUTCMonth (first_of_month_after t k) = (getUTCMonth t + k) mod 12
  /\ first_of_month_midnight (first_of_month_after t k).
Proof.
  unfold first_of_month_after, first_of_month_midnight.
  set (y := getUTCFullYear t). set (M := getUTCMonth t + k).
  unfold getUTCFullYear, getUTCMonth, getUTCDate.
  rewrite DateFacts.Day_MakeDate, civil_of_MakeDay, DateFacts.TimeWithinDay_MakeDate.
  repeat split; lia.
Qed.

Lemma setUTCMonth_first (t : Date) (k j : Z) :
  setUTCMonth (first_of_month_after t k) (getUTCMonth (first_of_month_after t k) + j)
  = first_of_month_after t (k + j).
Proof.
  destruct (first_of_month_after_fields t k) as (Hy & Hm & Hd & Ht).
  unfold setUTCMonth. rewrite Hy, Hm, Hd, Ht.
  unfold first_of_month_after. f_equal. unfold MakeDay.
  set (M := getUTCMonth t + k).
  replace (getUTCMonth t + (k + j)) with (M + j) by (subst M; lia).
  replace (getUTCFullYear t + M / 12 + (M mod 12 + j) / 12)
    with (getUTCFullYear t + (M + j) / 12) by (Z.div_mod_to_equations; lia).
  replace ((M mod 12 + j) mod 12) with ((M + j) mod 12) by (Z.div_mod_to_equations; lia).
  reflexivity.
Qed.

Lemma first_of_month_after_grows (t : Date) (k : Z) :
  first_of_month_after t k + msPerDay <= first_of_month_after t (k + 1).
Proof.
  unfold first_of_month_after, MakeDate, msPerDay.
  pose proof (MakeDay_next_month (getUTCFullYear t) (getUTCMonth t + k)) as G.
  replace (getUTCMonth t + (k + 1)) with (getUTCMonth t + k + 1) by lia. lia.
Qed.

Lemma first_of_month_after_0 (yr m : Z) :
  0 <= m <= 11 ->
  first_of_month_after (MakeDate (MakeDay yr m 1) 0) 0 = MakeDate (MakeDay yr m 1) 0.
Proof.
  intro Hm. unfold first_of_month_after, getUTCFullYear, getUTCMonth.
  rewrite DateFacts.Day_MakeDate, civil_of_MakeDay.
  replace (m / 12) with 0 by (Z.div_mod_to_equations; lia).
  replace (m mod 12 + 1 - 1 + 0) with m by (Z.div_mod_to_equations; lia).
  now rewrite Z.add_0_r.
Qed.

Lemma DateUTC_first_fields (year month : Z) :
  0 <= month <= 11 ->
  getUTCMonth (DateUTC year month 1) = month
  /\ first_of_month_after (DateUTC year month 1) 0 = DateUTC year month 1.
Proof.
  intro Hm. unfold DateUTC.
  set (yr := if (0 <=? year) && (year <=? 99) then 1900 + year else year).
  split; [|now apply first_of_month_after_0].
  unfold getUTCMonth. rewrite DateFacts.Day_MakeDate, civil_of_MakeDay.
  Z.div_mod_to_equations; lia.
Qed.

(** The first Monday at or after a midnight. *)
Lemma first_monday (c0 : Date) :
  TimeWithinDay c0 = 0 ->
  let day := getUTCDay c0 in
  let first := if day =? 1 then c0
               else setUTCDate c0 (getUTCDate c0 + (if day =? 0 then 1 else 8 - day)) in
  monday_midnight first /\ c0 <= first < c0 + 7 * msPerDay.
Proof.
  intros H0 day first. subst first day. unfold monday_midnight.
  destruct (Z.eqb_spec (getUTCDay c0) 1) as [E|E].
  - unfold msPerDay. repeat split; auto; lia.
  - rewrite DateFacts.setUTCDate_add. revert E H0.
    unfold getUTCDay, TimeWithinDay, Day, msPerDay.
    destruct (Z.eqb_spec ((c0 / 86400000 + 4) mod 7) 0) as [E0|E0]; intros E H0;
      repeat split; Z.div_mod_to_equations; lia.
Qed.

End SequenceFacts.

(** X1.  The weekly sequence is exactly the Mondays at 00:00 UTC from the
    midnight that starts the day of [startDate] up to [endDate], in
    increasing order: no Monday of the range is missing and nothing else is
    returned. *)
Theorem generateMondaySequence_exact (startDate endDate : Date) :
  (forall m, In m (generateMondaySequence startDate endDate)
             <-> monday_midnight m /\ setUTCHours0 startDate <= m <= endDate)
  /\ StronglySorted Z.lt (generateMondaySequence startDate endDate).
Proof.
  unfold generateMondaySequence.
  set (c0 := setUTCHours0 startDate).
  assert (H0 : TimeWithinDay c0 = 0) by apply DateFacts.TimeWithinDay_MakeDate.
  destruct (SequenceFacts.first_monday c0 H0) as [[Hmon Hmid] Hrange].
  cbv zeta in Hmon, Hmid, Hrange.
  set (first := if getUTCDay c0 =? 1 then c0
                else setUTCDate c0 (getUTCDate c0
                                    + (if getUTCDay c0 =? 0 then 1 else 8 - getUTCDay c0)))
    in *.
  rewrite (SequenceFacts.sequence_loop_ext _ (fun c => c + 7 * msPerDay))
    by (intro x; apply DateFacts.setUTCDate_add).
  set (f := fun k : Z => first + k * (7 * msPerDay)).
  assert (Hstep : forall k, 0 <= k -> (fun c => c + 7 * msPerDay) (f k) = f (k + 1))
    by (intros; unfold f; lia).
  assert (Hgrows : forall k, 0 <= k -> f k + msPerDay <= f (k + 1))
    by (intros; unfold f, msPerDay; lia).
  assert (Hf0 : first = f 0) by (unfold f; lia).
  split.
  - intro m.
    rewrite (SequenceFacts.sequence_loop_from _ f endDate Hstep Hgrows first m Hf0).
    unfold f. split.
    + intros (k & Hk & -> & He). split; [|unfold msPerDay in *; lia].
      revert Hmon Hmid. unfold monday_midnight, getUTCDay, TimeWithinDay, Day, msPerDay.
      intros. split; Z.div_mod_to_equations; lia.
    + intros [[Hd Ht] [Hlo Hhi]].
      exists ((m - first) / (7 * msPerDay)).
      revert Hmon Hmid Hd Ht Hrange Hlo.
      unfold getUTCDay, TimeWithinDay, Day, msPerDay. intros.
      repeat split; try assumption; Z.div_mod_to_equations; lia.
  - exact (SequenceFacts.sequence_loop_sorted_from _ f endDate Hstep Hgrows first _ Hf0).
Qed.

(** X2.  The monthly sequence is exactly the midnights of the first days
    of the months from the month of [startDate] on that are not after
    [endDate], in increasing order; it starts at the first day of the month
    of [startDate], not at [startDate]. *)
Theorem generateMonthlySequence_exact (startDate endDate : Date) :
  let first := DateUTC (getUTCFullYear startDate) (getUTCMonth startDate) 1 in
  (forall d, In d (generateMonthlySequence startDate endDate)
             <-> exists k, 0 <= k /\ d = Calendar.first_of_month_after first k
                           /\ d <= endDate)
  /\ (forall k, Calendar.first_of_month_midnight (Calendar.first_of_month_after first k)
                /\ getUTCMonth (Calendar.first_of_month_after first k)
                   = (getUTCMonth startDate + k) mod 12)
  /\ StronglySorted Z.lt (generateMonthlySequence startDate endDate).
Proof.
  intro first. unfold generateMonthlySequence. fold first.
  destruct (SequenceFacts.DateUTC_first_fields (getUTCFullYear startDate)
              (getUTCMonth startDate) (DateFacts.getUTCMonth_range startDate))
    as [Hmonth Hfirst].
  fold first in Hmonth, Hfirst.
  pose (f := Calendar.first_of_month_after first).
  assert (Hstep : forall k, 0 <= k ->
                            (fun c => setUTCMonth c (getUTCMonth c + 1)) (f k) = f (k + 1))
    by (intros; apply SequenceFacts.setUTCMonth_first).
  assert (Hgrows : forall k, 0 <= k -> f k + msPerDay <= f (k + 1))
    by (intros; apply SequenceFacts.first_of_month_after_grows).
  assert (Hf0 : first = f 0) by (symmetry; exact Hfirst).
  split; [|split].
  - intro d. exact (SequenceFacts.sequence_loop_from _ f endDate Hstep Hgrows first d Hf0).
  - intro k.
    destruct (SequenceFacts.first_of_month_after_fields first k) as (_ & Hm & Hd).
    split; [exact Hd|]. now rewrite Hm, Hmonth.
  - exact (SequenceFacts.sequence_loop_sorted_from _ f endDate Hstep Hgrows first _ Hf0).
Qed.

(** X3.  The quarterly sequence starts at the first day of the quarter of
    [startDate] and is exactly the midnights of the first days of every
    third month from there up to [endDate], in increasing order; every date
    falls in January, April, July or October. *)
Theorem generateQuarterlySequence_exact (startDate endDate : Date) :
  let first := DateUTC (getUTCFullYear startDate) (getUTCMonth startDate / 3 * 3) 1 in
  (forall d, In d (generateQuarterlySequence startDate endDate)
             <-> exists k, 0 <= k /\ d = Calendar.first_of_month_after first (3 * k)
                           /\ d <= endDate)
  /\ (forall k, Calendar.first_of_month_midnight
                  (Calendar.first_of_month_after first (3 * k))
                /\ getUTCMonth (Calendar.first_of_month_after first (3 * k)) mod 3 = 0)
  /\ StronglySorted Z.lt (generateQuarterlySequence startDate endDate).
Proof.
  intro first. unfold generateQuarterlySequence. cbv zeta. fold first.
  pose proof (DateFacts.getUTCMonth_range startDate) as Hr.
  assert (Hq : 0 <= getUTCMonth startDate / 3 * 3 <= 11) by (Z.div_mod_to_equations; lia).
  destruct (SequenceFacts.DateUTC_first_fields (getUTCFullYear startDate) _ Hq)
    as [Hmonth Hfirst].
  fold first in Hmonth, Hfirst.
  pose (f := fun k => Calendar.first_of_month_after first (3 * k)).
  assert (Hstep : forall k, 0 <= k ->
                            (fun c => setUTCMonth c (getUTCMonth c + 3)) (f k) = f (k + 1)).
  { intros k _. unfold f. cbv beta. rewrite SequenceFacts.setUTCMonth_first.
    f_equal. lia. }
  assert (Hgrows : forall k, 0 <= k -> f k + msPerDay <= f (k + 1)).
  { intros k _. unfold f.
    pose proof (SequenceFacts.first_of_month_after_grows first (3 * k)) as G1.
    pose proof (SequenceFacts.first_of_month_after_grows first (3 * k + 1)) as G2.
    pose proof (SequenceFacts.first_of_month_after_grows first (3 * k + 1 + 1)) as G3.
    replace (3 * (k + 1)) with (3 * k + 1 + 1 + 1) by lia.
    unfold msPerDay in *. lia. }
  assert (Hf0 : first = f 0) by (symmetry; exact Hfirst).
  split; [|split].
  - intro d. exact (SequenceFacts.sequence_loop_from _ f endDate Hstep Hgrows first d Hf0).
  - intro k.
    destruct (SequenceFacts.first_of_month_after_fields first (3 * k)) as (_ & Hm & Hd).
    split; [exact Hd|]. rewrite Hm, Hmonth. Z.div_mod_to_equations; lia.
  - exact (SequenceFacts.sequence_loop_sorted_from _ f endDate Hstep Hgrows first _ Hf0).
Qed.

(** X4.  For a date whose year is not one of 0 to 99,
    [normalizeToMidnightUTC] returns the midnight that starts the same UTC
    day: the day of the month is kept, the result is at most a day before
    the date, and normalizing again changes nothing. *)
Theorem normalizeToMidnightUTC_keeps_day (t : Date) :
  ~ 0 <= getUTCFullYear t <= 99 ->
  normalizeToMidnightUTC t = setUTCHours0 t
  /\ getUTCDate (normalizeToMidnightUTC t) = getUTCDate t
  /\ TimeWithinDay (normalizeToMidnightUTC t) = 0
  /\ normalizeToMidnightUTC t <= t < normalizeToMidnightUTC t + msPerDay
  /\ normalizeToMidnightUTC (normalizeToMidnightUTC t) = normalizeToMidnightUTC t.
Proof.
  intro Hy.
  assert (E : forall u, ~ 0 <= getUTCFullYear u <= 99 ->
                        normalizeToMidnightUTC u = setUTCHours0 u).
  { intros u Hu. unfold normalizeToMidnightUTC, DateUTC, setUTCHours0.
    replace ((0 <=? getUTCFullYear u) && (getUTCFullYear u <=? 99)) with false
      by (symmetry; apply andb_false_iff;
          destruct (Z.leb_spec 0 (getUTCFullYear u));
          [right; apply Z.leb_gt; lia | now left]).
    rewrite DateFacts.MakeDay_current. f_equal. lia. }
  assert (D : Day (setUTCHours0 t) = Day t) by apply DateFacts.Day_MakeDate.
  rewrite (E t Hy).
  split; [reflexivity|].
  split; [unfold getUTCDate; now rewrite D|].
  split; [apply DateFacts.TimeWithinDay_MakeDate|].
  split; [unfold setUTCHours0, MakeDate, Day, msPerDay; Z.div_mod_to_equations; lia|].
  rewrite E; [|unfold getUTCFullYear; now rewrite D].
  unfold setUTCHours0 at 1. now rewrite D.
Qed.

Lemma normalizeToMidnightUTC_keeps_day_witness :
  normalizeToMidnightUTC Examples.now = Examples.ymd 2025 5 18
  /\ getUTCDate (normalizeToMidnightUTC Examples.now) = 18.
Proof.
  destruct (normalizeToMidnightUTC_keeps_day Examples.now) as (H1 & H2 & _).
  - vm_compute. intros [_ H]. apply H. reflexivity.
  - split; [rewrite H1|rewrite H2]; reflexivity.
Defined.

(** ** The three calculators *)

Module CalculatorFacts.
Import Sql SqlFacts HIndexFacts Invariants.

Lemma qualifying_rank_bounds (counts : list (option Z)) (h : Z) :
  HIndexPerUser counts = Some h -> 1 <= h <= Z.of_nat (List.length counts).
Proof.
  intro H. apply HIndexPerUser_Some in H. destruct H as [[c (H1 & Hn & _)] _].
  split; [exact H1|].
  assert (Hl : (Z.to_nat (h - 1) < List.length (order_by_desc counts))%nat)
    by (apply nth_error_Some; congruence).
  pose proof (Permutation_length (order_by_perm desc_before counts)) as Hp.
  unfold order_by_desc in Hl. lia.
Qed.

(** [GREATEST(1, LEAST(x, 5))] case by case. *)
Lemma clamp_1_5_cases (x : Q) :
  ((x <= 1 -> clamp_1_5 x == 1)
   /\ (1 <= x <= 5 -> clamp_1_5 x == x)
   /\ (5 <= x -> clamp_1_5 x == 5))%Q.
Proof.
  unfold clamp_1_5. repeat split.
  - intro H. apply Q.max_l. apply Qle_trans with x; [apply Q.le_min_l | exact H].
  - intros [H1 H5]. rewrite (Q.min_l x 5 H5). now apply Q.max_r.
  - intro H. rewrite (Q.min_r x 5 H). apply Q.max_r. discriminate.
Qed.

Lemma clamp_1_100_range (x : Q) : (1 <= clamp_1_100 x <= 100)%Q.
Proof.
  unfold clamp_1_100. split.
  - apply Q.min_glb; [apply Q.le_max_l | discriminate].
  - apply Q.le_min_r.
Qed.

Lemma user_citation_counts_Users (db : DB) (l : list User) (uid : Z) :
  user_citation_counts (set_Users db l) uid = user_citation_counts db uid.
Proof. reflexivity. Qed.

Lemma averages_Events (db : DB) (l : list Event) (c : Z) :
  averages (set_Events db l) c = averages db c.
Proof. reflexivity. Qed.

(** The new score of a row depends on none of the overall scores. *)
Lemma updated_overall_score_Publications (now : Date) (db : DB)
      (l : list Publication) (p p' : Publication) :
  same_but_score p p' ->
  updated_overall_score now (set_Publications db l) p' = updated_overall_score now db p.
Proof.
  intros (Hid & _ & _ & Hc & Hr & _ & Hd).
  unfold updated_overall_score, citation_scores, left_join_citations.
  rewrite Hid, Hc, Hr, Hd. reflexivity.
Qed.

Lemma updated_row_same (p : Publication) (o : option Q) :
  same_but_score p
    (match o with
     | Some s => mkPublication (pub_id p) (submission_id p) (doi p) (conference p)
                               (review_score p) (Some s) (citation_count p)
                               (date_published p)
     | None => p
     end).
Proof. destruct o; repeat split. Qed.

(** A timestamp is less than a day after the midnight of its day. *)
Lemma days_between_today (now : Date) : days_between now (date_trunc_day now) = 0.
Proof.
  unfold days_between, date_trunc_day, Day, msPerDay.
  apply Z.quot_small. Z.div_mod_to_equations. lia.
Qed.

End CalculatorFacts.

(** X5.  [calculateUserHIndex] and [calculateConferenceValue] keep the rows
    of their table in place with their ids.  An h-index that is written is
    at least 1, at most 100 and at most the number of publications ranked
    for the researcher; a venue value that is written is between 1 and
    100. *)
Theorem calculators_write_values_in_range (db : DB) :
  (map user_id (Users (calculateUserHIndex db)) = map user_id (Users db)
   /\ forall i u u',
       nth_error (Users db) i = Some u ->
       nth_error (Users (calculateUserHIndex db)) i = Some u' ->
       u' = u
       \/ exists h, u' = mkUser (user_id u) (Some h)
                    /\ 1 <= h <= 100
                    /\ h <= Z.of_nat (List.length (user_citation_counts db (user_id u))))
  /\ (map lisperator_id (Events (calculateConferenceValue db))
      = map lisperator_id (Events db)
      /\ forall i e e',
          nth_error (Events db) i = Some e ->
          nth_error (Events (calculateConferenceValue db)) i = Some e' ->
          e' = e
          \/ exists v, e' = mkEvent (lisperator_id e) (Some v) /\ (1 <= v <= 100)%Q).
Proof.
  split; split.
  - unfold calculateUserHIndex. cbn [Users set_Users]. rewrite map_map.
    apply map_ext. intro u. now destruct (HIndexPerUser _).
  - intros i u u' Hu Hu'. unfold calculateUserHIndex in Hu'. cbn [Users set_Users] in Hu'.
    rewrite nth_error_map, Hu in Hu'. simpl in Hu'. injection Hu' as <-.
    destruct (HIndexPerUser (user_citation_counts db (user_id u))) as [h|] eqn:E;
      [right | now left].
    apply CalculatorFacts.qualifying_rank_bounds in E.
    exists (Z.min h 100). split; [reflexivity|]. lia.
  - unfold calculateConferenceValue. cbn [Events set_Events]. rewrite map_map.
    apply map_ext. intro e. destruct (lisperator_id e) as [l|] eqn:El; [|exact El].
    destruct (averages db l); [reflexivity | exact El].
  - intros i e e' He He'. unfold calculateConferenceValue in He'.
    cbn [Events set_Events] in He'.
    rewrite nth_error_map, He in He'. simpl in He'. injection He' as <-.
    destruct (lisperator_id e) as [l|]; [|now left].
    destruct (averages db l) as [a|]; [right | now left].
    exists (conference_value_of a). split; [reflexivity|].
    apply CalculatorFacts.clamp_1_100_range.
Qed.

(** X6.  Each calculator is idempotent: run again on its own result (for
    the scores, at the same time), it changes nothing.  What a calculator
    writes is computed from columns it does not write. *)
Theorem calculators_are_idempotent (now : Date) (db : DB) :
  calculateUserHIndex (calculateUserHIndex db) = calculateUserHIndex db
  /\ calculateConferenceValue (calculateConferenceValue db) = calculateConferenceValue db
  /\ calculateCitationScoresAndDecay now (calculateCitationScoresAndDecay now db)
     = calculateCitationScoresAndDecay now db.
Proof.
  split; [|split].
  - pose (G := fun u => match HIndexPerUser (user_citation_counts db (user_id u)) with
                        | Some h => mkUser (user_id u) (Some (Z.min h 100))
                        | None => u
                        end).
    transitivity (set_Users db (map G (map G (Users db)))); [reflexivity|].
    unfold calculateUserHIndex. f_equal. fold G. rewrite map_map.
    apply map_ext. intro u. unfold G.
    destruct (HIndexPerUser (user_citation_counts db (user_id u))) as [h|] eqn:E;
      cbn [user_id]; now rewrite E.
  - pose (G := fun e => match lisperator_id e with
                        | Some l =>
                            match averages db l with
                            | Some a => mkEvent (lisperator_id e) (Some (conference_value_of a))
                            | None => e
                            end
                        | None => e
                        end).
    transitivity (set_Events db (map G (map G (Events db)))); [reflexivity|].
    unfold calculateConferenceValue. f_equal. fold G. rewrite map_map.
    apply map_ext. intro e. unfold G.
    destruct (lisperator_id e) as [l|] eqn:El; [|now rewrite El].
    destruct (averages db l) as [a|] eqn:Ea; cbn [lisperator_id]; now rewrite ?El, Ea.
  - pose (G := fun d p => match updated_overall_score now d p with
                          | Some s =>
                              mkPublication (pub_id p) (submission_id p) (doi p)
                                            (conference p) (review_score p) (Some s)
                                            (citation_count p) (date_published p)
                          | None => p
                          end).
    transitivity (set_Publications db
                    (map (G (set_Publications db (map (G db) (Publications db))))
                         (map (G db) (Publications db)))); [reflexivity|].
    unfold calculateCitationScoresAndDecay. f_equal. fold (G db). rewrite map_map.
    apply map_ext. intro p. unfold G.
    rewrite (CalculatorFacts.updated_overall_score_Publications now db _ p)
      by apply CalculatorFacts.updated_row_same.
    now destruct (updated_overall_score now db p) as [s|].
Qed.

(** X7.  [calculateCitationScoresAndDecay] keeps every publication row in
    place and changes its overall score at most.  A publication whose venue
    joins no event, or whose age in days has no row in the decay table,
    keeps the score it had.  A venue whose value is NULL counts as value 1
    and gives no citation bonus: the score is the decay factor times the
    review score, with 1 for a review score that is missing or below 1 and
    5 for one above 5.  A publication without a publication date has
    age 0. *)
Theorem calculateCitationScoresAndDecay_rows (now : Date) (db : DB) :
  (forall i p,
      nth_error (Publications db) i = Some p ->
      let age := days_between now (Sql.coalesce (date_published p) (date_trunc_day now)) in
      exists p',
        nth_error (Publications (calculateCitationScoresAndDecay now db)) i = Some p'
        /\ Invariants.same_but_score p p'
        /\ (event_of db (conference p) = None \/ decay db age = None -> p' = p)
        /\ (forall e f,
               event_of db (conference p) = Some e -> conference_value e = None ->
               decay db age = Some f ->
               exists s, overall_score p' = Some s
                         /\ (review_score p = None -> s == f)%Q
                         /\ (forall r, review_score p = Some r ->
                                       (r < 1 -> s == f)
                                       /\ (1 <= r <= 5 -> s == r * f)
                                       /\ (5 < r -> s == 5 * f))%Q))
  /\ (forall p, date_published p = None ->
                days_between now (Sql.coalesce (date_published p) (date_trunc_day now)) = 0).
Proof.
  split.
  - intros i p Hp age. eexists. split.
    + unfold calculateCitationScoresAndDecay. cbn [Publications set_Publications].
      rewrite nth_error_map, Hp. reflexivity.
    + split; [apply CalculatorFacts.updated_row_same|]. split.
      * intro H. unfold updated_overall_score, citation_scores. fold age.
        destruct H as [-> | H]; [reflexivity|].
        destruct (event_of db (conference p)); [|reflexivity]. now rewrite H.
      * intros e f He Hv Hf. unfold updated_overall_score, citation_scores. fold age.
        rewrite He, Hv, Hf. eexists. split; [reflexivity|].
        rewrite RestrictFacts.sum_null_or_zero
          by (intros x Hx; apply in_map_iff in Hx; destruct Hx as [c [<- _]];
              apply SelfCitationFacts.citation_case_null).
        cbn [Sql.coalesce]. split.
        -- intros ->. cbn [Sql.coalesce].
           rewrite (proj1 (CalculatorFacts.clamp_1_5_cases 1)) by Lqa.lra. ring.
        -- intros r ->. cbn [Sql.coalesce].
           destruct (CalculatorFacts.clamp_1_5_cases r) as (C1 & C2 & C3).
           repeat split; intro Hr.
           ++ rewrite C1 by Lqa.lra. ring.
           ++ rewrite C2 by exact Hr. ring.
           ++ rewrite C3 by Lqa.lra. ring.
  - intros p ->. apply CalculatorFacts.days_between_today.
Qed.

(** ** What the snapshot generator keeps *)

Module KeepFacts.
Import Sql UpsertFacts GeneratorFacts Invariants.

Lemma kept_refl (db : DB) : kept db db.
Proof.
  split; [repeat split|]. split; [repeat split; apply incl_refl | auto].
Qed.

Lemma kept_trans (a b c : DB) : kept a b -> kept b c -> kept a c.
Proof.
  intros ((A1 & A2 & A3 & A4 & A5 & A6 & A7) & (K1 & K2 & K3 & K4) & U)
         ((B1 & B2 & B3 & B4 & B5 & B6 & B7) & (L1 & L2 & L3 & L4) & V).
  split; [repeat split; congruence|].
  split; [|auto].
  repeat split; eapply incl_tran; eauto.
Qed.

Section Keyed.
Context {K : Type} (eqb : K -> K -> bool).
Hypothesis eqb_eq : forall a b, eqb a b = true <-> a = b.

Lemma upsert_rows_keys (rows : list (K * option Q)) (t t' : list (K * Q)) :
  upsert_rows eqb rows t = Some t' -> incl (map fst t) (map fst t').
Proof.
  revert t. induction rows as [|[k [v|]] rows IH]; intros t H; simpl in H.
  - injection H as <-. apply incl_refl.
  - eapply incl_tran; [|apply (IH _ H)]. rewrite upsert_keys.
    destruct (has_key eqb k t); [apply incl_refl | apply incl_appl, incl_refl].
  - discriminate.
Qed.

Lemma insert_on_conflict_update_keys (rows : list (K * option Q)) (t t' : list (K * Q)) :
  insert_on_conflict_update eqb rows t = Some t' -> incl (map fst t) (map fst t').
Proof.
  unfold insert_on_conflict_update.
  destruct (distinct_keys eqb rows); [apply upsert_rows_keys | discriminate].
Qed.

(** A selected NULL makes the statement fail. *)
Lemma upsert_rows_null (rows : list (K * option Q)) (t : list (K * Q)) (k : K) :
  In (k, None) rows -> upsert_rows eqb rows t = None.
Proof.
  revert t. induction rows as [|[k0 [v|]] rows IH]; intros t Hin; simpl.
  - destruct Hin.
  - destruct Hin as [Heq|Hin]; [discriminate | now apply IH].
  - reflexivity.
Qed.

Lemma insert_on_conflict_update_null (rows : list (K * option Q)) (t : list (K * Q))
      (k : K) :
  In (k, None) rows -> insert_on_conflict_update eqb rows t = None.
Proof.
  intro Hin. unfold insert_on_conflict_update.
  destruct (distinct_keys eqb rows); [now apply (upsert_rows_null _ _ k) | reflexivity].
Qed.
End Keyed.

Ltac one_table :=
  match goal with
  | H : insert_on_conflict_update ?eqb ?rows ?t = Some ?t' |- kept _ _ =>
      let Hk := fresh "Hk" in
      pose proof (insert_on_conflict_update_keys eqb rows t t' H) as Hk;
      split; [repeat split|];
      split; [repeat split; cbn; first [exact Hk | apply incl_refl]|];
      intros (U1 & U2 & U3 & U4); repeat split; cbn; try assumption;
      first [ exact (insert_on_conflict_update_NoDup _ key2_eqb_eq _ _ _ H U1)
            | exact (insert_on_conflict_update_NoDup _ key2_eqb_eq _ _ _ H U2)
            | exact (insert_on_conflict_update_NoDup _ key3_eqb_eq _ _ _ H U3)
            | exact (insert_on_conflict_update_NoDup _ key2_eqb_eq _ _ _ H U4) ]
  end.

Lemma publication_tx_kept (rows : list ((Z * Date) * option Q)) (a b : DB) :
  option_map (set_PublicationSnapshots a)
    (insert_on_conflict_update key2_eqb rows (PublicationSnapshots a)) = Some b ->
  kept a b.
Proof.
  destruct (insert_on_conflict_update key2_eqb rows _) as [t|] eqn:E; [|discriminate].
  intro H. injection H as <-. one_table.
Qed.

Lemma topic_tx_kept (rows : list ((Z * Date) * option Q)) (a b : DB) :
  option_map (set_TopicSnapshots a)
    (insert_on_conflict_update key2_eqb rows (TopicSnapshots a)) = Some b ->
  kept a b.
Proof.
  destruct (insert_on_conflict_update key2_eqb rows _) as [t|] eqn:E; [|discriminate].
  intro H. injection H as <-. one_table.
Qed.

Lemma user_tx_kept (rows3 : list ((Z * Z * Date) * option Q))
      (rows2 : list ((Z * Date) * option Q)) (a b : DB) :
  match insert_on_conflict_update key3_eqb rows3 (UserTopicSnapshots a) with
  | Some uts =>
      option_map (set_UserOverallSnapshots (set_UserTopicSnapshots a uts))
        (insert_on_conflict_update key2_eqb rows2 (UserOverallSnapshots a))
  | None => None
  end = Some b ->
  kept a b.
Proof.
  destruct (insert_on_conflict_update key3_eqb rows3 _) as [t3|] eqn:E3; [|discriminate].
  destruct (insert_on_conflict_update key2_eqb rows2 _) as [t2|] eqn:E2; [|discriminate].
  intro H. injection H as <-.
  pose proof (insert_on_conflict_update_keys _ _ _ _ E3) as K3.
  pose proof (insert_on_conflict_update_keys _ _ _ _ E2) as K2.
  split; [repeat split|].
  split; [repeat split; cbn; first [assumption | apply incl_refl]|].
  intros (U1 & U2 & U3 & U4). repeat split; cbn; try assumption.
  - exact (insert_on_conflict_update_NoDup _ key3_eqb_eq _ _ _ E3 U3).
  - exact (insert_on_conflict_update_NoDup _ key2_eqb_eq _ _ _ E2 U4).
Qed.

Section WithPower.
Variable POWER : Q -> Q -> Q.
Variable checkDatabaseHealth : Date -> bool.

Lemma current_tx_kept (d : Date) (tx : DB -> option DB) (a b : DB) :
  In tx [processPublicationSnapshots d; calculateSimpleTopicAverages d;
         processUserSnapshots POWER d] ->
  tx a = Some b -> kept a b.
Proof.
  intros [<-|[<-|[<-|[]]]] H.
  - now apply publication_tx_kept in H.
  - unfold calculateSimpleTopicAverages in H.
    destruct (latest_snapshot_date a _);
      [now apply topic_tx_kept in H | injection H as <-; apply kept_refl].
  - unfold processUserSnapshots in H.
    destruct (latest_snapshot_date a _);
      [now apply user_tx_kept in H | injection H as <-; apply kept_refl].
Qed.

Lemma historical_tx_kept (D : Date) (pubs : list (Z * Date)) (tx : DB -> option DB)
      (a b : DB) :
  In tx [historical_publication_tx D pubs; calculateEnhancedHistoricalTopicAverages D;
         processHistoricalUserSnapshots D] ->
  tx a = Some b -> kept a b.
Proof.
  intros [<-|[<-|[<-|[]]]] H.
  - now apply publication_tx_kept in H.
  - unfold calculateEnhancedHistoricalTopicAverages in H.
    destruct (latest_snapshot_date a _);
      [now apply topic_tx_kept in H | injection H as <-; apply kept_refl].
  - unfold processHistoricalUserSnapshots in H.
    destruct (latest_snapshot_date a _);
      [now apply user_tx_kept in H | injection H as <-; apply kept_refl].
Qed.

Lemma createSnapshots_kept (d : Date) (db : DB) :
  kept db (fst (createSnapshots POWER d db)).
Proof.
  unfold createSnapshots.
  apply (run_transactions_rel kept kept_refl kept_trans).
  intros tx a b. apply current_tx_kept.
Qed.

Lemma createHistoricalSnapshots_kept (D : Date) (pubs : list (Z * Date)) (db : DB) :
  kept db (fst (createHistoricalSnapshots D pubs db)).
Proof.
  unfold createHistoricalSnapshots.
  apply (retry_loop_rel kept kept_refl kept_trans). intro a.
  apply (run_transactions_rel kept kept_refl kept_trans).
  intros tx x y. apply historical_tx_kept.
Qed.

Lemma historical_step_kept (pubs : list (Z * Date)) (state : DB * list (Z * Z))
      (D : Date) :
  kept (fst state) (fst (historical_step checkDatabaseHealth pubs state D)).
Proof.
  destruct state as [db tracked]. unfold historical_step.
  match goal with
  | |- context [match ?l with [] => _ | _ :: _ => _ end] => destruct l as [|x l']
  end; [apply kept_refl|].
  destruct (checkDatabaseHealth D); [|apply kept_refl].
  destruct (snd (createHistoricalSnapshots D (x :: l') db));
    apply createHistoricalSnapshots_kept.
Qed.

Lemma processHistoricalSnapshots_kept (pubs : list (Z * Date)) (endDate : Date)
      (freq : SnapshotFrequency) (db : DB) :
  kept db (processHistoricalSnapshots checkDatabaseHealth pubs endDate freq db).
Proof.
  unfold processHistoricalSnapshots.
  generalize (getDateSequence freq
                (fold_left (fun e pub => if snd pub <? e then snd pub else e) pubs endDate)
                endDate).
  generalize (flat_map (fun r => if mem (fst (fst r)) (map fst pubs)
                                 then [(fst (fst r), Day (snd (fst r)))] else [])
                       (PublicationSnapshots db)).
  intros tracked dates.
  assert (G : forall state, kept db (fst state) ->
                            kept db (fst (fold_left (historical_step checkDatabaseHealth pubs)
                                                    dates state))).
  { induction dates as [|D dates IH]; intros state H; simpl; [exact H|].
    apply IH. eapply kept_trans; [exact H | apply historical_step_kept]. }
  apply G. apply kept_refl.
Qed.

Lemma smartSnapshotGenerator_kept (currentDate : Date) (includeCurrentSnapshot : bool)
      (freq : SnapshotFrequency) (db : DB) :
  kept db (fst (smartSnapshotGenerator POWER checkDatabaseHealth currentDate
                  includeCurrentSnapshot freq db)).
Proof.
  unfold smartSnapshotGenerator.
  set (db1 := match getPublicationsNeedingHistory _ db with
              | [] => db
              | _ => _
              end).
  assert (H1 : kept db db1).
  { subst db1. destruct (getPublicationsNeedingHistory _ db);
      [apply kept_refl | apply processHistoricalSnapshots_kept]. }
  destruct includeCurrentSnapshot; [|exact H1].
  eapply kept_trans; [exact H1 | apply createSnapshots_kept].
Qed.
End WithPower.

End KeepFacts.

(** X8.  Whatever happens inside it (failed attempts, dates skipped, a
    current snapshot that throws), [smartSnapshotGenerator] writes to the
    four snapshot tables only: publications, citations, researchers, venues,
    authorships, topic links and the decay table are as before.  It never
    removes a snapshot: every key a snapshot table had is still there. *)
Theorem smartSnapshotGenerator_frame (POWER : Q -> Q -> Q) (checkDatabaseHealth : Date -> bool)
        (currentDate : Date) (includeCurrentSnapshot : bool)
        (snapshotFrequency : SnapshotFrequency) (db : DB) :
  let db' := fst (smartSnapshotGenerator POWER checkDatabaseHealth currentDate
                    includeCurrentSnapshot snapshotFrequency db) in
  Invariants.same_base_tables db db' /\ Invariants.keeps_snapshot_keys db db'.
Proof.
  intro db'.
  destruct (KeepFacts.smartSnapshotGenerator_kept POWER checkDatabaseHealth currentDate
              includeCurrentSnapshot snapshotFrequency db) as (H1 & H2 & _).
  split; assumption.
Qed.

(** X9.  The unique constraints of the four snapshot tables are an
    invariant of [smartSnapshotGenerator]: on a store that has no two
    snapshot rows with the same key, the store it leaves has none either,
    whether it returns normally or throws. *)
Theorem smartSnapshotGenerator_unique_keys (POWER : Q -> Q -> Q)
        (checkDatabaseHealth : Date -> bool) (currentDate : Date)
        (includeCurrentSnapshot : bool) (snapshotFrequency : SnapshotFrequency) (db : DB) :
  unique_keys db ->
  unique_keys (fst (smartSnapshotGenerator POWER checkDatabaseHealth currentDate
                      includeCurrentSnapshot snapshotFrequency db)).
Proof.
  apply (KeepFacts.smartSnapshotGenerator_kept POWER checkDatabaseHealth currentDate
           includeCurrentSnapshot snapshotFrequency db).
Qed.

Lemma smartSnapshotGenerator_unique_keys_witness :
  unique_keys (fst (smartSnapshotGenerator Examples.no_power (fun _ => true) Examples.march
                      true weekly Examples.backfill)).
Proof.
  apply smartSnapshotGenerator_unique_keys.
  repeat split; constructor.
Defined.

(** X10.  [recalculateAllMetrics] runs the steps in an order in which each
    uses what the one before wrote: the venue values are computed from the
    h-indexes of this run and the overall scores from the venue values of
    this run.  Citations, authorships, topic links and the decay table are
    not changed, and no snapshot is removed. *)
Theorem recalculateAllMetrics_pipeline (POWER : Q -> Q -> Q)
        (checkDatabaseHealth : Date -> bool) (sqlNow now : Date)
        (options : DbOperations.Options) (db : DB) :
  let db' := fst (DbOperations.recalculateAllMetrics POWER checkDatabaseHealth sqlNow now
                    options db) in
  Users db' = Users (calculateUserHIndex db)
  /\ Events db' = Events (calculateConferenceValue (calculateUserHIndex db))
  /\ Publications db'
     = Publications (calculateCitationScoresAndDecay sqlNow
                       (calculateConferenceValue (calculateUserHIndex db)))
  /\ Citations db' = Citations db
  /\ PublicationUsers db' = PublicationUsers db
  /\ PublicationTopics db' = PublicationTopics db
  /\ DecayLookup db' = DecayLookup db
  /\ Invariants.keeps_snapshot_keys db db'.
Proof.
  intro db'. subst db'. unfold DbOperations.recalculateAllMetrics.
  destruct (KeepFacts.smartSnapshotGenerator_kept POWER checkDatabaseHealth now
              (Sql.coalesce (DbOperations.includeCurrentSnapshot options) false)
              (Sql.coalesce (DbOperations.snapshotFrequency options) weekly)
              (calculateCitationScoresAndDecay sqlNow
                 (calculateConferenceValue (calculateUserHIndex db))))
    as ((B1 & B2 & B3 & B4 & B5 & B6 & B7) & K & _).
  repeat split; try assumption; apply K.
Qed.

(** X11.  Right after [truncatePublications] every h-index and every venue
    value is 0, and a recalculation, with or without the current snapshot,
    returns normally and changes nothing: with no publication left, no
    calculator reaches a row and the generator has nothing to write. *)
Theorem recalculateAllMetrics_after_truncation (POWER : Q -> Q -> Q)
        (checkDatabaseHealth : Date -> bool) (sqlNow now : Date)
        (options : DbOperations.Options) (db : DB) :
  let empty := DbOperations.truncatePublications db in
  Forall (fun u => h_index u = Some 0) (Users empty)
  /\ Forall (fun e => conference_value e = Some 0%Q) (Events empty)
  /\ DbOperations.recalculateAllMetrics POWER checkDatabaseHealth sqlNow now options empty
     = (empty, true).
Proof.
  intro empty. split; [|split].
  - apply Forall_forall. intros u Hu. apply in_map_iff in Hu. now destruct Hu as [x [<- _]].
  - apply Forall_forall. intros e He. apply in_map_iff in He. now destruct He as [x [<- _]].
  - unfold DbOperations.recalculateAllMetrics.
    assert (E1 : calculateUserHIndex empty = empty).
    { unfold calculateUserHIndex.
      rewrite (map_ext _ (fun u => u)) by (intro u; reflexivity).
      now rewrite map_id. }
    rewrite E1.
    assert (E2 : calculateConferenceValue empty = empty).
    { unfold calculateConferenceValue.
      rewrite (map_ext _ (fun e => e))
        by (intro e; destruct (lisperator_id e); reflexivity).
      now rewrite map_id. }
    rewrite E2.
    destruct (DbOperations.includeCurrentSnapshot options) as [[|]|]; reflexivity.
Qed.

(** X12.  The current snapshot needs a decay row for the age of every
    publication published by the snapshot date: when one is missing,
    [createSnapshots] throws and writes nothing, not even the snapshots of
    the other publications. *)
Theorem createSnapshots_needs_decay_rows (POWER : Q -> Q -> Q) (currentDate : Date)
        (db : DB) (p : Publication) :
  let snapshotDate := setUTCHours0 currentDate in
  In p (Publications db) ->
  Sql.le_null (date_published p) snapshotDate = true ->
  decay db (days_between snapshotDate (Sql.coalesce (date_published p) snapshotDate)) = None ->
  createSnapshots POWER currentDate db = (db, false).
Proof.
  intros snapshotDate Hin Hle Hd.
  assert (H : processPublicationSnapshots snapshotDate db = None).
  { unfold processPublicationSnapshots.
    rewrite (KeepFacts.insert_on_conflict_update_null key2_eqb _ _
               (pub_id p, getConsistentDateForDB snapshotDate)); [reflexivity|].
    unfold publication_rows. apply in_flat_map. exists p. split; [exact Hin|].
    rewrite Hle. left. unfold snapshot_overall_score. now rewrite Hd. }
  unfold createSnapshots, run_transactions. fold snapshotDate. cbn [fold_left snd fst].
  now rewrite H.
Qed.

Lemma createSnapshots_needs_decay_rows_witness :
  createSnapshots Examples.no_power (Examples.ymd 2026 1 1) Examples.backfill
  = (Examples.backfill, false).
Proof.
  apply (createSnapshots_needs_decay_rows Examples.no_power (Examples.ymd 2026 1 1)
           Examples.backfill
           (mkPublication 1 501 (Some "10.4108/a"%string) (Some 7) (Some 4.5%Q)
                          (Some 0%Q) (Some 2) (Some (Examples.ymd 2024 1 30)))).
  - left. reflexivity.
  - vm_compute. reflexivity.
  - vm_compute. reflexivity.
Defined.

(** ** The publications that are backfilled *)

Module HistoryFacts.
Import Sql SqlFacts.

Section Sorting.
Context {A : Type} (before : A -> A -> bool) (R : A -> A -> Prop).
Hypothesis before_R : forall a b, before a b = true -> R a b.
Hypothesis not_before_R : forall a b, before a b = false -> R b a.
Hypothesis R_trans : forall a b c, R a b -> R b c -> R a c.

Lemma insert_by_In (x y : A) (l : list A) :
  In y (insert_by before x l) <-> y = x \/ In y l.
Proof.
  induction l as [|a l IH]; simpl.
  - split; [intros [<-|[]]; now left | intros [->|[]]; now left].
  - destruct (before x a); simpl; [intuition congruence|].
    rewrite IH. intuition congruence.
Qed.

Lemma insert_by_sorted (x : A) (l : list A) :
  StronglySorted R l -> StronglySorted R (insert_by before x l).
Proof.
  induction 1 as [|a l Hs IH Ha]; simpl; [repeat constructor|].
  destruct (before x a) eqn:E.
  - constructor; [now constructor|].
    constructor; [now apply before_R|].
    rewrite Forall_forall in *. intros y Hy.
    eapply R_trans; [apply before_R; exact E | now apply Ha].
  - constructor; [exact IH|].
    rewrite Forall_forall in *. intros y Hy. apply insert_by_In in Hy.
    destruct Hy as [->|Hy]; [now apply not_before_R | now apply Ha].
Qed.

Lemma order_by_sorted (l : list A) : StronglySorted R (order_by before l).
Proof.
  induction l as [|a l IH]; simpl; [constructor | now apply insert_by_sorted].
Qed.
End Sorting.

Lemma StronglySorted_filter {A} (R : A -> A -> Prop) (f : A -> bool) (l : list A) :
  StronglySorted R l -> StronglySorted R (filter f l).
Proof.
  induction 1 as [|a l Hs IH Ha]; simpl; [constructor|].
  destruct (f a); [|exact IH].
  constructor; [exact IH|].
  rewrite Forall_forall in *. intros y Hy. apply filter_In in Hy. now apply Ha.
Qed.

Lemma order_by_In {A} (before : A -> A -> bool) (l : list A) (x : A) :
  In x (order_by before l) <-> In x l.
Proof.
  split; apply Permutation_in; [symmetry|]; apply order_by_perm.
Qed.

Lemma dated_In (db : DB) (id : Z) (d : Date) :
  In (id, d) (flat_map (fun p => match date_published p with
                                 | Some d => [(pub_id p, d)]
                                 | None => []
                                 end) (Publications db))
  <-> exists p, In p (Publications db) /\ pub_id p = id /\ date_published p = Some d.
Proof.
  rewrite in_flat_map. split.
  - intros [p [Hp Hin]]. exists p. destruct (date_published p); [|destruct Hin].
    destruct Hin as [Heq|[]]. injection Heq as <- <-. auto.
  - intros [p (Hp & Hid & Hd)]. exists p. split; [exact Hp|]. rewrite Hd, Hid. now left.
Qed.

Lemma no_snapshot_iff (db : DB) (id : Z) :
  existsb (fun r => fst (fst r) =? id) (PublicationSnapshots db) = false
  <-> forall r, In r (PublicationSnapshots db) -> fst (fst r) <> id.
Proof.
  split.
  - intros H r Hr Heq.
    assert (E : existsb (fun r => fst (fst r) =? id) (PublicationSnapshots db) = true)
      by (apply existsb_exists; exists r; split; [exact Hr | now apply Z.eqb_eq]).
    congruence.
  - intro H. destruct (existsb _ _) eqn:E; [|reflexivity].
    apply existsb_exists in E. destruct E as [r [Hr Heq]]. apply Z.eqb_eq in Heq.
    exfalso. now apply (H r).
Qed.

Lemma needing_In (currentDate : Date) (db : DB) (id : Z) (d : Date) :
  In (id, d) (getPublicationsNeedingHistory currentDate db)
  <-> (exists p, In p (Publications db) /\ pub_id p = id /\ date_published p = Some d)
      /\ (forall r, In r (PublicationSnapshots db) -> fst (fst r) <> id)
      /\ d < currentDate.
Proof.
  unfold getPublicationsNeedingHistory.
  rewrite filter_In, order_by_In, dated_In. cbn [fst snd].
  rewrite andb_true_iff, negb_true_iff, no_snapshot_iff, Z.ltb_lt. tauto.
Qed.

End HistoryFacts.

(** X13.  [getPublicationsNeedingHistory] returns, oldest first, exactly the
    publications that have a publication date before the current date and no
    snapshot at all; a publication without a date is never backfilled.
    Hence the query for existing snapshots that opens
    [processHistoricalSnapshots] finds nothing for them: the backfill starts
    with no snapshot on record. *)
Theorem getPublicationsNeedingHistory_exact (currentDate : Date) (db : DB) :
  let needing := getPublicationsNeedingHistory currentDate db in
  (forall id d,
      In (id, d) needing
      <-> (exists p, In p (Publications db) /\ pub_id p = id /\ date_published p = Some d)
          /\ (forall r, In r (PublicationSnapshots db) -> fst (fst r) <> id)
          /\ d < currentDate)
  /\ StronglySorted (fun a b => snd a <= snd b) needing
  /\ flat_map (fun r => if mem (fst (fst r)) (map fst needing)
                        then [(fst (fst r), Day (snd (fst r)))] else [])
              (PublicationSnapshots db) = [].
Proof.
  intro needing. split; [|split].
  - intros id d. apply HistoryFacts.needing_In.
  - subst needing. unfold getPublicationsNeedingHistory.
    apply HistoryFacts.StronglySorted_filter.
    apply (HistoryFacts.order_by_sorted (fun a b : Z * Date => snd a <=? snd b)).
    + intros a b H. now apply Z.leb_le.
    + intros a b H. apply Z.leb_gt in H. now apply Z.lt_le_incl.
    + intros a b c. apply Z.le_trans.
  - rewrite flat_map_concat_map.
    assert (G : forall l, (forall x, In x l -> x = @nil (Z * Z)) -> List.concat l = []).
    { induction l as [|a l IH]; intro H; simpl; [reflexivity|].
      rewrite (H a (or_introl eq_refl)). apply IH. intros. apply H. now right. }
    apply G. intros x Hx. apply in_map_iff in Hx. destruct Hx as [r [<- Hr]].
    destruct (mem (fst (fst r)) (map fst needing)) eqn:E; [|reflexivity].
    exfalso. unfold mem in E. apply existsb_exists in E. destruct E as [id [Hid Heq]].
    apply Z.eqb_eq in Heq. subst id. apply in_map_iff in Hid.
    destruct Hid as [[id d] [Heq Hin]]. simpl in Heq. subst id.
    apply HistoryFacts.needing_In in Hin. destruct Hin as (_ & Hno & _).
    now apply (Hno r).
Qed.

(** ** Chunks and [createMany] with [skipDuplicates] *)

Module ChunkFacts.
Import Utils.

Lemma chunks_loop_spec {A} (size : nat) (fuel : nat) (l : list A) :
  (0 < size)%nat -> (List.length l <= fuel)%nat ->
  List.concat (chunks_loop fuel size l) = l
  /\ Forall (fun c => (0 < List.length c <= size)%nat) (chunks_loop fuel size l).
Proof.
  intro Hs. revert l. induction fuel as [|fuel IH]; intros l Hl.
  - destruct l; [split; [reflexivity | constructor] | simpl in Hl; lia].
  - destruct l as [|a l]; [split; [reflexivity | constructor]|].
    cbn [chunks_loop].
    assert (Hk : (List.length (skipn size (a :: l)) <= fuel)%nat)
      by (rewrite length_skipn; change (List.length (a :: l)) with (S (List.length l)) in *;
          lia).
    destruct (IH _ Hk) as [Hc Hf]. split.
    + cbn [List.concat]. rewrite Hc. apply firstn_skipn.
    + constructor; [|exact Hf]. rewrite length_firstn.
      change (List.length (a :: l)) with (S (List.length l)). lia.
Qed.

Lemma createManySkip_app_any {A} (same : A -> A -> bool) (rows1 rows2 table : list A) :
  createManySkip same (rows1 ++ rows2) table
  = createManySkip same rows2 (createManySkip same rows1 table).
Proof.
  revert table. induction rows1 as [|r rows1 IH]; intro table; simpl; [reflexivity|].
  apply IH.
Qed.

Lemma createManySkip_length {A} (same : A -> A -> bool) (rows table : list A) :
  (List.length table <= List.length (createManySkip same rows table))%nat.
Proof.
  revert table. induction rows as [|r rows IH]; intro table; simpl; [lia|].
  destruct (existsb (same r) table); [apply IH|].
  eapply Nat.le_trans; [|apply IH]. rewrite length_app. lia.
Qed.

(** The fold of [processInChunks] over the chunks. *)
Lemma processInChunks_fold {A} (same : A -> A -> bool) (chunks : list (list A))
      (table : list A) (results : list nat) :
  let r := fold_left (fun (acc : list A * list nat) (chunk : list A) =>
                        let '(s', n) := createManyProcessor same chunk (fst acc) in
                        (s', snd acc ++ [n]))
                     chunks (table, results) in
  fst r = createManySkip same (List.concat chunks) table
  /\ (list_sum (snd r) + List.length table
      = list_sum results + List.length (fst r))%nat.
Proof.
  revert table results. induction chunks as [|c chunks IH]; intros table results.
  - simpl. split; [reflexivity | lia].
  - cbn [fold_left List.concat]. cbn [fst snd].
    change (let '(s', n) := createManyProcessor same c table in (s', results ++ [n]))
      with (createManySkip same c table,
            results ++ [(List.length (createManySkip same c table)
                         - List.length table)%nat]).
    destruct (IH (createManySkip same c table)
                 (results ++ [(List.length (createManySkip same c table)
                               - List.length table)%nat])) as [H1 H2].
    cbv zeta in H1, H2.
    match goal with
    | |- context [fold_left ?f ?l ?a] => set (r := fold_left f l a) in *
    end.
    split.
    + rewrite H1. now rewrite createManySkip_app_any.
    + rewrite list_sum_app in H2. cbn [list_sum fold_right] in H2.
      pose proof (createManySkip_length same c table). lia.
Qed.

Section Keyed.
Context {A K : Type} (key : A -> K) (eqb : K -> K -> bool).
Hypothesis eqb_eq : forall a b, eqb a b = true <-> a = b.

Lemma stored_iff (r : A) (table : list A) :
  existsb (same_key key eqb r) table = true <-> In (key r) (map key table).
Proof.
  rewrite existsb_exists, in_map_iff. unfold Utils.same_key. split.
  - intros [c [Hc He]]. apply eqb_eq in He. eauto.
  - intros [c [He Hc]]. exists c. split; [exact Hc | now apply eqb_eq].
Qed.

Lemma createManySkip_app (rows1 rows2 table : list A) :
  createManySkip (same_key key eqb) (rows1 ++ rows2) table
  = createManySkip (same_key key eqb) rows2 (createManySkip (same_key key eqb) rows1 table).
Proof.
  revert table. induction rows1 as [|r rows1 IH]; intro table; simpl; [reflexivity|].
  apply IH.
Qed.

(** The table keeps its rows, in place; what is added are rows of the
    call, in their order. *)
Lemma createManySkip_added (rows table : list A) :
  exists added,
    createManySkip (same_key key eqb) rows table = table ++ added
    /\ incl added rows
    /\ (List.length added <= List.length rows)%nat.
Proof.
  revert table. induction rows as [|r rows IH]; intro table; simpl.
  - exists (@nil A). rewrite app_nil_r. repeat split; [apply incl_refl | simpl; lia].
  - destruct (existsb (same_key key eqb r) table).
    + destruct (IH table) as (added & -> & Hi & Hl).
      exists added. repeat split; [now apply incl_tl | lia].
    + destruct (IH (table ++ [r])) as (added & -> & Hi & Hl).
      exists (r :: added). rewrite <- app_assoc. repeat split.
      * intros x [<-|Hx]; [now left | right; now apply Hi].
      * simpl. lia.
Qed.

Lemma createManySkip_keys (rows table : list A) (k : K) :
  In k (map key (createManySkip (same_key key eqb) rows table))
  <-> In k (map key table) \/ In k (map key rows).
Proof.
  revert table. induction rows as [|r rows IH]; intro table; simpl; [tauto|].
  rewrite IH. destruct (existsb (same_key key eqb r) table) eqn:E.
  - apply stored_iff in E. split; [tauto|].
    intros [H|[<-|H]]; auto.
  - rewrite map_app, in_app_iff. simpl. tauto.
Qed.

Lemma createManySkip_NoDup (rows table : list A) :
  NoDup (map key table) -> NoDup (map key (createManySkip (same_key key eqb) rows table)).
Proof.
  revert table. induction rows as [|r rows IH]; intros table H; simpl; [exact H|].
  apply IH. destruct (existsb (same_key key eqb r) table) eqn:E; [exact H|].
  rewrite map_app. apply NoDup_app; [exact H | repeat constructor; intros [] |].
  intros x Hx [<-|[]]. apply stored_iff in Hx. congruence.
Qed.

(** Rows whose keys are all stored change nothing. *)
Lemma createManySkip_stored (rows table : list A) :
  incl (map key rows) (map key table) -> createManySkip (same_key key eqb) rows table = table.
Proof.
  induction rows as [|r rows IH]; intro H; simpl; [reflexivity|].
  replace (existsb (same_key key eqb r) table) with true
    by (symmetry; apply stored_iff, H; now left).
  apply IH. intros x Hx. apply H. now right.
Qed.

(** Rows with new keys that differ from each other are all added. *)
Lemma createManySkip_fresh (rows table : list A) :
  NoDup (map key rows) ->
  (forall k, In k (map key rows) -> ~ In k (map key table)) ->
  createManySkip (same_key key eqb) rows table = table ++ rows.
Proof.
  revert table. induction rows as [|r rows IH]; intros table Hn Hf; simpl.
  - now rewrite app_nil_r.
  - simpl in Hn. inversion Hn as [|? ? Hr Hn']; subst.
    replace (existsb (same_key key eqb r) table) with false.
    + rewrite IH; [now rewrite <- app_assoc | exact Hn'|].
      intros k Hk. rewrite map_app, in_app_iff. simpl.
      intros [H|[<-|[]]]; [|contradiction].
      apply (Hf k); [now right | exact H].
    + symmetry. destruct (existsb (same_key key eqb r) table) eqn:E; [|reflexivity].
      apply stored_iff in E. exfalso. apply (Hf (key r)); [now left | exact E].
Qed.

Lemma createManySkip_twice (rows table : list A) :
  createManySkip (same_key key eqb) rows (createManySkip (same_key key eqb) rows table)
  = createManySkip (same_key key eqb) rows table.
Proof.
  apply createManySkip_stored. intros k Hk. apply createManySkip_keys. now right.
Qed.

(** The row found for a key the table holds is the row it held. *)
Lemma createManySkip_find (rows table : list A) (k : K) :
  In k (map key table) ->
  find (fun c => eqb (key c) k) (createManySkip (same_key key eqb) rows table)
  = find (fun c => eqb (key c) k) table.
Proof.
  intro Hin. destruct (createManySkip_added rows table) as (added & -> & _).
  rewrite DecayFacts.find_app.
  destruct (find (fun c => eqb (key c) k) table) eqn:E; [reflexivity|].
  exfalso. apply in_map_iff in Hin. destruct Hin as [c [Hk Hc]].
  pose proof (find_none _ _ E c Hc) as Hn. cbv beta in Hn.
  rewrite Hk in Hn. assert (eqb k k = true) by now apply eqb_eq. congruence.
Qed.

(** Chunk after chunk is as all at once. *)
Lemma createManySkip_chunks (chunks : list (list A)) (table : list A) :
  fold_left (fun t chunk => createManySkip (same_key key eqb) chunk t) chunks table
  = createManySkip (same_key key eqb) (List.concat chunks) table.
Proof.
  revert table. induction chunks as [|c chunks IH]; intro table; simpl; [reflexivity|].
  now rewrite IH, createManySkip_app.
Qed.

End Keyed.

Lemma string_eqb_eq (a b : string) : String.eqb a b = true <-> a = b.
Proof. apply String.eqb_eq. Qed.

(** The [createMany] of the citation rows is [createManySkip] on the
    unique [oci]. *)
Lemma createMany_oci (rows table : list Citation) :
  PointSystemInitializationJob.createMany rows table
  = createManySkip (same_key oci String.eqb) rows table.
Proof.
  revert table. induction rows as [|r rows IH]; intro table; simpl; [reflexivity|].
  apply IH.
Qed.

End ChunkFacts.

(** X14.  With a positive chunk size, [processInChunks] cuts the items into
    consecutive chunks that are not empty, hold at most [chunkSize] items
    and together are the items in their order.  Used with [createMany] and
    [skipDuplicates], as the jobs do, it leaves the table that one
    [createMany] on all the rows would leave, and the counts it collects add
    up to the number of rows created. *)
Theorem processInChunks_createMany {A} (same : A -> A -> bool) (chunkSize : nat)
        (rows table : list A) :
  (0 < chunkSize)%nat ->
  let chunks := chunks chunkSize rows in
  let result := Utils.processInChunks rows chunkSize (Utils.createManyProcessor same) table in
  List.concat chunks = rows
  /\ Forall (fun c => (0 < List.length c <= chunkSize)%nat) chunks
  /\ List.length (snd result) = List.length chunks
  /\ fst result = Utils.createManySkip same rows table
  /\ (list_sum (snd result) + List.length table = List.length (fst result))%nat.
Proof.
  intros Hs chunks result.
  destruct (ChunkFacts.chunks_loop_spec chunkSize (List.length rows) rows Hs (Nat.le_refl _))
    as [Hc Hf].
  fold (SnapshotGeneration.chunks chunkSize rows) in Hc, Hf. fold chunks in Hc, Hf.
  destruct (ChunkFacts.processInChunks_fold same chunks table []) as [H1 H2].
  cbv zeta in H1, H2. fold chunks in H1, H2.
  split; [exact Hc|]. split; [exact Hf|]. split; [|split].
  - subst result. unfold Utils.processInChunks. fold chunks.
    assert (G : forall cs (acc : list A * list nat),
               List.length
                 (snd (fold_left
                         (fun (acc : list A * list nat) (chunk : list A) =>
                            let '(s', r) := Utils.createManyProcessor same chunk (fst acc) in
                            (s', snd acc ++ [r])) cs acc))
               = (List.length (snd acc) + List.length cs)%nat).
    { induction cs as [|c cs IH]; intro acc; simpl; [lia|].
      rewrite IH. simpl. rewrite length_app. simpl. lia. }
    rewrite G. reflexivity.
  - subst result. unfold Utils.processInChunks. fold chunks. rewrite H1. now rewrite Hc.
  - subst result. unfold Utils.processInChunks. fold chunks.
    change (list_sum []) with 0%nat in H2. lia.
Qed.

Lemma processInChunks_createMany_witness :
  fst (Utils.processInChunks (Citations Examples.backfill_later) 2
         (Utils.createManyProcessor (Utils.same_key oci String.eqb))
         (Citations Examples.backfill))
  = Utils.createManySkip (Utils.same_key oci String.eqb)
      (Citations Examples.backfill_later) (Citations Examples.backfill).
Proof.
  apply (processInChunks_createMany (Utils.same_key oci String.eqb) 2
           (Citations Examples.backfill_later) (Citations Examples.backfill)).
  lia.
Defined.

(** ** Storing a publication *)

Module InsertFacts.
Import PointSystemInitializationJob Utils ChunkFacts.

Lemma citation_rows_publication (newId : Z) (records : list OCitRecord) (c : Citation) :
  In c (map (fun rec => mkCitation newId (oc_oci rec) (oc_creation rec)
                                   (Some (String.eqb (oc_author_sc rec) "yes"%string)))
            records) ->
  cit_publication_id c = newId.
Proof. intro H. apply in_map_iff in H. now destruct H as [r [<- _]]. Qed.

Lemma citation_rows_oci (newId : Z) (records : list OCitRecord) :
  map oci (map (fun rec => mkCitation newId (oc_oci rec) (oc_creation rec)
                                      (Some (String.eqb (oc_author_sc rec) "yes"%string)))
               records)
  = map oc_oci records.
Proof. rewrite map_map. now apply map_ext. Qed.

Lemma submission_stored (entry : PublicationRow) (l : list Publication) (p : Publication) :
  submission_id p = row_submission_id entry ->
  existsb (fun p => submission_id p =? row_submission_id entry) (l ++ [p]) = true.
Proof.
  intro H. apply existsb_exists. exists p. split; [apply in_or_app; right; now left|].
  now apply Z.eqb_eq.
Qed.

End InsertFacts.

(** X15.  For a submission that is not stored yet, [insertEntry] appends
    the publication and appends citation rows of that publication, leaving
    the rows already stored in place; it keeps the [oci] values unique.  The
    stored [citation_count] is the number of external records fetched, which
    the number of rows added never exceeds, and which it equals when the
    external records carry distinct OCIs none of which is stored yet.
    Without a DOI or after a failed fetch the count is 0 and no row is
    added.  Inserting the entry again, whatever is fetched then, changes
    nothing. *)
Theorem insertEntry_citations (entry : PointSystemInitializationJob.PublicationRow)
        (fetched : option (list PointSystemInitializationJob.OCitRecord))
        (newId : Z) (db : DB) :
  existsb (fun p => submission_id p =? PointSystemInitializationJob.row_submission_id entry)
          (Publications db) = false ->
  let records := PointSystemInitializationJob.citationRecords entry fetched in
  let db' := PointSystemInitializationJob.insertEntry entry fetched newId db in
  (exists p added,
      Publications db' = Publications db ++ [p]
      /\ citation_count p = Some (Z.of_nat (List.length records))
      /\ Citations db' = Citations db ++ added
      /\ (forall c, In c added -> cit_publication_id c = newId)
      /\ (List.length added <= List.length records)%nat
      /\ (NoDup (map PointSystemInitializationJob.oc_oci records) ->
          (forall r, In r records ->
                     ~ In (PointSystemInitializationJob.oc_oci r) (map oci (Citations db))) ->
          List.length added = List.length records))
  /\ (NoDup (map oci (Citations db)) -> NoDup (map oci (Citations db')))
  /\ (PointSystemInitializationJob.row_doi entry = None \/ fetched = None -> records = [])
  /\ (forall fetched' newId',
         PointSystemInitializationJob.insertEntry entry fetched' newId' db' = db').
Proof.
  intros Hnew records db'.
  set (rows := map (fun rec => mkCitation newId (PointSystemInitializationJob.oc_oci rec)
                                 (PointSystemInitializationJob.oc_creation rec)
                                 (Some (String.eqb
                                          (PointSystemInitializationJob.oc_author_sc rec)
                                          "yes"%string)))
                   records).
  set (p := mkPublication newId (PointSystemInitializationJob.row_submission_id entry)
              (PointSystemInitializationJob.row_doi entry)
              (PointSystemInitializationJob.row_conference entry)
              (PointSystemInitializationJob.row_review_score entry)
              (Some 0%Q) (Some (Z.of_nat (List.length records)))
              (PointSystemInitializationJob.row_date_published entry)).
  assert (HP : Publications db' = Publications db ++ [p]).
  { subst db'. unfold PointSystemInitializationJob.insertEntry. now rewrite Hnew. }
  assert (HC : Citations db'
               = Utils.createManySkip (Utils.same_key oci String.eqb) rows (Citations db)).
  { subst db'. unfold PointSystemInitializationJob.insertEntry. rewrite Hnew.
    cbn [Citations set_Citations set_Publications]. apply ChunkFacts.createMany_oci. }
  split; [|split; [|split]].
  - destruct (ChunkFacts.createManySkip_added oci String.eqb rows (Citations db))
      as (added & Ha & Hi & Hl).
    exists p, added. split; [exact HP|]. split; [reflexivity|].
    split; [now rewrite HC|].
    split; [intros c Hc; apply (InsertFacts.citation_rows_publication newId records);
            now apply Hi|].
    assert (Hlen : List.length rows = List.length records) by apply length_map.
    split; [lia|].
    intros Hn Hf.
    rewrite (ChunkFacts.createManySkip_fresh oci String.eqb ChunkFacts.string_eqb_eq)
      in Ha.
    + apply app_inv_head in Ha. now rewrite <- Ha.
    + subst rows. now rewrite InsertFacts.citation_rows_oci.
    + subst rows. rewrite InsertFacts.citation_rows_oci. intros k Hk.
      apply in_map_iff in Hk. destruct Hk as [r [<- Hr]]. now apply Hf.
  - intro Hn. rewrite HC.
    now apply (ChunkFacts.createManySkip_NoDup oci String.eqb ChunkFacts.string_eqb_eq).
  - subst records. unfold PointSystemInitializationJob.citationRecords.
    intros [-> | ->]; [reflexivity | now destruct (PointSystemInitializationJob.row_doi entry)].
  - intros fetched' newId'. unfold PointSystemInitializationJob.insertEntry at 1.
    rewrite HP. now rewrite InsertFacts.submission_stored.
Qed.

Lemma insertEntry_citations_witness :
  exists p added,
    Publications (PointSystemInitializationJob.insertEntry Examples.new_entry
                    (Some Examples.five_records) 3 Examples.backfill)
    = Publications Examples.backfill ++ [p]
    /\ citation_count p = Some 3
    /\ Citations (PointSystemInitializationJob.insertEntry Examples.new_entry
                    (Some Examples.five_records) 3 Examples.backfill)
       = Citations Examples.backfill ++ added
    /\ List.length added = 3%nat.
Proof.
  destruct (insertEntry_citations Examples.new_entry (Some Examples.five_records) 3
              Examples.backfill eq_refl)
    as ((p & added & H1 & H2 & H3 & _ & _ & H6) & _).
  exists p, added. split; [exact H1|]. split; [exact H2|]. split; [exact H3|].
  apply H6.
  - vm_compute. repeat constructor; intro H; simpl in H; intuition discriminate.
  - vm_compute. intros r Hr Hin. intuition (subst; discriminate).
Defined.

(** ** Seeding the decay table again *)

Module SeedFacts.
Import SeedDecayLookup Utils ChunkFacts DecayFacts.

Lemma Z_eqb_eq (a b : Z) : (a =? b) = true <-> a = b.
Proof. apply Z.eqb_eq. Qed.

Lemma createMany_days (rows table : list (Z * R)) :
  createMany rows table = createManySkip (same_key fst Z.eqb) rows table.
Proof.
  revert table. induction rows as [|r rows IH]; intro table; simpl; [reflexivity|].
  apply IH.
Qed.

Lemma find_tabulate_none (f : Z -> R) (d : Z) (s n : nat) :
  d < Z.of_nat s \/ Z.of_nat (s + n) <= d ->
  find (fun e => fst e =? d) (map (fun days => (days, f days)) (map Z.of_nat (seq s n)))
  = None.
Proof.
  revert s. induction n as [|n IH]; intros s H; [reflexivity|]. simpl.
  destruct (Z.eqb_spec (Z.of_nat s) d) as [E|_]; [lia|].
  apply IH. lia.
Qed.

(** A day the table holds keeps its factor; another day gets the seeded
    factor, when it is one of the seeded days. *)
Lemma decayFactor_seed (table : list (Z * R)) (d : Z) :
  decayFactor (seedDecayLookup table) d
  = match decayFactor table d with
    | Some f => Some f
    | None => decayFactor entries d
    end.
Proof.
  unfold decayFactor, seedDecayLookup. rewrite find_createMany.
  now destruct (find (fun e => fst e =? d) table).
Qed.

Lemma decayFactor_entries (d : Z) :
  decayFactor entries d
  = if (0 <=? d) && (d <=? MAX_DAYS) then Some (Rpower 0.5 (IZR d / HALF_LIFE)) else None.
Proof.
  unfold decayFactor, entries.
  destruct (Z.leb_spec 0 d); [destruct (Z.leb_spec d MAX_DAYS)|]; cbn [andb].
  - rewrite find_tabulate; [reflexivity | unfold MAX_DAYS in *; lia].
  - rewrite find_tabulate_none; [reflexivity | unfold MAX_DAYS in *; lia].
  - rewrite find_tabulate_none; [reflexivity | lia].
Qed.

Lemma Rpower_half_range (x : R) : (0 <= x)%R -> (0 < Rpower 0.5 x <= 1)%R.
Proof.
  intro H. split; [unfold Rpower; apply exp_pos|].
  destruct H as [H|<-].
  - apply Rle_trans with (Rpower 0.5 0).
    + apply Rlt_le. now apply Rpower_half_decreasing.
    + rewrite Rpower_O by Lra.lra. Lra.lra.
  - rewrite Rpower_O by Lra.lra. Lra.lra.
Qed.

End SeedFacts.

(** X16.  Seeding is safe to repeat and never overwrites: whatever the
    table holds, [seedDecayLookup] keeps every row it finds, with its
    factor, and only appends rows; afterwards every day from 0 to 10000 has
    a row, days are unique if they were, and seeding again changes
    nothing. *)
Theorem seedDecayLookup_again (table : list (Z * R)) :
  (exists added, SeedDecayLookup.seedDecayLookup table = table ++ added)
  /\ (forall d f, SeedDecayLookup.decayFactor table d = Some f ->
                  SeedDecayLookup.decayFactor (SeedDecayLookup.seedDecayLookup table) d
                  = Some f)
  /\ (forall d, 0 <= d <= 10000 ->
                SeedDecayLookup.decayFactor (SeedDecayLookup.seedDecayLookup table) d
                <> None)
  /\ (NoDup (map fst table) -> NoDup (map fst (SeedDecayLookup.seedDecayLookup table)))
  /\ SeedDecayLookup.seedDecayLookup (SeedDecayLookup.seedDecayLookup table)
     = SeedDecayLookup.seedDecayLookup table.
Proof.
  split; [|split; [|split; [|split]]].
  - unfold SeedDecayLookup.seedDecayLookup. rewrite SeedFacts.createMany_days.
    destruct (ChunkFacts.createManySkip_added fst Z.eqb SeedDecayLookup.entries table)
      as (added & Ha & _).
    now exists added.
  - intros d f H. rewrite SeedFacts.decayFactor_seed. now rewrite H.
  - intros d H. rewrite SeedFacts.decayFactor_seed.
    destruct (SeedDecayLookup.decayFactor table d); [discriminate|].
    rewrite SeedFacts.decayFactor_entries.
    replace ((0 <=? d) && (d <=? SeedDecayLookup.MAX_DAYS)) with true; [discriminate|].
    symmetry. apply andb_true_iff. unfold SeedDecayLookup.MAX_DAYS.
    split; apply Z.leb_le; lia.
  - intro Hn. unfold SeedDecayLookup.seedDecayLookup. rewrite SeedFacts.createMany_days.
    now apply (ChunkFacts.createManySkip_NoDup fst Z.eqb SeedFacts.Z_eqb_eq).
  - unfold SeedDecayLookup.seedDecayLookup. rewrite !SeedFacts.createMany_days.
    apply (ChunkFacts.createManySkip_twice fst Z.eqb SeedFacts.Z_eqb_eq).
Qed.

(** X17.  The table seeded from empty ends at 10000 days: it has no row
    for a negative number of days or for more than 10000 days, so a lookup
    for an older publication finds nothing.  Every factor it holds is
    greater than 0 and at most 1. *)
Theorem seedDecayLookup_table :
  (forall d, d < 0 \/ 10000 < d ->
             SeedDecayLookup.decayFactor (SeedDecayLookup.seedDecayLookup []) d = None)
  /\ (forall d f, SeedDecayLookup.decayFactor (SeedDecayLookup.seedDecayLookup []) d = Some f ->
                  0 <= d <= 10000 /\ (0 < f <= 1)%R).
Proof.
  assert (E : forall d,
             SeedDecayLookup.decayFactor (SeedDecayLookup.seedDecayLookup []) d
             = if (0 <=? d) && (d <=? SeedDecayLookup.MAX_DAYS)
               then Some (Rpower 0.5 (IZR d / SeedDecayLookup.HALF_LIFE)) else None).
  { intro d. rewrite SeedFacts.decayFactor_seed.
    change (SeedDecayLookup.decayFactor [] d) with (@None R).
    apply SeedFacts.decayFactor_entries. }
  pose proof DecayFacts.half_life_pos as HL.
  split.
  - intros d H. rewrite E.
    replace ((0 <=? d) && (d <=? SeedDecayLookup.MAX_DAYS)) with false; [reflexivity|].
    symmetry. apply andb_false_iff. unfold SeedDecayLookup.MAX_DAYS.
    destruct H; [left; apply Z.leb_gt | right; apply Z.leb_gt]; lia.
  - intros d f H. rewrite E in H.
    destruct (Z.leb_spec 0 d); [destruct (Z.leb_spec d SeedDecayLookup.MAX_DAYS)|];
      cbn [andb] in H; try discriminate.
    injection H as <-. unfold SeedDecayLookup.MAX_DAYS in *. split; [lia|].
    apply SeedFacts.Rpower_half_range.
    apply Rmult_le_pos; [apply IZR_le; lia | apply Rlt_le, Rinv_0_lt_compat, HL].
Qed.

(** ** Fetching citations *)

Module FetchFacts.
Import PointSystemInitializationJob Utils.

Lemma failures_before_S (responses : nat -> Response) (n : nat) :
  failures_before responses (S n)
  = (failures_before responses n
     + match responses n with Failure => 1 | Ok _ => 0 end)%nat.
Proof. reflexivity. Qed.

Lemma answers_before_S (responses : nat -> Response) (n : nat) :
  answers_before responses (S n)
  = (answers_before responses n
     + match responses n with Failure => 0 | Ok _ => 1 end)%nat.
Proof. reflexivity. Qed.

Lemma nothing_before_S (responses : nat -> Response) (n : nat) :
  nothing_before responses n ->
  responses n = Failure \/ responses n = Ok [] ->
  nothing_before responses (S n).
Proof.
  intros H Hn j Hj. destruct (Nat.eq_dec j n) as [->|Hne]; [exact Hn|].
  apply H. lia.
Qed.

(** When nothing was answered, everything failed. *)
Lemma all_failed (responses : nat -> Response) (n : nat) :
  answers_before responses n = 0%nat ->
  forall i, (i < n)%nat -> responses i = Failure.
Proof.
  induction n as [|n IH]; intros H i Hi; [lia|]. rewrite answers_before_S in H.
  destruct (responses n) eqn:E; [lia|].
  destruct (Nat.eq_dec i n) as [->|Hne]; [exact E|].
  apply IH; lia.
Qed.

Lemma failures_before_mono (responses : nat -> Response) (n m : nat) :
  (n <= m)%nat -> (failures_before responses n <= failures_before responses m)%nat.
Proof. induction 1; [lia | rewrite failures_before_S; lia]. Qed.

Lemma failures_before_all (responses : nat -> Response) (n : nat) :
  (forall i, (i < n)%nat -> responses i = Failure) ->
  failures_before responses n = n /\ answers_before responses n = 0%nat.
Proof.
  induction n as [|n IH]; intro H; [split; reflexivity|].
  rewrite failures_before_S, answers_before_S, (H n) by lia.
  destruct IH as [-> ->]; [intros; apply H; lia|]. lia.
Qed.

(** The loop from a state in which [attempt] requests failed and
    [successfulAttempts] were answered with the empty list. *)
Lemma fetch_loop_outcome (responses : nat -> Response) (fuel attempt successful : nat) :
  (attempt <= 4)%nat -> (successful <= 3)%nat ->
  (5 - attempt + (3 - successful) <= fuel)%nat ->
  nothing_before responses (attempt + successful) ->
  failures_before responses (attempt + successful) = attempt ->
  answers_before responses (attempt + successful) = successful ->
  exists result,
    fetch_loop fuel responses attempt successful [] = Some result
    /\ fetch_outcome responses result.
Proof.
  revert attempt successful.
  induction fuel as [|fuel IH]; intros a s Ha Hs Hf Hn Hfa Han; [lia|].
  cbn [fetch_loop].
  destruct (Nat.ltb_spec s VERIFICATION_ATTEMPTS) as [Hs3|Hs3];
    unfold VERIFICATION_ATTEMPTS in Hs3.
  - replace (a <? MAX_RETRIES)%nat with true
      by (symmetry; apply Nat.ltb_lt; unfold MAX_RETRIES; lia).
    cbn [andb].
    destruct (responses (a + s)%nat) as [data|] eqn:E.
    + destruct data as [|x data].
      * cbn [List.length Nat.ltb Nat.leb andb].
        apply IH; try lia; replace (a + S s)%nat with (S (a + s)) by lia.
        -- apply nothing_before_S; auto.
        -- rewrite failures_before_S, E. lia.
        -- rewrite answers_before_S, E. lia.
      * cbn [List.length Nat.ltb Nat.leb andb].
        eexists. split; [reflexivity|]. cbn [fetch_outcome].
        exists (a + s)%nat. repeat split; auto; lia.
    + assert (N : nothing_before responses (S (a + s)))
        by (apply nothing_before_S; auto).
      assert (F : failures_before responses (S (a + s)) = S a)
        by (rewrite failures_before_S, E; lia).
      assert (A : answers_before responses (S (a + s)) = s)
        by (rewrite answers_before_S, E; lia).
      destruct (Nat.ltb_spec (S a) MAX_RETRIES) as [Ha5|Ha5]; unfold MAX_RETRIES in Ha5.
      * apply IH; try lia; change (S a + s)%nat with (S (a + s)); assumption.
      * assert (a = 4%nat) by lia. subst a.
        destruct (Nat.ltb_spec 0 s) as [Hpos|Hzero].
        -- eexists. split; [reflexivity|]. cbn [fetch_outcome].
           exists (S (4 + s)). split; [lia|]. split; [exact N|]. right.
           split; [exact F|]. split; [lia|]. exists (4 + s)%nat. auto.
        -- eexists. split; [reflexivity|]. cbn [fetch_outcome].
           assert (s = 0%nat) by lia. subst s.
           intros i Hi. apply (all_failed responses 5); [exact A | exact Hi].
  - assert (s = 3%nat) by lia. subst s. cbn [andb].
    eexists. split; [reflexivity|]. cbn [fetch_outcome].
    exists (a + 3)%nat. split; [lia|]. split; [exact Hn|]. left. lia.
Qed.

End FetchFacts.

(** X18.  For a DOI that is not a mock DOI,
    [fetchCitationsListWithRetriesAndVerification] ends after at most seven
    requests.  It throws exactly when the first five requests fail.  When it
    returns citations, they are those of the first answer that is not empty:
    no later answer is waited for, however long.  It returns the empty list
    when the requests it made brought nothing and it had three empty answers,
    or five failures and an empty answer before the last of them. *)
Theorem fetchCitations_outcome (responses : nat -> Utils.Response) :
  exists result,
    Utils.fetchCitationsListWithRetriesAndVerification responses = Some result
    /\ Utils.fetch_outcome responses result
    /\ (result = Utils.Thrown <-> forall i, (i < 5)%nat -> responses i = Utils.Failure).
Proof.
  destruct (FetchFacts.fetch_loop_outcome responses 8 0 0) as (result & Hr & Ho);
    try (simpl; lia); try reflexivity.
  { intros j Hj. simpl in Hj. lia. }
  exists result. split; [exact Hr|]. split; [exact Ho|].
  split; [intros ->; exact Ho|].
  intro Hall. destruct result as [data|]; [|reflexivity]. exfalso.
  assert (Hlow : forall n, (n <= 5)%nat ->
                           Utils.failures_before responses n = n
                           /\ Utils.answers_before responses n = 0%nat)
    by (intros n Hn; apply FetchFacts.failures_before_all; intros; apply Hall; lia).
  assert (Hhigh : forall n, (5 <= n)%nat -> (5 <= Utils.failures_before responses n)%nat).
  { intros n Hn. pose proof (FetchFacts.failures_before_mono responses 5 n Hn).
    destruct (Hlow 5%nat (Nat.le_refl _)). lia. }
  destruct data as [|x data]; cbn [Utils.fetch_outcome] in Ho.
  - destruct Ho as (n & Hn7 & Hnb & [[Ha Hf] | (Hf & Ha & m & -> & Hm)]).
    + destruct (Nat.le_gt_cases 5 n) as [H5|H5].
      * specialize (Hhigh n H5). lia.
      * destruct (Hlow n ltac:(lia)). lia.
    + rewrite FetchFacts.failures_before_S, Hm in Hf.
      destruct (Nat.le_gt_cases 5 m) as [H5|H5].
      * specialize (Hhigh m H5). lia.
      * destruct (Hlow (S m) ltac:(lia)). lia.
  - destruct Ho as (i & Hi6 & Hri & Hnb & Hf & Ha).
    destruct (Nat.le_gt_cases 5 i) as [H5|H5].
    + specialize (Hhigh i H5). lia.
    + rewrite Hall in Hri by lia. discriminate.
Qed.

(** ** The rate limiter *)

(** X19.  After any series of tracked results the counter of the rate
    limiter is the number of failures since the last success, so
    [shouldAbort] answers yes exactly when more than
    [maxConsecutiveFailures] (20 when not given) results in a row failed up
    to now; one success makes it answer no again. *)
Theorem rateLimiter_counts_trailing_failures (maxConsecutiveFailures : option Z)
        (results : list bool) :
  let limiter := fold_left (fun rl success => Utils.trackResult success rl) results
                           (Utils.createRateLimiter maxConsecutiveFailures) in
  Utils.maxConsecutiveFailures limiter = Sql.coalesce maxConsecutiveFailures 20
  /\ Utils.ends_in_failures results (Utils.getFailureCount limiter)
  /\ (Utils.shouldAbort limiter = true
      <-> Sql.coalesce maxConsecutiveFailures 20 < Utils.getFailureCount limiter)
  /\ Utils.getFailureCount (Utils.trackResult true limiter) = 0
  /\ Utils.getFailureCount (Utils.resetFailures limiter) = 0.
Proof.
  intro limiter. subst limiter.
  induction results as [|r results IH] using rev_ind.
  - cbn. split; [reflexivity|]. split.
    + exists [], []. repeat split; auto.
    + split; [apply Z.ltb_lt|]. split; reflexivity.
  - rewrite fold_left_app. cbn [fold_left].
    destruct IH as (Hmax & (before & failures & Hres & Hall & Hlen & Hb) & _).
    set (rl := fold_left (fun rl success => Utils.trackResult success rl) results
                         (Utils.createRateLimiter maxConsecutiveFailures)) in *.
    split; [exact Hmax|]. split; [|split; [|split; reflexivity]].
    + unfold Utils.getFailureCount, Utils.trackResult. cbn [Utils.consecutiveFailures].
      destruct r.
      * exists (results ++ [true]), []. rewrite app_nil_r.
        repeat split; [constructor|]. right. now exists results.
      * exists before, (failures ++ [false]). rewrite Hres, <- app_assoc.
        repeat split; [|rewrite length_app; unfold Utils.getFailureCount in Hlen;
                         simpl; lia | exact Hb].
        apply Forall_app. split; [exact Hall | repeat constructor].
    + unfold Utils.shouldAbort. rewrite Z.ltb_lt.
      unfold Utils.trackResult at 1. cbn [Utils.maxConsecutiveFailures].
      now rewrite Hmax.
Qed.

(** ** Authors and topics of a new publication *)

Module BridgingFacts.
Import Utils Bridging ChunkFacts.

Lemma pair_eqb_eq (a b : Z * Z) : pair_eqb a b = true <-> a = b.
Proof.
  destruct a as [a1 a2], b as [b1 b2]. unfold pair_eqb. simpl.
  rewrite andb_true_iff, !Z.eqb_eq. split; [intros [-> ->]; reflexivity|].
  intro H. now injection H.
Qed.

(** What [processInChunks] leaves with [createMany] as the processor. *)
Lemma processInChunks_table {A} (same : A -> A -> bool) (size : nat)
      (rows table : list A) :
  (0 < size)%nat ->
  fst (processInChunks rows size (createManyProcessor same) table)
  = createManySkip same rows table.
Proof.
  intro Hs. unfold processInChunks.
  destruct (processInChunks_fold same (chunks size rows) table []) as [H1 _].
  cbv zeta in H1. rewrite H1.
  destruct (chunks_loop_spec size (List.length rows) rows Hs (Nat.le_refl _)) as [Hc _].
  unfold chunks. now rewrite Hc.
Qed.

Lemma buildUserMap_entries (userRows : list UserRow) (acc : UserMap) :
  fold_left (fun m row => map_set m (ur_lisperator_id row) (ur_id row)) userRows acc
  = rev (map (fun row => (ur_lisperator_id row, ur_id row)) userRows) ++ acc.
Proof.
  revert acc. induction userRows as [|r rows IH]; intro acc; simpl; [reflexivity|].
  rewrite IH. unfold map_set. now rewrite <- app_assoc.
Qed.

Lemma map_get_known (userRows : list UserRow) (k v : Z) :
  map_get (buildUserMap userRows) k = Some v ->
  exists row, In row userRows /\ ur_lisperator_id row = k /\ ur_id row = v.
Proof.
  unfold map_get, buildUserMap. rewrite buildUserMap_entries, app_nil_r.
  destruct (find _ _) as [[k' v']|] eqn:E; [|discriminate].
  intro H. simpl in H. injection H as ->.
  apply find_some in E. destruct E as [Hin Hk]. simpl in Hk. apply Z.eqb_eq in Hk.
  subst k'. apply in_rev in Hin. apply in_map_iff in Hin.
  destruct Hin as [row [Heq Hrow]]. injection Heq as <- <-. eauto.
Qed.

Lemma NoDup_map_injective {A B} (f : A -> B) (l : list A) (a b : A) :
  NoDup (map f l) -> In a l -> In b l -> f a = f b -> a = b.
Proof.
  induction l as [|x l IH]; intros Hn Ha Hb Hf; [destruct Ha|].
  simpl in Hn. inversion Hn as [|? ? Hx Hn']; subst.
  destruct Ha as [->|Ha], Hb as [->|Hb]; auto.
  - exfalso. apply Hx. rewrite Hf. now apply in_map.
  - exfalso. apply Hx. rewrite <- Hf. now apply in_map.
Qed.

Lemma map_get_unique (userRows : list UserRow) (row : UserRow) :
  NoDup (map ur_lisperator_id userRows) -> In row userRows ->
  map_get (buildUserMap userRows) (ur_lisperator_id row) = Some (ur_id row).
Proof.
  intros Hn Hin.
  destruct (map_get (buildUserMap userRows) (ur_lisperator_id row)) as [v|] eqn:E.
  - apply map_get_known in E. destruct E as (row' & Hin' & Hk & <-).
    now rewrite (NoDup_map_injective ur_lisperator_id userRows row' row Hn Hin' Hin Hk).
  - exfalso. unfold map_get, buildUserMap in E.
    rewrite buildUserMap_entries, app_nil_r in E.
    destruct (find _ _) eqn:F; [discriminate|].
    pose proof (find_none _ _ F (ur_lisperator_id row, ur_id row)) as Hnone.
    cbn [fst] in Hnone. rewrite Z.eqb_refl in Hnone.
    assert (false = true); [|discriminate]. symmetry. apply Hnone.
    apply -> in_rev. apply in_map_iff. now exists row.
Qed.

Lemma author_rows_In (pubId : Z) (ids : list Z) (m : UserMap) (pu : PublicationUser) :
  In pu (author_rows pubId ids m)
  <-> exists k v, In k ids /\ map_get m k = Some v /\ pu = mkPublicationUser pubId v.
Proof.
  unfold author_rows. rewrite in_flat_map. split.
  - intros [k [Hk Hin]]. destruct (map_get m k) as [v|] eqn:E; [|destruct Hin].
    destruct Hin as [<-|[]]. eauto.
  - intros (k & v & Hk & E & ->). exists k. split; [exact Hk|]. rewrite E. now left.
Qed.

Lemma insertAuthors_table (pubId : Z) (ids : list Z) (m : UserMap) (db : DB) :
  PublicationUsers (insertAuthors pubId ids m db)
  = createManySkip (same_key pu_key pair_eqb) (author_rows pubId ids m)
                   (PublicationUsers db).
Proof.
  unfold insertAuthors. destruct (author_rows pubId ids m) as [|r rows]; [reflexivity|].
  cbn [PublicationUsers set_PublicationUsers].
  apply processInChunks_table. lia.
Qed.

Lemma canonical_topic_range (t : BorgTopic) (i : Z) :
  canonical_topic t = Some i -> 1 <= i <= 8.
Proof.
  unfold canonical_topic.
  repeat match goal with
         | |- (if ?c then _ else _) = _ -> _ =>
             destruct c; [intro H; injection H as <-; lia|]
         end.
  destruct (bt_new_topic_id t) as [n|]; [|discriminate].
  repeat match goal with
         | |- (if ?c then _ else _) = _ -> _ =>
             destruct c; [intro H; injection H as <-; lia|]
         end.
  discriminate.
Qed.

Lemma topicIds_In (eventTopics : list BorgTopic) (i : Z) :
  In i (flat_map (fun id => match id with Some i => [i] | None => [] end)
                 (topicRows eventTopics))
  <-> exists t, In t eventTopics /\ canonical_topic t = Some i.
Proof.
  rewrite in_flat_map. unfold topicRows. split.
  - intros [[j|] [Hj Hin]]; [|destruct Hin]. destruct Hin as [<-|[]].
    apply nodup_In, in_map_iff in Hj. destruct Hj as [t [E Ht]]. eauto.
  - intros [t [Ht E]]. exists (Some i). split; [|now left].
    apply nodup_In, in_map_iff. eauto.
Qed.

Lemma finalTopicIds_In (eventTopics : list BorgTopic) (i : Z) :
  In i (finalTopicIds eventTopics)
  <-> (exists t, In t eventTopics /\ canonical_topic t = Some i)
      \/ (i = 9 /\ forall t, In t eventTopics -> canonical_topic t = None).
Proof.
  unfold finalTopicIds.
  destruct (flat_map _ (topicRows eventTopics)) as [|j l] eqn:E.
  - assert (Hnone : forall t, In t eventTopics -> canonical_topic t = None).
    { intros t Ht. destruct (canonical_topic t) as [i'|] eqn:Ec; [|reflexivity].
      assert (Hin : In i' []) by (rewrite <- E; apply topicIds_In; eauto).
      destruct Hin. }
    split.
    + intros [<-|[]]. right. auto.
    + intros [[t [Ht Ec]] | [-> _]]; [|now left].
      rewrite (Hnone t Ht) in Ec. discriminate.
  - rewrite <- E, topicIds_In. split; [auto|].
    intros [H | [_ Hnone]]; [exact H|].
    assert (Hin : In j (j :: l)) by now left.
    rewrite <- E in Hin. apply topicIds_In in Hin. destruct Hin as [t [Ht Ec]].
    rewrite (Hnone t Ht) in Ec. discriminate.
Qed.

Lemma insertTopics_table (publicationId : Z) (eventTopics : list BorgTopic) (db : DB) :
  PublicationTopics (insertTopics publicationId eventTopics db)
  = createManySkip (same_key pt_key pair_eqb)
      (map (fun id => mkPublicationTopic publicationId id) (finalTopicIds eventTopics))
      (PublicationTopics db).
Proof.
  unfold insertTopics.
  destruct (map _ (finalTopicIds eventTopics)) as [|r rows]; [reflexivity|].
  cbn [PublicationTopics set_PublicationTopics].
  apply processInChunks_table. lia.
Qed.

End BridgingFacts.

(** X20.  [insertAuthors] only appends authorship rows, all of the new
    publication, each for a researcher whose [lisperator_id] is among the
    author ids; an author id no researcher has is dropped without notice.
    When the [lisperator_id] values are unique, every researcher among the
    author ids is linked afterwards.  The pairs of publication and
    researcher stay unique, so an author listed twice is linked once. *)
Theorem insertAuthors_links_known_authors (pubId : Z) (authorUserIds : list Z)
        (userRows : list Bridging.UserRow) (db : DB) :
  let db' := Bridging.insertAuthors pubId authorUserIds (Bridging.buildUserMap userRows) db in
  (exists added,
      PublicationUsers db' = PublicationUsers db ++ added
      /\ forall pu, In pu added ->
                    pu_publication_id pu = pubId
                    /\ exists row, In row userRows
                                   /\ In (Bridging.ur_lisperator_id row) authorUserIds
                                   /\ pu_user_id pu = Bridging.ur_id row)
  /\ (NoDup (map Bridging.ur_lisperator_id userRows) ->
      forall row, In row userRows -> In (Bridging.ur_lisperator_id row) authorUserIds ->
                  In (pubId, Bridging.ur_id row) (map Bridging.pu_key (PublicationUsers db')))
  /\ (NoDup (map Bridging.pu_key (PublicationUsers db)) ->
      NoDup (map Bridging.pu_key (PublicationUsers db')))
  /\ Bridging.set_PublicationUsers db (PublicationUsers db') = db'.
Proof.
  intro db'.
  pose proof (BridgingFacts.insertAuthors_table pubId authorUserIds
                (Bridging.buildUserMap userRows) db) as HT.
  fold db' in HT.
  split; [|split; [|split]].
  - destruct (ChunkFacts.createManySkip_added Bridging.pu_key Bridging.pair_eqb
                (Bridging.author_rows pubId authorUserIds (Bridging.buildUserMap userRows))
                (PublicationUsers db)) as (added & Ha & Hi & _).
    exists added. split; [now rewrite HT|].
    intros pu Hpu. apply Hi, BridgingFacts.author_rows_In in Hpu.
    destruct Hpu as (k & v & Hk & E & ->). split; [reflexivity|].
    apply BridgingFacts.map_get_known in E. destruct E as (row & Hrow & <- & <-).
    now exists row.
  - intros Hn row Hrow Hid. rewrite HT.
    apply (ChunkFacts.createManySkip_keys Bridging.pu_key Bridging.pair_eqb
             BridgingFacts.pair_eqb_eq).
    right. apply in_map_iff. exists (mkPublicationUser pubId (Bridging.ur_id row)).
    split; [reflexivity|]. apply BridgingFacts.author_rows_In.
    exists (Bridging.ur_lisperator_id row), (Bridging.ur_id row).
    split; [exact Hid|]. split; [|reflexivity].
    now apply BridgingFacts.map_get_unique.
  - intro Hn. rewrite HT.
    now apply (ChunkFacts.createManySkip_NoDup Bridging.pu_key Bridging.pair_eqb
                 BridgingFacts.pair_eqb_eq).
  - subst db'. unfold Bridging.insertAuthors.
    destruct (Bridging.author_rows _ _ _); [now destruct db | reflexivity].
Qed.

(** X21.  [insertTopics] never leaves the publication without a topic: it
    links every canonical topic (1 to 8) that a topic of the venue maps to,
    and when none does it links topic 9.  It only appends rows, all of this
    publication with a topic from 1 to 9, topic 9 only as that fallback, and
    keeps the pairs of publication and topic unique. *)
Theorem insertTopics_links_a_topic (publicationId : Z)
        (eventTopics : list Bridging.BorgTopic) (db : DB) :
  let db' := Bridging.insertTopics publicationId eventTopics db in
  let linked := fun i => In (publicationId, i) (map Bridging.pt_key (PublicationTopics db')) in
  (exists added,
      PublicationTopics db' = PublicationTopics db ++ added
      /\ forall pt, In pt added ->
                    pt_publication_id pt = publicationId
                    /\ 1 <= pt_topic_id pt <= 9
                    /\ (pt_topic_id pt = 9 ->
                        forall t, In t eventTopics -> Bridging.canonical_topic t = None))
  /\ (exists i, linked i)
  /\ (forall t i, In t eventTopics -> Bridging.canonical_topic t = Some i -> linked i)
  /\ ((forall t, In t eventTopics -> Bridging.canonical_topic t = None) -> linked 9)
  /\ (NoDup (map Bridging.pt_key (PublicationTopics db)) ->
      NoDup (map Bridging.pt_key (PublicationTopics db'))).
Proof.
  intros db' linked.
  pose proof (BridgingFacts.insertTopics_table publicationId eventTopics db) as HT.
  fold db' in HT.
  assert (Hlinked : forall i, In i (Bridging.finalTopicIds eventTopics) -> linked i).
  { intros i Hi. unfold linked. rewrite HT.
    apply (ChunkFacts.createManySkip_keys Bridging.pt_key Bridging.pair_eqb
             BridgingFacts.pair_eqb_eq).
    right. apply in_map_iff. exists (mkPublicationTopic publicationId i).
    split; [reflexivity|]. now apply in_map. }
  split; [|split; [|split; [|split]]].
  - destruct (ChunkFacts.createManySkip_added Bridging.pt_key Bridging.pair_eqb
                (map (fun id => mkPublicationTopic publicationId id)
                     (Bridging.finalTopicIds eventTopics))
                (PublicationTopics db)) as (added & Ha & Hi & _).
    exists added. split; [now rewrite HT|].
    intros pt Hpt. apply Hi, in_map_iff in Hpt. destruct Hpt as [i [<- Hin]].
    cbn [pt_publication_id pt_topic_id]. split; [reflexivity|].
    apply BridgingFacts.finalTopicIds_In in Hin.
    destruct Hin as [[t [Ht Ec]] | [-> Hnone]].
    + pose proof (BridgingFacts.canonical_topic_range t i Ec). split; [lia|]. lia.
    + split; [lia|]. auto.
  - destruct (Bridging.finalTopicIds eventTopics) as [|i l] eqn:E.
    + exfalso. unfold Bridging.finalTopicIds in E.
      destruct (flat_map _ _); discriminate.
    + exists i. apply Hlinked. now left.
  - intros t i Ht Ec. apply Hlinked, BridgingFacts.finalTopicIds_In. left. eauto.
  - intro Hnone. apply Hlinked, BridgingFacts.finalTopicIds_In. right. auto.
  - intro Hn. rewrite HT.
    now apply (ChunkFacts.createManySkip_NoDup Bridging.pt_key Bridging.pair_eqb
                 BridgingFacts.pair_eqb_eq).
Qed.

(** ** The update of a stored publication *)

Module UpdateFacts.
Import PointSystemInitializationJob PointSystemUpdateJob Utils ChunkFacts.

Lemma option_Z_eqb_eq (a b : option Z) : option_Z_eqb a b = true -> a = b.
Proof.
  destruct a, b; simpl; try discriminate; [|reflexivity].
  intro H. apply Z.eqb_eq in H. now subst.
Qed.

Lemma external_rows (id : Z) (records : list OCitRecord) (c : Citation) :
  In c (map (fun rec => mkCitation id (oc_oci rec) (oc_creation rec)
                                   (Some (String.eqb (oc_author_sc rec) "yes"%string)))
            (filter not_self records)) ->
  cit_publication_id c = id /\ author_sc c = Some false.
Proof.
  intro H. apply in_map_iff in H. destruct H as [rec [<- Hrec]].
  apply filter_In in Hrec. destruct Hrec as [_ Hrec]. unfold not_self in Hrec.
  split; [reflexivity|]. cbn [author_sc].
  destruct (String.eqb (oc_author_sc rec) "yes"); [discriminate | reflexivity].
Qed.

End UpdateFacts.

(** X22.  Step 3 of the update job, for a stored publication with a real
    DOI whose citations were fetched: it only appends citation rows, all of
    this publication and none a self-citation, and keeps the [oci] values
    unique.  Afterwards the cached [citation_count] of the publication is
    the number of citation rows stored for it, whatever their [author_sc];
    its ids, DOI, venue, scores and publication date and every other
    publication are as before.  The premise is that the count read before
    the step is the stored one. *)
Theorem updateExisting_recounts (pub : PointSystemUpdateJob.ExistingPublication)
        (citationRecords : list PointSystemInitializationJob.OCitRecord) (db : DB) :
  PointSystemUpdateJob.skipped (PointSystemUpdateJob.ep_doi pub) = false ->
  (forall p, In p (Publications db) -> pub_id p = PointSystemUpdateJob.ep_id pub ->
             citation_count p = PointSystemUpdateJob.ep_citation_count pub) ->
  let db' := PointSystemUpdateJob.updateExisting pub (Some citationRecords) db in
  let id := PointSystemUpdateJob.ep_id pub in
  (exists added,
      Citations db' = Citations db ++ added
      /\ forall c, In c added -> cit_publication_id c = id /\ author_sc c = Some false)
  /\ (NoDup (map oci (Citations db)) -> NoDup (map oci (Citations db')))
  /\ (forall i p, nth_error (Publications db) i = Some p ->
                  exists p',
                    nth_error (Publications db') i = Some p'
                    /\ pub_id p' = pub_id p /\ submission_id p' = submission_id p
                    /\ doi p' = doi p /\ conference p' = conference p
                    /\ review_score p' = review_score p
                    /\ overall_score p' = overall_score p
                    /\ date_published p' = date_published p
                    /\ (pub_id p <> id -> p' = p)
                    /\ (pub_id p = id ->
                        citation_count p'
                        = Some (Z.of_nat (List.length
                                            (PointSystemUpdateJob.stored_citations db' id))))).
Proof.
  intros Hreal Hread db' id.
  set (rows := map (fun rec => mkCitation id (PointSystemInitializationJob.oc_oci rec)
                                 (PointSystemInitializationJob.oc_creation rec)
                                 (Some (String.eqb
                                          (PointSystemInitializationJob.oc_author_sc rec)
                                          "yes"%string)))
                   (filter PointSystemInitializationJob.not_self citationRecords)).
  set (table := PointSystemInitializationJob.createMany rows (Citations db)).
  set (newCount := Z.of_nat (List.length
                               (filter (fun c => cit_publication_id c =? id) table))).
  assert (HC : Citations db' = table).
  { subst db'. unfold PointSystemUpdateJob.updateExisting. rewrite Hreal.
    fold id. fold rows. fold table. fold newCount.
    now destruct (PointSystemUpdateJob.option_Z_eqb _ _). }
  assert (Hcount : Z.of_nat (List.length (PointSystemUpdateJob.stored_citations db' id))
                   = newCount).
  { unfold PointSystemUpdateJob.stored_citations. now rewrite HC. }
  split; [|split].
  - rewrite HC. subst table. rewrite ChunkFacts.createMany_oci.
    destruct (ChunkFacts.createManySkip_added oci String.eqb rows (Citations db))
      as (added & Ha & Hi & _).
    exists added. split; [exact Ha|].
    intros c Hc. apply (UpdateFacts.external_rows id citationRecords). now apply Hi.
  - intro Hn. rewrite HC. subst table. rewrite ChunkFacts.createMany_oci.
    now apply (ChunkFacts.createManySkip_NoDup oci String.eqb ChunkFacts.string_eqb_eq).
  - intros i p Hp. rewrite Hcount.
    subst db'. unfold PointSystemUpdateJob.updateExisting. rewrite Hreal.
    fold id. fold rows. fold table. fold newCount.
    destruct (PointSystemUpdateJob.option_Z_eqb (Some newCount)
                (PointSystemUpdateJob.ep_citation_count pub)) eqn:E.
    + exists p. cbn [Publications set_Citations]. split; [exact Hp|].
      repeat split; try reflexivity.
      intro Hid. apply UpdateFacts.option_Z_eqb_eq in E. rewrite E.
      apply Hread; [now apply nth_error_In in Hp | exact Hid].
    + cbn [Publications set_Publications set_Citations].
      rewrite nth_error_map, Hp. cbn [option_map].
      eexists. split; [reflexivity|].
      destruct (Z.eqb_spec (pub_id p) id) as [Hid|Hid];
        repeat split; try reflexivity; intro H; congruence.
Qed.

Lemma updateExisting_recounts_witness :
  exists p',
    nth_error (Publications
                 (PointSystemUpdateJob.updateExisting
                    (PointSystemUpdateJob.mkExisting 1 (Some "10.4108/a"%string) (Some 2))
                    (Some Examples.five_records) Examples.backfill)) 0
    = Some p'
    /\ citation_count p' = Some 6.
Proof.
  destruct (updateExisting_recounts
              (PointSystemUpdateJob.mkExisting 1 (Some "10.4108/a"%string) (Some 2))
              Examples.five_records Examples.backfill) as (_ & _ & H).
  - reflexivity.
  - intros p [<-|[<-|[]]]; [reflexivity | discriminate].
  - destruct (H 0%nat _ eq_refl) as (p' & H1 & _ & _ & _ & _ & _ & _ & _ & _ & H2).
    exists p'. split; [exact H1|]. now rewrite H2.
Defined.

(** ** [extractDoi] *)

Module ExtractFacts.
Import ExtractDoi.

Lemma strip_prefix_Some (p s rest : JSString) :
  strip_prefix p s = Some rest <-> s = p ++ rest.
Proof.
  revert s. induction p as [|a p IH]; intro s; simpl.
  - split; [intro H; now injection H | intros ->; reflexivity].
  - destruct s as [|b s]; [split; discriminate|].
    destruct (Z.eqb_spec a b) as [->|Hne].
    + rewrite IH. split; [intros ->; reflexivity | intro H; now injection H].
    + split; [discriminate | intro H; injection H as Hb _; congruence].
Qed.

Lemma non_space_run_split (s : JSString) :
  exists rest, s = non_space_run s ++ rest /\ token_before (non_space_run s) rest.
Proof.
  induction s as [|c s IH]; cbn [non_space_run].
  - exists []. repeat split. constructor.
  - destruct (is_space c) eqn:E.
    + exists (c :: s). repeat split; [constructor | exact E].
    + destruct IH as (rest & Hs & Hf & Hr). exists rest.
      split; [simpl; now rewrite <- Hs|]. split; [now constructor | exact Hr].
Qed.

Lemma non_space_run_token (run rest : JSString) :
  token_before run rest -> non_space_run (run ++ rest) = run.
Proof.
  intros [Hf Hr]. induction Hf as [|c run Hc Hf IH]; cbn [app non_space_run].
  - destruct rest as [|c rest]; [reflexivity | cbn [non_space_run]; now rewrite Hr].
  - now rewrite Hc, IH.
Qed.

Lemma match_at_Some (s d : JSString) :
  match_at s = Some d ->
  exists run rest,
    s = doi_colon ++ d ++ rest /\ d = ten_dot ++ run /\ run <> []
    /\ token_before run rest.
Proof.
  unfold match_at.
  destruct (strip_prefix (doi_colon ++ ten_dot) s) as [after|] eqn:E; [|discriminate].
  apply strip_prefix_Some in E.
  destruct (non_space_run_split after) as (rest & Hafter & Htok).
  destruct (non_space_run after) as [|c run] eqn:R; [discriminate|].
  intro H. injection H as <-. exists (c :: run), rest.
  split; [|split; [reflexivity | split; [discriminate | exact Htok]]].
  rewrite E, Hafter. now rewrite <- !app_assoc.
Qed.

Lemma regex_match_Some (s d : JSString) :
  regex_match s = Some d ->
  exists before run rest,
    s = before ++ doi_colon ++ d ++ rest /\ d = ten_dot ++ run /\ run <> []
    /\ token_before run rest.
Proof.
  induction s as [|c s IH]; cbn [regex_match].
  - destruct (match_at []) eqn:E; [|discriminate].
    intro H. injection H as ->. apply match_at_Some in E.
    destruct E as (run & rest & Hs & Hd & Hr & Ht). exists [], run, rest. auto.
  - destruct (match_at (c :: s)) eqn:E.
    + intro H. injection H as ->. apply match_at_Some in E.
      destruct E as (run & rest & Hs & Hd & Hr & Ht). exists [], run, rest. auto.
    + intro H. apply IH in H. destruct H as (before & run & rest & Hs & Hd & Hr & Ht).
      exists (c :: before), run, rest. rewrite Hs. auto.
Qed.

Lemma match_at_token (run rest : JSString) :
  run <> [] -> token_before run rest ->
  match_at (doi_colon ++ (ten_dot ++ run) ++ rest) = Some (ten_dot ++ run).
Proof.
  intros Hne Htok. unfold match_at.
  replace (strip_prefix (doi_colon ++ ten_dot) (doi_colon ++ (ten_dot ++ run) ++ rest))
    with (Some (run ++ rest))
    by (symmetry; apply strip_prefix_Some; now rewrite <- !app_assoc).
  rewrite (non_space_run_token run rest Htok).
  destruct run; [contradiction | reflexivity].
Qed.

(** Where the expression matches at some position, a match is found. *)
Lemma regex_match_found (before s : JSString) :
  match_at s <> None -> regex_match (before ++ s) <> None.
Proof.
  intro H. induction before as [|c before IH]; cbn [app regex_match].
  - destruct s; cbn [regex_match]; destruct (match_at _); congruence.
  - destruct (match_at (c :: before ++ s)); [discriminate | exact IH].
Qed.

End ExtractFacts.

(** X23.  What [extractDoi] returns starts with ["10."], goes on with at
    least one more character, holds no white space, and stands in the
    string right after a ["doi:"], up to the next white space or the end.
    A string in which some ["doi:10."] is followed by a character that is
    not white space gives a result, and the empty string gives none.  For a
    string that starts with ["doi:"] followed by such a DOI, the result is
    that DOI. *)
Theorem extractDoi_token :
  (forall s d,
      ExtractDoi.extractDoi s = Some d ->
      exists before run rest,
        s = before ++ ExtractDoi.doi_colon ++ d ++ rest
        /\ d = ExtractDoi.ten_dot ++ run /\ run <> []
        /\ ExtractDoi.token_before d rest)
  /\ (forall before c rest,
         ExtractDoi.is_space c = false ->
         ExtractDoi.extractDoi
           (before ++ ExtractDoi.doi_colon ++ ExtractDoi.ten_dot ++ c :: rest) <> None)
  /\ ExtractDoi.extractDoi [] = None
  /\ (forall run rest,
         run <> [] -> ExtractDoi.token_before run rest ->
         ExtractDoi.extractDoi
           (ExtractDoi.doi_colon ++ (ExtractDoi.ten_dot ++ run) ++ rest)
         = Some (ExtractDoi.ten_dot ++ run)).
Proof.
  split; [|split; [|split]].
  - intros s d H. unfold ExtractDoi.extractDoi in H.
    assert (Hr : ExtractDoi.regex_match s = Some d) by (destruct s; [discriminate | exact H]).
    apply ExtractFacts.regex_match_Some in Hr.
    destruct Hr as (before & run & rest & Hs & Hd & Hne & Hf & Hrest).
    exists before, run, rest. repeat split; auto.
    rewrite Hd. apply Forall_app. split; [|exact Hf].
    repeat constructor.
  - intros before c rest Hc.
    assert (Hm : ExtractDoi.match_at
                   (ExtractDoi.doi_colon ++ ExtractDoi.ten_dot ++ c :: rest) <> None).
    { unfold ExtractDoi.match_at.
      replace (ExtractDoi.strip_prefix (ExtractDoi.doi_colon ++ ExtractDoi.ten_dot)
                 (ExtractDoi.doi_colon ++ ExtractDoi.ten_dot ++ c :: rest))
        with (Some (c :: rest))
        by (symmetry; apply ExtractFacts.strip_prefix_Some; now rewrite <- app_assoc).
      cbn [ExtractDoi.non_space_run]. rewrite Hc. discriminate. }
    pose proof (ExtractFacts.regex_match_found before _ Hm) as Hr.
    unfold ExtractDoi.extractDoi.
    destruct (before ++ ExtractDoi.doi_colon ++ ExtractDoi.ten_dot ++ c :: rest) eqn:E;
      [|exact Hr].
    destruct before; discriminate.
  - reflexivity.
  - intros run rest Hne Htok. unfold ExtractDoi.extractDoi.
    cbn [ExtractDoi.doi_colon app ExtractDoi.regex_match].
    change (100 :: 111 :: 105 :: 58 :: (ExtractDoi.ten_dot ++ run) ++ rest)
      with (ExtractDoi.doi_colon ++ (ExtractDoi.ten_dot ++ run) ++ rest).
    now rewrite ExtractFacts.match_at_token.
Qed.
